(** * wink: the monitoring engine, embedded in Rocq

    A shallow embedding of the uptime monitor's core:
    - [config]   : internal/config/model.go (defaults, validation and save),
                   read as values;
    - [storage]  : internal/storage/history.go (history and incident store),
                   read as values;
    - [startup]  : the store's start-up from the decoded files, whose
                   entries are pointers;
    - [aliasing] : the store with its slices as headers over backing arrays;
    - [sharing]  : the configuration with its slices and map in memory,
                   and the monitor page that writes through them;
    - [web], [notify] : the dashboard's helpers and the alert router;
    - [monitor]  : internal/monitor (probe factory, analyzer, scheduler
                   reconciliation).

    Go's [int] and [int64] are integers of 64 bits; they are modelled as [Z]
    with the wrap-around of the arithmetic written out ([Int64.wrap]).
    A Go map is a [gmap]; a slice read as a value is a [list].  Every call
    of [time.Now().Unix()] is an input of the model. *)

From Stdlib Require Import ZArith Lia PrimFloat Uint63.
From stdpp Require Import gmap strings list pretty.

Local Open Scope Z_scope.

(** ** Machine integers *)

Module Int64.

Definition min64 : Z := - 2 ^ 63.
Definition max64 : Z := 2 ^ 63 - 1.

(** Two's complement reduction of a mathematical integer to 64 bits. *)
Definition wrap (z : Z) : Z := (z + 2 ^ 63) mod 2 ^ 64 - 2 ^ 63.

Definition add (x y : Z) : Z := wrap (x + y).
Definition sub (x y : Z) : Z := wrap (x - y).

Definition InRange (z : Z) : Prop := min64 <= z <= max64.

Lemma wrap_small z : InRange z -> wrap z = z.
Proof.
  unfold InRange, min64, max64, wrap. intros H.
  rewrite Z.mod_small by lia. lia.
Qed.

Lemma wrap_range z : InRange (wrap z).
Proof.
  unfold InRange, min64, max64, wrap.
  pose proof (Z.mod_pos_bound (z + 2 ^ 63) (2 ^ 64) ltac:(lia)). lia.
Qed.

Lemma add_small x y : InRange (x + y) -> add x y = x + y.
Proof. apply wrap_small. Qed.

Lemma sub_small x y : InRange (x - y) -> sub x y = x - y.
Proof. apply wrap_small. Qed.

(** [float64(n)] for a non-negative [int] (a length or a counter). *)
Definition to_float (z : Z) : float := PrimFloat.of_uint63 (Uint63.of_Z z).

End Int64.

(** ** Files at start-up *)

(** What reading and decoding a JSON file gives: the file does not exist,
    it cannot be read or parsed, or it decodes to a document. *)
Inductive FileRead (A : Type) :=
| Missing
| Unreadable (err : string)
| Decoded (doc : A).

Arguments Missing {A}.
Arguments Unreadable {A} err.
Arguments Decoded {A} doc.

(** ** internal/config/model.go *)

Module config.

Definition CurrentConfigVersion : Z := 1.

Record SystemConfig := mkSystemConfig {
  BindAddress : string;
  CheckInterval : Z;
  MaxHistoryPoints : Z;
  DumpInterval : Z;
  SessionTTL : Z;
  LogLevel : string;
  MaxMonitors : Z;
  Timezone : string;
}.

Record AuthConfig := mkAuthConfig {
  Username : string;
  PasswordHash : string;
  MaxLoginAttempts : Z;
  LockoutDuration : Z;
  SSOEnabled : bool;
}.

Record NotifierConfig := mkNotifierConfig {
  nID : string;
  nType : string;
  Remark : string;
  BotToken : string;
  ChatID : string;
  URL : string;
  Method : string;
}.

Record ContactGroup := mkContactGroup {
  gID : string;
  gName : string;
  gNotifiers : list NotifierConfig;
}.

(** [Enabled] is a [*bool]: [None] is the nil pointer. *)
Record Monitor := mkMonitor {
  ID : string;
  Name : string;
  Type_ : string;
  Target : string;
  GroupID : string;
  Interval : Z;
  Timeout : Z;
  MaxRetries : Z;
  RetryInterval : Z;
  ReminderInterval : Z;
  IgnoreTLS : bool;
  Enabled : option bool;
  NotifierIDs : list string;
}.

(** A nil map reads as the empty one and a nil slice as the empty list;
    [GroupOrder] keeps the difference, which [ApplyDefaults] tests. *)
Record Config := mkConfig {
  Version : Z;
  System : SystemConfig;
  Auth : AuthConfig;
  ContactGroups : gmap string ContactGroup;
  GroupOrder : option (list string);
  Notifiers : list NotifierConfig;
  Monitors : list Monitor;
}.

#[global] Instance Monitor_eq_dec : EqDecision Monitor.
Proof. solve_decision. Defined.

Definition IsEnabled (m : Monitor) : bool :=
  match Enabled m with
  | None => true
  | Some b => b
  end.

Definition nl : string := String (Ascii.ascii_of_nat 10) EmptyString.

Section Environment.

(** What the run-time environment decides: the local time zone, the random
    identifiers ([generateID], by call number), the order in which the
    [n]-th [range] loop of [ApplyDefaults] visits a map, the scheme
    [url.Parse] finds ([None] when parsing fails), and the formatting verbs
    [%d] and [%q] of [fmt]. *)
Variable detectTimezone : string.
Variable generateID : nat -> string.
Variable rangeOrder : nat -> gmap string ContactGroup -> list (string * ContactGroup).
Variable urlScheme : string -> option string.
Variable showInt : Z -> string.
Variable quote : string -> string.

Definition DefaultConfig : Config :=
  {| Version := CurrentConfigVersion;
     System := {| BindAddress := ":8080"; CheckInterval := 60;
                  MaxHistoryPoints := 1440; DumpInterval := 300;
                  SessionTTL := 86400; LogLevel := "info";
                  MaxMonitors := 500; Timezone := detectTimezone |};
     Auth := {| Username := "admin";
                PasswordHash :=
                  "$2a$10$8.FeSs3eopZT0s/fCTdMWuE8U4f/Dv.ERy10fqrb9QnpHNknp8i/q";
                MaxLoginAttempts := 5; LockoutDuration := 900;
                SSOEnabled := false |};
     ContactGroups := ∅;
     GroupOrder := None;
     Notifiers := [];
     Monitors := [] |}.

Definition orDefaultZ (v d : Z) : Z := if v <=? 0 then d else v.
Definition orDefaultS (v d : string) : string := if String.eqb v "" then d else v.

Definition defaultSystem (s : SystemConfig) : SystemConfig :=
  let d := System DefaultConfig in
  {| BindAddress := orDefaultS (BindAddress s) (BindAddress d);
     CheckInterval := orDefaultZ (CheckInterval s) (CheckInterval d);
     MaxHistoryPoints := orDefaultZ (MaxHistoryPoints s) (MaxHistoryPoints d);
     DumpInterval := orDefaultZ (DumpInterval s) (DumpInterval d);
     SessionTTL := orDefaultZ (SessionTTL s) (SessionTTL d);
     LogLevel := orDefaultS (LogLevel s) (LogLevel d);
     MaxMonitors := orDefaultZ (MaxMonitors s) (MaxMonitors d);
     Timezone := orDefaultS (Timezone s) detectTimezone |}.

Definition defaultAuth (a : AuthConfig) : AuthConfig :=
  let d := Auth DefaultConfig in
  {| Username := Username a;
     PasswordHash := PasswordHash a;
     MaxLoginAttempts := orDefaultZ (MaxLoginAttempts a) (MaxLoginAttempts d);
     LockoutDuration := orDefaultZ (LockoutDuration a) (LockoutDuration d);
     SSOEnabled := SSOEnabled a |}.

(** Legacy migration: the notifiers of every group move to the top-level
    list, in the order the map is visited, and the groups lose theirs. *)
Definition migrateNotifiers (groups : gmap string ContactGroup)
    (ns : list NotifierConfig) : gmap string ContactGroup * list NotifierConfig :=
  foldl (fun acc kv =>
           let '(gs, ns) := acc in
           let g := snd kv in
           if (0 <? Z.of_nat (length (gNotifiers g)))
           then (<[fst kv := {| gID := gID g; gName := gName g; gNotifiers := [] |}]> gs,
                 ns ++ gNotifiers g)
           else (gs, ns))
        (groups, ns) (rangeOrder 0 groups).

(** Every notifier without an identifier gets a generated one. *)
Fixpoint ensureIDs (k : nat) (ns : list NotifierConfig) : list NotifierConfig :=
  match ns with
  | [] => []
  | n :: rest =>
      if String.eqb (nID n) ""
      then {| nID := generateID k; nType := nType n; Remark := Remark n;
              BotToken := BotToken n; ChatID := ChatID n; URL := URL n;
              Method := Method n |} :: ensureIDs (S k) rest
      else n :: ensureIDs k rest
  end.

(** The reconciliation of [GroupOrder]: stale and repeated identifiers go,
    missing ones are appended. *)
Definition cleanOrder (groups : gmap string ContactGroup) (order : list string)
  : list string * gset string :=
  foldl (fun acc id =>
           let '(clean, seen) := acc in
           if bool_decide (is_Some (groups !! id)) && negb (bool_decide (id ∈ seen))
           then (clean ++ [id], {[id]} ∪ seen)
           else (clean, seen))
        ([], ∅) order.

Definition reconcileOrder (groups : gmap string ContactGroup)
    (order : option (list string)) : list string :=
  match order with
  | None => fst <$> rangeOrder 1 groups
  | Some o =>
      let '(clean, seen) := cleanOrder groups o in
      clean ++ filter (fun id => id ∉ seen) (fst <$> rangeOrder 2 groups)
  end.

(** [ApplyDefaults]. *)
Definition ApplyDefaults (c : Config) : Config :=
  let '(groups, ns) := migrateNotifiers (ContactGroups c) (Notifiers c) in
  let groups := delete "_default" groups in
  {| Version := Version c;
     System := defaultSystem (System c);
     Auth := defaultAuth (Auth c);
     ContactGroups := groups;
     GroupOrder := Some (reconcileOrder groups (GroupOrder c));
     Notifiers := ensureIDs 0 ns;
     Monitors := Monitors c |}.

Definition validLogLevel (l : string) : bool :=
  bool_decide (l ∈ ["debug"; "info"; "warn"; "error"]).

Definition validType (t : string) : bool :=
  bool_decide (t ∈ ["http"; "tcp"; "ping"]).

Definition when (b : bool) (msg : string) : list string :=
  if b then [msg] else [].

(** The interval [Validate] compares the timeout with. *)
Definition effectiveInterval (c : Config) (m : Monitor) : Z :=
  if Interval m <=? 0 then CheckInterval (System c) else Interval m.

Definition timeoutErrors (c : Config) (prefix : string) (m : Monitor) : list string :=
  let interval := effectiveInterval c m in
  if Timeout m <=? 0 then [prefix +:+ ".timeout must be > 0"]
  else if Timeout m >=? interval
  then [prefix +:+ ".timeout (" +:+ showInt (Timeout m) +:+ ") must be < interval ("
          +:+ showInt interval +:+ ")"]
  else [].

Definition targetErrors (prefix : string) (m : Monitor) : list string :=
  if String.eqb (Target m) "" then [prefix +:+ ".target is required"]
  else if String.eqb (Type_ m) "http"
  then match urlScheme (Target m) with
       | Some s =>
           when (negb (String.eqb s "http") && negb (String.eqb s "https"))
                (prefix +:+ ".target must be a valid http(s) URL")
       | None => [prefix +:+ ".target must be a valid http(s) URL"]
       end
  else [].

(** The body of the loop of [Validate] for the monitor of index [i];
    [seen] holds the identifiers of the monitors before it. *)
Definition monitorErrors (c : Config) (seen : gset string) (i : nat) (m : Monitor)
  : list string :=
  let prefix := "monitors[" +:+ showInt (Z.of_nat i) +:+ "]" in
  when (String.eqb (ID m) "") (prefix +:+ ".id is required")
  ++ when (bool_decide (ID m ∈ seen)) (prefix +:+ ".id is duplicate: " +:+ ID m)
  ++ when (String.eqb (Name m) "") (prefix +:+ ".name is required")
  ++ when (negb (validType (Type_ m)))
          (prefix +:+ ".type must be http, tcp, or ping (got " +:+ quote (Type_ m) +:+ ")")
  ++ targetErrors prefix m
  ++ when (negb (String.eqb (GroupID m) "")
           && negb (bool_decide (is_Some (ContactGroups c !! GroupID m))))
          (prefix +:+ ".group_id references unknown contact group " +:+ quote (GroupID m))
  ++ timeoutErrors c prefix m
  ++ when (MaxRetries m <? 0) (prefix +:+ ".max_retries must be >= 0")
  ++ when (RetryInterval m <? 0) (prefix +:+ ".retry_interval must be >= 0")
  ++ when (ReminderInterval m <? 0) (prefix +:+ ".reminder_interval must be >= 0").

Fixpoint monitorsErrors (c : Config) (seen : gset string) (i : nat)
    (ms : list Monitor) : list string :=
  match ms with
  | [] => []
  | m :: rest =>
      monitorErrors c seen i m ++ monitorsErrors c ({[ID m]} ∪ seen) (S i) rest
  end.

(** The list [errs] that [Validate] accumulates. *)
Definition validationErrors (c : Config) : list string :=
  when (CheckInterval (System c) <? 5) "system.check_interval must be >= 5 seconds"
  ++ when (String.eqb (Username (Auth c)) "") "auth.username is required"
  ++ when (negb (validLogLevel (LogLevel (System c))))
          ("system.log_level must be one of: debug, info, warn, error (got "
             +:+ quote (LogLevel (System c)) +:+ ")")
  ++ when (Z.of_nat (length (Monitors c)) >? MaxMonitors (System c))
          ("monitors count (" +:+ showInt (Z.of_nat (length (Monitors c)))
             +:+ ") exceeds max_monitors (" +:+ showInt (MaxMonitors (System c)) +:+ ")")
  ++ monitorsErrors c ∅ 0 (Monitors c).

Fixpoint join (sep : string) (l : list string) : string :=
  match l with
  | [] => ""
  | [x] => x
  | x :: rest => x +:+ sep +:+ join sep rest
  end.

Definition renderErrors (errs : list string) : string :=
  "config validation failed:" +:+ nl +:+ "  " +:+ join (nl +:+ "  ") errs.

(** [Validate]: [None] is the nil error. *)
Definition Validate (c : Config) : option string :=
  match validationErrors c with
  | [] => None
  | errs => Some (renderErrors errs)
  end.

(** The manager, read as a value: what the live configuration shows, the
    document last written, and per subscriber whether its channel (of
    capacity one) holds a signal.  A value shares nothing: the struct the
    source holds, whose slices and map its copies share, is in [sharing],
    and [sharing_facts.Save_view] relates the two. *)
Record Manager := mkManager {
  cfg : Config;
  file : option Config;
  subs : list bool;
}.

Definition with_Version (v : Z) (c : Config) : Config :=
  {| Version := v; System := System c; Auth := Auth c;
     ContactGroups := ContactGroups c; GroupOrder := GroupOrder c;
     Notifiers := Notifiers c; Monitors := Monitors c |}.

(** [Save], on what the submitted configuration shows; [writeErr] is what
    [atomicWrite] returns once it is reached.  The result is the returned
    error and what [Save] assigns to the manager: nothing on an error.
    (What the live configuration shows can change without any assignment,
    through storage the submitted struct shares with it: [sharing.Save].) *)
Definition Save (writeErr : option string) (c : Config) (m : Manager)
  : option string * Manager :=
  let c := ApplyDefaults (with_Version CurrentConfigVersion c) in
  match Validate c with
  | Some err => (Some err, m)
  | None =>
      match writeErr with
      | Some e => (Some ("atomic write config: " +:+ e), m)
      | None => (None, {| cfg := c; file := Some c; subs := (fun _ => true) <$> subs m |})
      end
  end.

(** [Subscribe]: one more channel, empty. *)
Definition Subscribe (m : Manager) : Manager :=
  {| cfg := cfg m; file := file m; subs := subs m ++ [false] |}.

(** What [Validate] asks of one monitor. *)
Definition monitorOK (c : Config) (m : Monitor) : Prop :=
  ID m <> "" /\ Name m <> ""
  /\ Type_ m ∈ ["http"; "tcp"; "ping"]
  /\ Target m <> ""
  /\ (Type_ m = "http" ->
      urlScheme (Target m) = Some "http" \/ urlScheme (Target m) = Some "https")
  /\ (GroupID m = "" \/ is_Some (ContactGroups c !! GroupID m))
  /\ 0 < Timeout m < effectiveInterval c m
  /\ 0 <= MaxRetries m /\ 0 <= RetryInterval m /\ 0 <= ReminderInterval m.

End Environment.

(** *** Concrete inputs *)

Definition exampleID (k : nat) : string := "n" +:+ pretty k.

Definition exampleOrder (n : nat) (groups : gmap string ContactGroup)
  : list (string * ContactGroup) := map_to_list groups.

Definition exampleScheme (target : string) : option string :=
  if String.prefix "https://" target then Some "https"
  else if String.prefix "http://" target then Some "http"
  else None.

Definition exampleQuote (s : string) : string := s.

Definition liveManager : Manager :=
  {| cfg := DefaultConfig "UTC"; file := None; subs := [false] |}.

(** A configuration that validates: one monitor, timeout below interval. *)
Definition fiveTen : Monitor :=
  {| ID := "m1"; Name := "site"; Type_ := "http"; Target := "https://example.org";
     GroupID := ""; Interval := 10; Timeout := 5; MaxRetries := 3;
     RetryInterval := 4; ReminderInterval := 0; IgnoreTLS := false;
     Enabled := None; NotifierIDs := ["n1"] |}.

Definition fiveTenConfig : Config :=
  {| Version := CurrentConfigVersion;
     System := System (DefaultConfig "UTC");
     Auth := Auth (DefaultConfig "UTC");
     ContactGroups := ∅; GroupOrder := None;
     Notifiers := [ {| nID := "n1"; nType := "webhook"; Remark := "";
                       BotToken := ""; ChatID := "";
                       URL := "https://hooks.example.org/x"; Method := "" |} ];
     Monitors := [fiveTen] |}.

(** A configuration that validates, with two monitors: the second one
    follows the system interval and has no retry interval. *)
Definition threeSixty : Monitor :=
  {| ID := "m2"; Name := "db"; Type_ := "tcp"; Target := "db.example.org:5432";
     GroupID := ""; Interval := 0; Timeout := 3; MaxRetries := 2;
     RetryInterval := 0; ReminderInterval := 10; IgnoreTLS := false;
     Enabled := Some true; NotifierIDs := [] |}.

Definition twoMonitorConfig : Config :=
  {| Version := CurrentConfigVersion;
     System := System (DefaultConfig "UTC");
     Auth := Auth (DefaultConfig "UTC");
     ContactGroups := ∅; GroupOrder := None;
     Notifiers := Notifiers fiveTenConfig;
     Monitors := [fiveTen; threeSixty] |}.

(** [liveManager] after a successful [Save] of [fiveTenConfig]. *)
Definition savedManager : Manager :=
  snd (Save "UTC" exampleID exampleOrder exampleScheme pretty exampleQuote
         None fiveTenConfig liveManager).

End config.

(** ** internal/storage/history.go *)

Module storage.

Definition CurrentHistoryVersion : Z := 1.

(** [incidentRetention.Seconds()] converted to [int64]: 30 days. *)
Definition incidentRetentionSeconds : Z := 30 * 24 * 3600.

Record LatencyPoint := mkLatencyPoint {
  Time : Z;
  Latency : Z;
  Up : bool;
}.

(** [ResolvedAt] is a [*int64]: [None] is the nil pointer of an open
    incident. *)
Record Incident := mkIncident {
  Type_ : string;
  StartedAt : Z;
  ResolvedAt : option Z;
  Duration : Z;
  Reason : string;
}.

Record MonitorHistory := mkMonitorHistory {
  Uptime24h : float;
  Uptime7d : float;
  Uptime30d : float;
  LatencyHistory : list LatencyPoint;
  Incidents : list Incident;
  LastCheckTime : Z;
  IsUp : bool;
}.

(** The history document with every entry there: [Monitors] maps to the
    history itself.  In the source the entries are pointers; no operation
    of the store puts a nil one, and a decoded document that holds one (a
    JSON null) is in [startup]. *)
Record HistoryData := mkHistoryData {
  Version : Z;
  LastDumpTime : Z;
  Monitors : gmap string MonitorHistory;
}.

Record IncidentsData := mkIncidentsData {
  iVersion : Z;
  iLastDumpTime : Z;
  iMonitors : gmap string (list Incident);
}.

(** The in-memory store.  A key missing from [incidents] reads as the nil
    slice; nil and the empty slice are both [[]] once a key is present. *)
Record HistoryManager := mkHistoryManager {
  data : HistoryData;
  incidents : gmap string (list Incident);
  maxHistoryPts : Z;
}.

Definition set_monitor (id : string) (h : MonitorHistory) (hm : HistoryManager)
  : HistoryManager :=
  {| data := {| Version := Version (data hm);
                LastDumpTime := LastDumpTime (data hm);
                Monitors := <[id := h]> (Monitors (data hm)) |};
     incidents := incidents hm;
     maxHistoryPts := maxHistoryPts hm |}.

Definition set_incidents (incs : gmap string (list Incident)) (hm : HistoryManager)
  : HistoryManager :=
  {| data := data hm; incidents := incs; maxHistoryPts := maxHistoryPts hm |}.

(** [hm.incidents[id]] as Go reads it: nil (here [[]]) for a missing key. *)
Definition incidentsOf (hm : HistoryManager) (id : string) : list Incident :=
  default [] (incidents hm !! id).

Definition newMonitorHistory : MonitorHistory :=
  {| Uptime24h := 0; Uptime7d := 0; Uptime30d := 0;
     LatencyHistory := []; Incidents := [];
     LastCheckTime := 0; IsUp := true |}.

(** [ensureMonitor]: creates the history entry and the (empty) incident
    list when missing; returns the entry together with the store. *)
Definition ensureMonitor (id : string) (hm : HistoryManager)
  : MonitorHistory * HistoryManager :=
  let '(h, hm1) :=
    match Monitors (data hm) !! id with
    | Some h => (h, hm)
    | None => (newMonitorHistory, set_monitor id newMonitorHistory hm)
    end in
  let hm2 :=
    match incidents hm1 !! id with
    | Some _ => hm1
    | None => set_incidents (<[id := []]> (incidents hm1)) hm1
    end in
  (h, hm2).

(** The loop of [calcUptimeWindow]: one step per point, carrying
    [(total, up)].  The counters are bounded by [len(points)]. *)
Definition countStep (cutoff : Z) (acc : Z * Z) (p : LatencyPoint) : Z * Z :=
  let '(total, up) := acc in
  if Time p >=? cutoff
  then (total + 1, if Up p then up + 1 else up)
  else (total, up).

Definition calcUptimeWindow (points : list LatencyPoint) (now windowSec : Z)
  : float :=
  let cutoff := Int64.sub now windowSec in
  let '(total, up) := foldl (countStep cutoff) (0, 0) points in
  if total =? 0 then 100%float
  else (Int64.to_float up / Int64.to_float total * 100)%float.

(** [recalcUptime]; [now] is its reading of the clock. *)
Definition recalcUptime (now : Z) (h : MonitorHistory) : MonitorHistory :=
  {| Uptime24h := calcUptimeWindow (LatencyHistory h) now (24 * 3600);
     Uptime7d := calcUptimeWindow (LatencyHistory h) now (7 * 24 * 3600);
     Uptime30d := calcUptimeWindow (LatencyHistory h) now (30 * 24 * 3600);
     LatencyHistory := LatencyHistory h;
     Incidents := Incidents h;
     LastCheckTime := LastCheckTime h;
     IsUp := IsUp h |}.

(** The slice expression [s[low:]]: Go panics ([None]) unless
    [0 <= low <= len(s)]. *)
Definition sliceFrom {A} (low : Z) (s : list A) : option (list A) :=
  if (0 <=? low) && (low <=? Z.of_nat (length s))
  then Some (drop (Z.to_nat low) s)
  else None.

(** The ring-buffer trim of [RecordProbe].  [excess] is written without
    wrap-around: a length is below [2 ^ 63], so the difference can only
    leave the range of [int] when [maxPts] is negative, and then the wrapped
    value is negative and the exact one is above the length; the slice
    expression panics on both. *)
Definition trim (maxPts : Z) (pts : list LatencyPoint)
  : option (list LatencyPoint) :=
  if Z.of_nat (length pts) >? maxPts
  then let excess := Z.of_nat (length pts) - maxPts in sliceFrom excess pts
  else Some pts.

(** [RecordProbe].  [tPoint], [tCheck] and [tCalc] are its three readings
    of the clock, in program order.  [None] is a run-time panic. *)
Definition RecordProbe (tPoint tCheck tCalc : Z) (monitorID : string)
    (latencyMs : Z) (up : bool) (hm : HistoryManager) : option HistoryManager :=
  let '(h, hm1) := ensureMonitor monitorID hm in
  let appended :=
    LatencyHistory h ++ [ {| Time := tPoint; Latency := latencyMs; Up := up |} ] in
  match trim (maxHistoryPts hm1) appended with
  | None => None
  | Some pts =>
      let h1 := {| Uptime24h := Uptime24h h; Uptime7d := Uptime7d h;
                   Uptime30d := Uptime30d h;
                   LatencyHistory := pts; Incidents := Incidents h;
                   LastCheckTime := tCheck; IsUp := up |} in
      Some (set_monitor monitorID (recalcUptime tCalc h1) hm1)
  end.

Definition with_IsUp (b : bool) (h : MonitorHistory) : MonitorHistory :=
  {| Uptime24h := Uptime24h h; Uptime7d := Uptime7d h; Uptime30d := Uptime30d h;
     LatencyHistory := LatencyHistory h; Incidents := Incidents h;
     LastCheckTime := LastCheckTime h; IsUp := b |}.

(** [RecordDown]: appends an open incident. *)
Definition RecordDown (now : Z) (monitorID reason : string) (hm : HistoryManager)
  : HistoryManager :=
  let '(h, hm1) := ensureMonitor monitorID hm in
  let hm2 := set_monitor monitorID (with_IsUp false h) hm1 in
  set_incidents
    (<[monitorID := incidentsOf hm2 monitorID ++
         [ {| Type_ := "down"; StartedAt := now; ResolvedAt := None;
              Duration := 0; Reason := reason |} ] ]> (incidents hm2))
    hm2.

Definition resolve (now : Z) (inc : Incident) : Incident :=
  {| Type_ := Type_ inc; StartedAt := StartedAt inc;
     ResolvedAt := Some now;
     Duration := Int64.sub now (StartedAt inc);
     Reason := Reason inc |}.

(** The loop of [RecordUp], [for i := n - 1; i >= 0; i--]: [resolveLatest now
    incs n] has still the indices below [n] to visit. *)
Fixpoint resolveLatest (now : Z) (incs : list Incident) (n : nat)
  : list Incident :=
  match n with
  | O => incs
  | S i =>
      match incs !! i with
      | Some inc =>
          match ResolvedAt inc with
          | None => <[i := resolve now inc]> incs
          | Some _ => resolveLatest now incs i
          end
      | None => incs
      end
  end.

(** [RecordUp]: resolves the latest open incident, in place. *)
Definition RecordUp (now : Z) (monitorID : string) (hm : HistoryManager)
  : HistoryManager :=
  let '(h, hm1) := ensureMonitor monitorID hm in
  let hm2 := set_monitor monitorID (with_IsUp true h) hm1 in
  let incs := incidentsOf hm2 monitorID in
  set_incidents
    (<[monitorID := resolveLatest now incs (length incs)]> (incidents hm2))
    hm2.

(** [RemoveMonitor]. *)
Definition RemoveMonitor (id : string) (hm : HistoryManager) : HistoryManager :=
  {| data := {| Version := Version (data hm);
                LastDumpTime := LastDumpTime (data hm);
                Monitors := delete id (Monitors (data hm)) |};
     incidents := delete id (incidents hm);
     maxHistoryPts := maxHistoryPts hm |}.

(** The test of the eviction loop of [Dump]. *)
Definition keepIncident (cutoff : Z) (inc : Incident) : bool :=
  (StartedAt inc >=? cutoff) || bool_decide (ResolvedAt inc = None).

Definition without_Incidents (h : MonitorHistory) : MonitorHistory :=
  {| Uptime24h := Uptime24h h; Uptime7d := Uptime7d h; Uptime30d := Uptime30d h;
     LatencyHistory := LatencyHistory h; Incidents := [];
     LastCheckTime := LastCheckTime h; IsUp := IsUp h |}.

(** The incident document [Dump] builds: per target the kept incidents, in
    order; a target with nothing kept has no key. *)
Definition dumpIncidents (now : Z) (hm : HistoryManager) : IncidentsData :=
  let cutoff := Int64.sub now incidentRetentionSeconds in
  {| iVersion := CurrentHistoryVersion;
     iLastDumpTime := now;
     iMonitors :=
       filter (fun kv => (0 <? Z.of_nat (length (snd kv))) = true)
              (filter (fun inc => keepIncident cutoff inc = true) <$> incidents hm) |}.

Definition dumpHistory (now : Z) (hm : HistoryManager) : HistoryData :=
  {| Version := Version (data hm);
     LastDumpTime := now;
     Monitors := without_Incidents <$> Monitors (data hm) |}.

(** [Dump]: the two documents handed to [atomicWriteJSON], history first.
    The store itself is only read. *)
Definition Dump (now : Z) (hm : HistoryManager) : HistoryData * IncidentsData :=
  (dumpHistory now hm, dumpIncidents now hm).

(** [loadIncidents], after the JSON document has been decoded: the
    decoded map replaces the store's. *)
Definition loadIncidents (doc : IncidentsData) (hm : HistoryManager)
  : HistoryManager :=
  set_incidents (iMonitors doc) hm.

(** [GetMonitor], read as a value: the entry with the incident list merged
    in ([None] is the nil result). *)
Definition GetMonitor (id : string) (hm : HistoryManager) : option MonitorHistory :=
  match Monitors (data hm) !! id with
  | None => None
  | Some h =>
      Some {| Uptime24h := Uptime24h h; Uptime7d := Uptime7d h;
              Uptime30d := Uptime30d h;
              LatencyHistory := LatencyHistory h;
              Incidents := incidentsOf hm id;
              LastCheckTime := LastCheckTime h; IsUp := IsUp h |}
  end.

(** *** Reading the store *)

(** The latency sequence of a target; none when the target is unknown. *)
Definition latencyOf (hm : HistoryManager) (id : string) : list LatencyPoint :=
  match Monitors (data hm) !! id with
  | Some h => LatencyHistory h
  | None => []
  end.

(** The last [n] elements of a list (all of it when it is shorter). *)
Definition lastN {A} (n : Z) (l : list A) : list A :=
  drop (Z.to_nat (Z.of_nat (length l) - n)) l.

(** One call of [RecordProbe] with its arguments and clock readings. *)
Record ProbeCall := mkProbeCall {
  cID : string;
  cLatency : Z;
  cUp : bool;
  cPoint : Z;
  cCheck : Z;
  cCalc : Z;
}.

Definition pointOf (c : ProbeCall) : LatencyPoint :=
  {| Time := cPoint c; Latency := cLatency c; Up := cUp c |}.

(** A sequence of calls of [RecordProbe], in order. *)
Fixpoint RecordProbes (calls : list ProbeCall) (hm : HistoryManager)
  : option HistoryManager :=
  match calls with
  | [] => Some hm
  | c :: rest =>
      match RecordProbe (cPoint c) (cCheck c) (cCalc c) (cID c) (cLatency c) (cUp c) hm with
      | Some hm' => RecordProbes rest hm'
      | None => None
      end
  end.

(** The points a sequence of calls appends for one target, in order. *)
Definition pointsFor (id : string) (calls : list ProbeCall) : list LatencyPoint :=
  pointOf <$> filter (fun c => cID c = id) calls.

(** The points of a window: those not older than [now - windowSec]. *)
Definition inWindow (now windowSec : Z) (p : LatencyPoint) : bool :=
  Time p >=? Int64.sub now windowSec.

Definition windowTotal (now windowSec : Z) (points : list LatencyPoint) : Z :=
  Z.of_nat (length (filter (fun p => inWindow now windowSec p = true) points)).

Definition windowUp (now windowSec : Z) (points : list LatencyPoint) : Z :=
  Z.of_nat (length (filter (fun p => inWindow now windowSec p && Up p = true) points)).

(** [p / q] rounded to the nearest integer, halves up ([q > 0]). *)
Definition roundHalfUp (p q : Z) : Z := (2 * p + q) / (2 * q).

(** The figure of the specification for [k] of [n] points up: [100 * k / n]
    rounded to two decimals, as the double nearest to that decimal. *)
Definition uptimeRounded2 (k n : Z) : float :=
  (Int64.to_float (roundHalfUp (10000 * k) n) / 100)%float.

(** Three points within a day, one of them up. *)
Definition oneOfThree : list LatencyPoint :=
  [ {| Time := 1700000000; Latency := 12; Up := true |};
    {| Time := 1700000060; Latency := 0; Up := false |};
    {| Time := 1700000120; Latency := 0; Up := false |} ].

(** *** Start-up *)

Definition nonEmpty {A} (l : list A) : bool := 0 <? Z.of_nat (length l).

(** [migrateIncidentsFromHistory], on a manager whose entries are all
    there: the incidents embedded in a history entry move to the incident
    store and are cleared in the entry.  ([startup] has the manager with
    nil entries, on which the loop panics.) *)
Definition migrateIncidentsFromHistory (hm : HistoryManager) : HistoryManager :=
  {| data :=
       {| Version := Version (data hm);
          LastDumpTime := LastDumpTime (data hm);
          Monitors := (fun h => if nonEmpty (Incidents h) then without_Incidents h else h)
                        <$> Monitors (data hm) |};
     incidents :=
       (Incidents <$> filter (fun kv => nonEmpty (Incidents (snd kv)) = true)
                        (Monitors (data hm)))
       ∪ incidents hm;
     maxHistoryPts := maxHistoryPts hm |}.

(** [loadHistory], after decoding. *)
Definition loadHistory (doc : HistoryData) (hm : HistoryManager) : HistoryManager :=
  {| data := doc; incidents := incidents hm; maxHistoryPts := maxHistoryPts hm |}.

(** [NewHistoryManager] on a history document whose entries are all
    there, as [Dump] writes them; [None] is the error it returns when the
    history file exists and cannot be loaded.  An incident file that is
    missing or cannot be loaded makes it migrate.  [startup] has the
    function on the document as decoded, null entries included. *)
Definition NewHistoryManager (history : FileRead HistoryData)
    (incidentsFile : FileRead IncidentsData) (maxHistoryPoints : Z)
  : option HistoryManager :=
  let hm0 := {| data := {| Version := 0; LastDumpTime := 0; Monitors := ∅ |};
                incidents := ∅; maxHistoryPts := maxHistoryPoints |} in
  let loaded :=
    match history with
    | Missing =>
        Some {| data := {| Version := CurrentHistoryVersion; LastDumpTime := 0;
                           Monitors := ∅ |};
                incidents := ∅; maxHistoryPts := maxHistoryPoints |}
    | Unreadable _ => None
    | Decoded doc => Some (loadHistory doc hm0)
    end in
  match loaded with
  | None => None
  | Some hm =>
      match incidentsFile with
      | Decoded doc => Some (loadIncidents doc hm)
      | Missing | Unreadable _ => Some (migrateIncidentsFromHistory hm)
      end
  end.

(** The incidents of a list that [Dump] at [now] keeps, in order. *)
Definition keptAt (now : Z) (incs : list Incident) : list Incident :=
  filter (fun inc => keepIncident (Int64.sub now incidentRetentionSeconds) inc = true) incs.

(** A history as a view shows it, with the incident list [incs]. *)
Definition with_Incidents (incs : list Incident) (h : MonitorHistory) : MonitorHistory :=
  {| Uptime24h := Uptime24h h; Uptime7d := Uptime7d h; Uptime30d := Uptime30d h;
     LatencyHistory := LatencyHistory h; Incidents := incs;
     LastCheckTime := LastCheckTime h; IsUp := IsUp h |}.

(** *** Concrete inputs *)

Definition oldResolved : Incident :=
  {| Type_ := "down"; StartedAt := 1690000000; ResolvedAt := Some 1690000600;
     Duration := 600; Reason := "HTTP 503" |}.

Definition oldOpen : Incident :=
  {| Type_ := "down"; StartedAt := 1690001000; ResolvedAt := None;
     Duration := 0; Reason := "request failed" |}.

(** A store that keeps two points per target and holds two old incidents
    of target "a", the second of them open. *)
Definition exampleStore : HistoryManager :=
  {| data := {| Version := CurrentHistoryVersion; LastDumpTime := 0; Monitors := ∅ |};
     incidents := {[ "a" := [oldResolved; oldOpen] ]};
     maxHistoryPts := 2 |}.

Definition threeCalls : list ProbeCall :=
  [ {| cID := "a"; cLatency := 11; cUp := true;
       cPoint := 1700000000; cCheck := 1700000000; cCalc := 1700000000 |};
    {| cID := "a"; cLatency := 12; cUp := true;
       cPoint := 1700000060; cCheck := 1700000060; cCalc := 1700000060 |};
    {| cID := "a"; cLatency := 0; cUp := false;
       cPoint := 1700000120; cCheck := 1700000120; cCalc := 1700000120 |} ].

(** A store as [loadHistory] leaves it in a process started with
    max_history_points 2, from a history file written by one that kept
    more: target "b" holds three points. *)
Definition overfullStore : HistoryManager :=
  {| data :=
       {| Version := CurrentHistoryVersion; LastDumpTime := 1699999990;
          Monitors :=
            {[ "b" := {| Uptime24h := 100; Uptime7d := 100; Uptime30d := 100;
                         LatencyHistory :=
                           [ {| Time := 1699999800; Latency := 21; Up := true |};
                             {| Time := 1699999860; Latency := 22; Up := true |};
                             {| Time := 1699999920; Latency := 23; Up := true |} ];
                         Incidents := [];
                         LastCheckTime := 1699999920; IsUp := true |} ]} |};
     incidents := ∅;
     maxHistoryPts := 2 |}.

(** A store whose only incident, of target "a", is resolved. *)
Definition resolvedStore : HistoryManager :=
  {| data := {| Version := CurrentHistoryVersion; LastDumpTime := 0; Monitors := ∅ |};
     incidents := {[ "a" := [oldResolved] ]};
     maxHistoryPts := 2 |}.

(** A history document of the old layout: the incidents of target "a"
    are embedded in it. *)
Definition legacyDoc : HistoryData :=
  {| Version := CurrentHistoryVersion; LastDumpTime := 1700000000;
     Monitors :=
       {[ "a" := {| Uptime24h := 100; Uptime7d := 100; Uptime30d := 100;
                    LatencyHistory := [ {| Time := 1699999940; Latency := 12; Up := true |} ];
                    Incidents := [oldResolved; oldOpen];
                    LastCheckTime := 1699999940; IsUp := false |} ]} |}.

End storage.

(** ** Start-up of the store, with the entries as pointers

    In [storage] the history of a monitor is a value.  In the source
    [HistoryData.Monitors] maps to pointers, and decoding a JSON null
    leaves a nil one.  Here the decoded document and the manager built
    from it keep that case; [settled] gives the manager [storage] works
    on, when every entry is there. *)

Module startup.

(** [None] is a nil entry. *)
Record HistoryData := mkHistoryData {
  Version : Z;
  LastDumpTime : Z;
  Monitors : gmap string (option storage.MonitorHistory);
}.

Record HistoryManager := mkHistoryManager {
  data : HistoryData;
  incidents : gmap string (list storage.Incident);
  maxHistoryPts : Z;
}.

(** How a call ends: it returns a value, it returns an error, or it
    panics. *)
Inductive Outcome (A : Type) :=
| Returned (a : A)
| Failed (err : string)
| Panicked.

Arguments Returned {A} a.
Arguments Failed {A} err.
Arguments Panicked {A}.

Definition allThere (entries : gmap string (option storage.MonitorHistory)) : bool :=
  bool_decide (map_Forall (fun _ e => is_Some e) entries).

(** What the loop of [migrateIncidentsFromHistory] does with one entry that
    is there: the incidents to move, if any, and the entry it leaves. *)
Definition embedded (e : option storage.MonitorHistory) : option (list storage.Incident) :=
  match e with
  | Some h => if storage.nonEmpty (storage.Incidents h) then Some (storage.Incidents h) else None
  | None => None
  end.

Definition cleared (e : option storage.MonitorHistory) : option storage.MonitorHistory :=
  match e with
  | Some h => Some (if storage.nonEmpty (storage.Incidents h)
                    then storage.without_Incidents h else h)
  | None => None
  end.

(** [migrateIncidentsFromHistory].  The loop reads [h.Incidents] of every
    entry, in whatever order, so a nil entry makes it panic ([None]);
    otherwise the embedded incidents move to the incident store and are
    cleared in the entries. *)
Definition migrateIncidentsFromHistory (hm : HistoryManager) : option HistoryManager :=
  if allThere (Monitors (data hm))
  then Some {| data := {| Version := Version (data hm);
                          LastDumpTime := LastDumpTime (data hm);
                          Monitors := cleared <$> Monitors (data hm) |};
               incidents := omap embedded (Monitors (data hm)) ∪ incidents hm;
               maxHistoryPts := maxHistoryPts hm |}
  else None.

(** [loadHistory], after decoding; a document without a monitors object
    has the empty map. *)
Definition loadHistory (doc : HistoryData) (hm : HistoryManager) : HistoryManager :=
  {| data := doc; incidents := incidents hm; maxHistoryPts := maxHistoryPts hm |}.

(** [loadIncidents], after decoding. *)
Definition loadIncidents (doc : storage.IncidentsData) (hm : HistoryManager)
  : HistoryManager :=
  {| data := data hm; incidents := storage.iMonitors doc;
     maxHistoryPts := maxHistoryPts hm |}.

(** [NewHistoryManager].  A history file that exists and cannot be loaded
    is an error; an incident file that is missing or cannot be loaded
    makes it migrate. *)
Definition NewHistoryManager (history : FileRead HistoryData)
    (incidentsFile : FileRead storage.IncidentsData) (maxHistoryPoints : Z)
  : Outcome HistoryManager :=
  let hm0 := {| data := {| Version := 0; LastDumpTime := 0; Monitors := ∅ |};
                incidents := ∅; maxHistoryPts := maxHistoryPoints |} in
  let loaded :=
    match history with
    | Missing =>
        inr {| data := {| Version := storage.CurrentHistoryVersion; LastDumpTime := 0;
                          Monitors := ∅ |};
               incidents := ∅; maxHistoryPts := maxHistoryPoints |}
    | Unreadable err => inl ("load history: " +:+ err)
    | Decoded doc => inr (loadHistory doc hm0)
    end in
  match loaded with
  | inl err => Failed err
  | inr hm =>
      match incidentsFile with
      | Decoded doc => Returned (loadIncidents doc hm)
      | Missing | Unreadable _ =>
          match migrateIncidentsFromHistory hm with
          | Some hm' => Returned hm'
          | None => Panicked
          end
      end
  end.

(** The manager as [storage] reads it: defined when every entry is there. *)
Definition settled (hm : HistoryManager) : option storage.HistoryManager :=
  if allThere (Monitors (data hm))
  then Some {| storage.data :=
                 {| storage.Version := Version (data hm);
                    storage.LastDumpTime := LastDumpTime (data hm);
                    storage.Monitors := omap (fun e => e) (Monitors (data hm)) |};
               storage.incidents := incidents hm;
               storage.maxHistoryPts := maxHistoryPts hm |}
  else None.

(** A document in which every entry is there. *)
Definition entries (doc : storage.HistoryData) : HistoryData :=
  {| Version := storage.Version doc; LastDumpTime := storage.LastDumpTime doc;
     Monitors := Some <$> storage.Monitors doc |}.

Definition entriesOf (f : FileRead storage.HistoryData) : FileRead HistoryData :=
  match f with
  | Missing => Missing
  | Unreadable err => Unreadable err
  | Decoded doc => Decoded (entries doc)
  end.

(** *** Concrete inputs *)

(** The legacy document, and the same with a second monitor whose entry
    is null. *)
Definition legacyDoc : HistoryData := entries storage.legacyDoc.

Definition nullDoc : HistoryData :=
  {| Version := Version legacyDoc; LastDumpTime := LastDumpTime legacyDoc;
     Monitors := <["b" := None]> (Monitors legacyDoc) |}.

End startup.

(** ** The store with its slices in memory

    [storage] reads every slice as the list it shows.  Here the slices of
    the store are headers over backing arrays, as Go has them, for the
    operations whose results are shared with callers. *)

Module aliasing.

(** A slice header: the address of the backing array, the offset of the
    first element in it, and the length. *)
Record slice := mkSlice { arr : nat; off : nat; len : nat }.

(** The backing arrays, by address.  Address 0 stands for the zero-size
    array that [make([]T, 0)] and [[]T{}] point to. *)
Record Heap := mkHeap {
  latArrays : gmap nat (list storage.LatencyPoint);
  incArrays : gmap nat (list storage.Incident);
}.

Definition emptySlice : slice := {| arr := 0; off := 0; len := 0 |}.

(** The elements a slice shows, read now; [None] is the nil slice. *)
Definition readSlice {A} (arrays : gmap nat (list A)) (s : option slice) : list A :=
  match s with
  | None => []
  | Some s => take (len s) (drop (off s) (default [] (arrays !! arr s)))
  end.

(** [s[i] = x]; Go panics ([None]) when [i] is not below the length. *)
Definition writeSlice {A} (s : option slice) (i : nat) (x : A)
    (arrays : gmap nat (list A)) : option (gmap nat (list A)) :=
  match s with
  | Some s =>
      if decide (i < len s)%nat
      then Some (<[arr s := <[(off s + i)%nat := x]> (default [] (arrays !! arr s))]> arrays)
      else None
  | None => None
  end.

Record MonitorHistory := mkMonitorHistory {
  Uptime24h : float;
  Uptime7d : float;
  Uptime30d : float;
  LatencyHistory : option slice;
  Incidents : option slice;
  LastCheckTime : Z;
  IsUp : bool;
}.

Record HistoryManager := mkHistoryManager {
  version : Z;
  lastDumpTime : Z;
  monitors : gmap string MonitorHistory;
  incidents : gmap string slice;
  heap : Heap;
  maxHistoryPts : Z;
}.

(** [GetMonitor]: [cp := *h] copies the struct, slice headers included;
    the incident slice of the store is put in, or [[]Incident{}]. *)
Definition GetMonitor (id : string) (hm : HistoryManager) : option MonitorHistory :=
  match monitors hm !! id with
  | None => None
  | Some h =>
      Some {| Uptime24h := Uptime24h h; Uptime7d := Uptime7d h; Uptime30d := Uptime30d h;
              LatencyHistory := LatencyHistory h;
              Incidents := Some (default emptySlice (incidents hm !! id));
              LastCheckTime := LastCheckTime h; IsUp := IsUp h |}
  end.

(** [GetAll]: the same copy for every monitor. *)
Definition GetAll (hm : HistoryManager) : gmap string MonitorHistory :=
  map_imap (fun id _ => GetMonitor id hm) (monitors hm).

Definition newMonitorHistory : MonitorHistory :=
  {| Uptime24h := 0; Uptime7d := 0; Uptime30d := 0;
     LatencyHistory := Some emptySlice; Incidents := None;
     LastCheckTime := 0; IsUp := true |}.

Definition with_IsUp (b : bool) (h : MonitorHistory) : MonitorHistory :=
  {| Uptime24h := Uptime24h h; Uptime7d := Uptime7d h; Uptime30d := Uptime30d h;
     LatencyHistory := LatencyHistory h; Incidents := Incidents h;
     LastCheckTime := LastCheckTime h; IsUp := b |}.

(** The loop of [RecordUp] on the backing array: the element is
    overwritten in place. *)
Fixpoint resolveLatest (now : Z) (s : slice) (n : nat)
    (arrays : gmap nat (list storage.Incident)) : gmap nat (list storage.Incident) :=
  match n with
  | O => arrays
  | S i =>
      let a := default [] (arrays !! arr s) in
      match a !! (off s + i)%nat with
      | Some inc =>
          match storage.ResolvedAt inc with
          | None => <[arr s := <[(off s + i)%nat := storage.resolve now inc]> a]> arrays
          | Some _ => resolveLatest now s i arrays
          end
      | None => arrays
      end
  end.

(** [RecordUp], with [ensureMonitor] inlined: a missing entry is created,
    a missing incident slice becomes [make([]Incident, 0)]. *)
Definition RecordUp (now : Z) (monitorID : string) (hm : HistoryManager)
  : HistoryManager :=
  let h := default newMonitorHistory (monitors hm !! monitorID) in
  let incs := default emptySlice (incidents hm !! monitorID) in
  {| version := version hm;
     lastDumpTime := lastDumpTime hm;
     monitors := <[monitorID := with_IsUp true h]> (monitors hm);
     incidents := <[monitorID := incs]> (incidents hm);
     heap := {| latArrays := latArrays (heap hm);
                incArrays := resolveLatest now incs (len incs) (incArrays (heap hm)) |};
     maxHistoryPts := maxHistoryPts hm |}.

(** What a holder of [v] reads through it, given the memory as it is. *)
Definition view (mem : Heap) (v : MonitorHistory) : storage.MonitorHistory :=
  {| storage.Uptime24h := Uptime24h v; storage.Uptime7d := Uptime7d v;
     storage.Uptime30d := Uptime30d v;
     storage.LatencyHistory := readSlice (latArrays mem) (LatencyHistory v);
     storage.Incidents := readSlice (incArrays mem) (Incidents v);
     storage.LastCheckTime := LastCheckTime v; storage.IsUp := IsUp v |}.

(** The store as a value: every slice replaced by what it shows. *)
Definition abs (hm : HistoryManager) : storage.HistoryManager :=
  {| storage.data :=
       {| storage.Version := version hm;
          storage.LastDumpTime := lastDumpTime hm;
          storage.Monitors := view (heap hm) <$> monitors hm |};
     storage.incidents := (fun s => readSlice (incArrays (heap hm)) (Some s)) <$> incidents hm;
     storage.maxHistoryPts := maxHistoryPts hm |}.

(** A caller's [v.LatencyHistory[i] = p]. *)
Definition setLatency (v : MonitorHistory) (i : nat) (p : storage.LatencyPoint)
    (hm : HistoryManager) : option HistoryManager :=
  match writeSlice (LatencyHistory v) i p (latArrays (heap hm)) with
  | Some lat =>
      Some {| version := version hm; lastDumpTime := lastDumpTime hm;
              monitors := monitors hm; incidents := incidents hm;
              heap := {| latArrays := lat; incArrays := incArrays (heap hm) |};
              maxHistoryPts := maxHistoryPts hm |}
  | None => None
  end.

(** The slice lies within its array. *)
Definition inBounds {A} (arrays : gmap nat (list A)) (s : slice) : Prop :=
  (off s + len s <= length (default [] (arrays !! arr s)))%nat.

(** A store as [loadHistory] and [loadIncidents] leave it after decoding
    one point and one open incident of target "a". *)
Definition loaded : HistoryManager :=
  {| version := 1; lastDumpTime := 1700000000;
     monitors :=
       {[ "a" := {| Uptime24h := 0; Uptime7d := 0; Uptime30d := 0;
                    LatencyHistory := Some {| arr := 1; off := 0; len := 1 |};
                    Incidents := None;
                    LastCheckTime := 1700000000; IsUp := false |} ]};
     incidents := {[ "a" := {| arr := 2; off := 0; len := 1 |} ]};
     heap := {| latArrays :=
                  {[ 1%nat := [ {| storage.Time := 1700000000; storage.Latency := 0;
                                   storage.Up := false |} ] ]};
                incArrays := {[ 2%nat := [ storage.oldOpen ] ]} |};
     maxHistoryPts := 1440 |}.

(** The point a caller writes over the first one. *)
Definition overwritten : storage.LatencyPoint :=
  {| storage.Time := 0; storage.Latency := 999; storage.Up := true |}.

End aliasing.

(** ** The configuration with its storage in memory

    [config] reads a configuration as a value.  In the source a [Config]
    is a struct that holds two slices and a map, and [Manager.Get] returns
    the struct: the copy shares the backing arrays of [Monitors] and
    [Notifiers] and the map [ContactGroups] with the live configuration.
    The handlers write through such a copy before they call [Save], and
    [ApplyDefaults], which [Save] runs before [Validate], writes the map
    and the notifier array in place.  Here the headers and the memory they
    point into are separate. *)

Module sharing.

Import aliasing.

(** The backing arrays and the maps, by address. *)
Record Heap := mkHeap {
  monitorArrays : gmap nat (list config.Monitor);
  notifierArrays : gmap nat (list config.NotifierConfig);
  groupMaps : gmap nat (gmap string config.ContactGroup);
}.

(** A [Config] struct: the slices [Notifiers] and [Monitors] as headers
    ([None] is the nil slice), the map as a reference ([None] is the nil
    map).  [GroupOrder] is only ever replaced as a whole, and the slices
    inside a group or a monitor are only ever read or replaced: they are
    kept as the lists they show. *)
Record Config := mkConfig {
  Version : Z;
  System : config.SystemConfig;
  Auth : config.AuthConfig;
  ContactGroups : option nat;
  GroupOrder : option (list string);
  Notifiers : option slice;
  Monitors : option slice;
}.

Definition groupsAt (h : Heap) (r : option nat) : gmap string config.ContactGroup :=
  match r with
  | Some a => default ∅ (groupMaps h !! a)
  | None => ∅
  end.

(** What a holder of the struct [c] reads through it, given the memory as
    it is. *)
Definition view (h : Heap) (c : Config) : config.Config :=
  {| config.Version := Version c;
     config.System := System c;
     config.Auth := Auth c;
     config.ContactGroups := groupsAt h (ContactGroups c);
     config.GroupOrder := GroupOrder c;
     config.Notifiers := readSlice (notifierArrays h) (Notifiers c);
     config.Monitors := readSlice (monitorArrays h) (Monitors c) |}.

(** The manager: the live [Config] struct, the document last written, and
    per subscriber whether its channel holds a signal. *)
Record Manager := mkManager {
  cfg : Config;
  file : option config.Config;
  subs : list bool;
}.

(** The struct is well formed in the memory: its notifier slice lies
    within its backing array. *)
Definition wellFormed (h : Heap) (c : Config) : Prop :=
  match Notifiers c with
  | Some s => inBounds (notifierArrays h) s
  | None => True
  end.

(** The manager as a value: the live configuration as it reads now. *)
Definition viewManager (h : Heap) (m : Manager) : config.Manager :=
  {| config.cfg := view h (cfg m); config.file := file m; config.subs := subs m |}.

(** [Get] returns [m.cfg]: the struct is copied, the storage is not. *)
Definition Get (m : Manager) : Config := cfg m.

Definition with_Version (v : Z) (c : Config) : Config :=
  {| Version := v; System := System c; Auth := Auth c;
     ContactGroups := ContactGroups c; GroupOrder := GroupOrder c;
     Notifiers := Notifiers c; Monitors := Monitors c |}.

(** An address for a new array or map; address 0 is kept for the
    zero-size array of the empty slice. *)
Definition newAddress {A} (store : gmap nat A) : nat := fresh ({[0%nat]} ∪ dom store).

(** The capacity of a slice: what its backing array holds from its offset
    on; none at address 0. *)
Definition capacity {A} (arrays : gmap nat (list A)) (s : slice) : nat :=
  if decide (arr s = 0%nat) then 0%nat
  else (length (default [] (arrays !! arr s)) - off s)%nat.

Definition zeroNotifier : config.NotifierConfig :=
  {| config.nID := ""; config.nType := ""; config.Remark := ""; config.BotToken := "";
     config.ChatID := ""; config.URL := ""; config.Method := "" |}.

Definition with_nID (id : string) (n : config.NotifierConfig) : config.NotifierConfig :=
  {| config.nID := id; config.nType := config.nType n; config.Remark := config.Remark n;
     config.BotToken := config.BotToken n; config.ChatID := config.ChatID n;
     config.URL := config.URL n; config.Method := config.Method n |}.

Section Environment.

(** The environment of [config], and the growth policy of [append]: the
    slots a new backing array gets beyond those needed, given the old
    capacity and the length needed. *)
Variable detectTimezone : string.
Variable generateID : nat -> string.
Variable rangeOrder : nat -> gmap string config.ContactGroup
                      -> list (string * config.ContactGroup).
Variable urlScheme : string -> option string.
Variable showInt : Z -> string.
Variable quote : string -> string.
Variable spare : nat -> nat -> nat.

(** [append(s, xs...)] for a non-empty [xs]: the elements are written in
    place after the slice when the backing array has room for them;
    otherwise they go, after a copy of the slice, into a new array. *)
Definition append (s : slice) (xs : list config.NotifierConfig)
    (arrays : gmap nat (list config.NotifierConfig))
  : slice * gmap nat (list config.NotifierConfig) :=
  let a := default [] (arrays !! arr s) in
  let n := (len s + length xs)%nat in
  if decide (n <= capacity arrays s)%nat
  then ({| arr := arr s; off := off s; len := n |},
        <[arr s := take (off s + len s) a ++ xs ++ drop (off s + n) a]> arrays)
  else
    let p := newAddress arrays in
    ({| arr := p; off := 0; len := n |},
     <[p := readSlice arrays (Some s) ++ xs
            ++ replicate (spare (capacity arrays s) n) zeroNotifier]> arrays).

(** The body of the migration loop of [ApplyDefaults] for one group. *)
Definition migrateStep
    (acc : gmap string config.ContactGroup * slice * gmap nat (list config.NotifierConfig))
    (kv : string * config.ContactGroup)
  : gmap string config.ContactGroup * slice * gmap nat (list config.NotifierConfig) :=
  let '(gs, ns, arrays) := acc in
  let g := snd kv in
  if 0 <? Z.of_nat (length (config.gNotifiers g))
  then let '(ns', arrays') := append ns (config.gNotifiers g) arrays in
       (<[fst kv := {| config.gID := config.gID g; config.gName := config.gName g;
                       config.gNotifiers := [] |}]> gs,
        ns', arrays')
  else acc.

(** The loop that gives every notifier an identifier, on the backing
    array: [n] elements from index [i] on are still to visit, [k] calls of
    [generateID] were made. *)
Fixpoint ensureIDs (s : slice) (i n k : nat)
    (arrays : gmap nat (list config.NotifierConfig))
  : gmap nat (list config.NotifierConfig) :=
  match n with
  | O => arrays
  | S n' =>
      let a := default [] (arrays !! arr s) in
      match a !! (off s + i)%nat with
      | Some x =>
          if String.eqb (config.nID x) ""
          then ensureIDs s (S i) n' (S k)
                 (<[arr s := <[(off s + i)%nat := with_nID (generateID k) x]> a]> arrays)
          else ensureIDs s (S i) n' k arrays
      | None => arrays
      end
  end.

(** [ApplyDefaults], on a struct and the memory: the struct afterwards and
    the memory afterwards.  The map and the notifier array are written in
    place; the monitor array is not touched. *)
Definition ApplyDefaults (c : Config) (h : Heap) : Config * Heap :=
  let '(gref, maps0) :=
    match ContactGroups c with
    | Some a => (a, groupMaps h)
    | None => let a := newAddress (groupMaps h) in (a, <[a := ∅]> (groupMaps h))
    end in
  let groups0 := default ∅ (maps0 !! gref) in
  let '(groups1, ns1, arrays1) :=
    foldl migrateStep (groups0, default emptySlice (Notifiers c), notifierArrays h)
          (rangeOrder 0 groups0) in
  let groups2 := delete "_default" groups1 in
  let arrays2 := ensureIDs ns1 0 (len ns1) 0 arrays1 in
  ({| Version := Version c;
      System := config.defaultSystem detectTimezone (System c);
      Auth := config.defaultAuth detectTimezone (Auth c);
      ContactGroups := Some gref;
      GroupOrder := Some (config.reconcileOrder rangeOrder groups2 (GroupOrder c));
      Notifiers := Some ns1;
      Monitors := Some (default emptySlice (Monitors c)) |},
   {| monitorArrays := monitorArrays h;
      notifierArrays := arrays2;
      groupMaps := <[gref := groups2]> maps0 |}).

(** [Save]; [writeErr] is what [atomicWrite] returns once it is reached.
    The result is the returned error, the manager and the memory. *)
Definition Save (writeErr : option string) (c : Config) (m : Manager) (h : Heap)
  : option string * Manager * Heap :=
  let '(c, h) := ApplyDefaults (with_Version config.CurrentConfigVersion c) h in
  match config.Validate urlScheme showInt quote (view h c) with
  | Some err => (Some err, m, h)
  | None =>
      match writeErr with
      | Some e => (Some ("atomic write config: " +:+ e), m, h)
      | None =>
          (None,
           {| cfg := c; file := Some (view h c); subs := (fun _ => true) <$> subs m |},
           h)
      end
  end.

(** The form of the monitor page, parsed: a number field is [None] when
    it is empty or no number. *)
Record MonitorForm := mkMonitorForm {
  fName : string;
  fType : string;
  fTarget : string;
  fGroupID : string;
  fInterval : option Z;
  fTimeout : option Z;
  fMaxRetries : option Z;
  fRetryInterval : option Z;
  fReminderInterval : option Z;
  fIgnoreTLS : bool;
  fNotifierIDs : list string;
}.

(** [formInt]. *)
Definition formInt (v : option Z) (defaultVal : Z) : Z := default defaultVal v.

(** The assignments of [UpdateMonitor] to [cfg.Monitors[idx]]. *)
Definition applyForm (f : MonitorForm) (checkInterval : Z) (m : config.Monitor)
  : config.Monitor :=
  {| config.ID := config.ID m;
     config.Name := fName f;
     config.Type_ := fType f;
     config.Target := fTarget f;
     config.GroupID := fGroupID f;
     config.Interval := formInt (fInterval f) checkInterval;
     config.Timeout := formInt (fTimeout f) 5;
     config.MaxRetries := formInt (fMaxRetries f) 3;
     config.RetryInterval := formInt (fRetryInterval f) 0;
     config.ReminderInterval := formInt (fReminderInterval f) 0;
     config.IgnoreTLS := fIgnoreTLS f;
     config.Enabled := config.Enabled m;
     config.NotifierIDs := fNotifierIDs f |}.

(** The index of the first monitor with the identifier. *)
Fixpoint findMonitor (ms : list config.Monitor) (id : string) : option nat :=
  match ms with
  | [] => None
  | m :: rest =>
      if String.eqb (config.ID m) id then Some 0%nat
      else S <$> findMonitor rest id
  end.

Inductive Response :=
| NotFound
| SaveFailed (err : string)
| Redirected.

(** [UpdateMonitor], from the parsed form on: the monitor is looked up in
    the struct [Get] returned, its fields are assigned through that
    struct, and the struct is handed to [Save].  [None] is a panic. *)
Definition UpdateMonitor (id : string) (form : MonitorForm) (writeErr : option string)
    (m : Manager) (h : Heap) : option (Response * Manager * Heap) :=
  let c := Get m in
  let ms := readSlice (monitorArrays h) (Monitors c) in
  match findMonitor ms id with
  | None => Some (NotFound, m, h)
  | Some idx =>
      match ms !! idx with
      | Some old =>
          match writeSlice (Monitors c) idx
                  (applyForm form (config.CheckInterval (System c)) old)
                  (monitorArrays h) with
          | Some arrays =>
              let h1 := {| monitorArrays := arrays; notifierArrays := notifierArrays h;
                           groupMaps := groupMaps h |} in
              match Save writeErr c m h1 with
              | (Some err, m', h') => Some (SaveFailed err, m', h')
              | (None, m', h') => Some (Redirected, m', h')
              end
          | None => None
          end
      | None => None
      end
  end.

End Environment.

(** *** Concrete inputs *)

(** The memory of a manager whose live configuration is
    [config.fiveTenConfig]. *)
Definition liveHeap : Heap :=
  {| monitorArrays := {[ 1%nat := [config.fiveTen] ]};
     notifierArrays := {[ 1%nat := config.Notifiers config.fiveTenConfig ]};
     groupMaps := {[ 1%nat := ∅ ]} |}.

Definition liveManager : Manager :=
  {| cfg := {| Version := config.CurrentConfigVersion;
               System := config.System config.fiveTenConfig;
               Auth := config.Auth config.fiveTenConfig;
               ContactGroups := Some 1%nat;
               GroupOrder := Some [];
               Notifiers := Some {| arr := 1; off := 0; len := 1 |};
               Monitors := Some {| arr := 1; off := 0; len := 1 |} |};
     file := Some config.fiveTenConfig;
     subs := [false] |}.

(** The form of the monitor page with timeout 10 and interval 10. *)
Definition tenTenForm : MonitorForm :=
  {| fName := "site"; fType := "http"; fTarget := "https://example.org";
     fGroupID := ""; fInterval := Some 10; fTimeout := Some 10;
     fMaxRetries := Some 3; fRetryInterval := Some 4; fReminderInterval := Some 0;
     fIgnoreTLS := false; fNotifierIDs := ["n1"] |}.

(** A growth policy: no slot beyond those needed. *)
Definition noSpare (cap needed : nat) : nat := 0%nat.

(** A struct of the legacy layout, as decoded: the group "ops" still
    holds a notifier, which has no identifier, and the notifier array has
    room for one more element. *)
Definition legacyHeap : Heap :=
  {| monitorArrays := {[ 1%nat := [config.fiveTen] ]};
     notifierArrays :=
       {[ 1%nat := config.Notifiers config.fiveTenConfig ++ [zeroNotifier] ]};
     groupMaps :=
       {[ 1%nat :=
            {[ "ops" := {| config.gID := "ops"; config.gName := "Ops";
                           config.gNotifiers :=
                             [ {| config.nID := ""; config.nType := "telegram";
                                  config.Remark := ""; config.BotToken := "t";
                                  config.ChatID := "1"; config.URL := "";
                                  config.Method := "" |} ] |} ]} ]} |}.

Definition legacyStruct : Config :=
  {| Version := 0;
     System := config.System config.fiveTenConfig;
     Auth := config.Auth config.fiveTenConfig;
     ContactGroups := Some 1%nat;
     GroupOrder := None;
     Notifiers := Some {| arr := 1; off := 0; len := 1 |};
     Monitors := Some {| arr := 1; off := 0; len := 1 |} |}.

End sharing.

(** ** internal/web/middleware.go: what the views read from the store *)

Module web.




End web.

(** ** internal/notify/notifier.go *)

Module notify.

Record AlertEvent := mkAlertEvent {
  MonitorID : string;
  MonitorName : string;
  Type_ : string;
  Target : string;
  Reason : string;
  Timestamp : Z;
  Timezone : string;
}.

(** The channel implementations of [Notifier]. *)
Inductive Notifier :=
| TelegramNotifier (BotToken ChatID Remark : string)
| WebhookNotifier (URL Method Remark : string).

(** [BuildNotifier]; [None] is nil, for an unknown type. *)
Definition BuildNotifier (nc : config.NotifierConfig) : option Notifier :=
  if String.eqb (config.nType nc) "telegram"
  then Some (TelegramNotifier (config.BotToken nc) (config.ChatID nc) (config.Remark nc))
  else if String.eqb (config.nType nc) "webhook"
  then Some (WebhookNotifier (config.URL nc)
               (if String.eqb (config.Method nc) "" then "POST" else config.Method nc)
               (config.Remark nc))
  else None.

(** The [notifier_ids] of the first monitor with the event's identifier. *)
Fixpoint notifierIDsOf (ms : list config.Monitor) (monitorID : string) : list string :=
  match ms with
  | [] => []
  | m :: rest =>
      if String.eqb (config.ID m) monitorID then config.NotifierIDs m
      else notifierIDsOf rest monitorID
  end.

(** The lookup table of [Notify]: a later notifier with the same
    identifier replaces an earlier one. *)
Definition globalNotifiers (ns : list config.NotifierConfig)
  : gmap string config.NotifierConfig :=
  foldl (fun g nc => <[config.nID nc := nc]> g) ∅ ns.

Definition with_Timezone (tz : string) (e : AlertEvent) : AlertEvent :=
  {| MonitorID := MonitorID e; MonitorName := MonitorName e; Type_ := Type_ e;
     Target := Target e; Reason := Reason e; Timestamp := Timestamp e;
     Timezone := tz |}.

(** [Router.Notify] against the configuration [cfg]: the calls of [Send]
    it makes, in order, each with its notifier and the event handed over. *)
Definition Notify (cfg : config.Config) (event : AlertEvent)
  : list (Notifier * AlertEvent) :=
  let notifierIDs := notifierIDsOf (config.Monitors cfg) (MonitorID event) in
  if Z.of_nat (length notifierIDs) =? 0 then []
  else
    let table := globalNotifiers (config.Notifiers cfg) in
    let event := with_Timezone (config.Timezone (config.System cfg)) event in
    omap (fun id =>
            match table !! id with
            | Some nc =>
                match BuildNotifier nc with
                | Some n => Some (n, event)
                | None => None
                end
            | None => None
            end)
         notifierIDs.

(** *** Concrete inputs *)

(** An alert for a target that no configuration lists. *)
Definition strayEvent : AlertEvent :=
  {| MonitorID := "gone"; MonitorName := "Gone"; Type_ := "up";
     Target := "https://gone.example"; Reason := ""; Timestamp := 1700000000;
     Timezone := "" |}.

End notify.

(** ** internal/monitor *)

Module monitor.

(** *** The probe factory *)

(** [Latency] is a [time.Duration]: nanoseconds. *)
Record ProbeResult := mkProbeResult {
  Up : bool;
  Latency : Z;
  Error : string;
}.

(** The implementations of the interface [Prober]. *)
Inductive Prober :=
| HTTPProber (IgnoreTLS : bool)
| TCPProber
| ICMPProber.

Record tlsConfig := mkTlsConfig { InsecureSkipVerify : bool }.

(** The [TLSClientConfig] of the transport that [HTTPProber.Probe] builds
    for its request; the other probers build none. *)
Definition probeTLSConfig (p : Prober) : option tlsConfig :=
  match p with
  | HTTPProber ignoreTLS => Some {| InsecureSkipVerify := ignoreTLS |}
  | TCPProber | ICMPProber => None
  end.

(** [NewProber]; the [default] case builds [&HTTPProber{}], whose
    [IgnoreTLS] is the zero value. *)
Definition NewProber (monitorType : string) (ignoreTLS : bool) : Prober :=
  if String.eqb monitorType "http" then HTTPProber ignoreTLS
  else if String.eqb monitorType "tcp" then TCPProber
  else if String.eqb monitorType "ping" then ICMPProber
  else HTTPProber false.

(** *** The analyzer *)

Record monitorState := mkState {
  isUp : bool;
  failCount : Z;
  reminderCount : Z;
}.

Record AnalyzeResult := mkAnalyzeResult { IsFailing : bool }.

(** What leaves the analyzer: the documents of a [Dump] (whether the
    files get written is the file system's matter, and [Process] only logs
    a failure) and the events handed to the notification router. *)
Inductive Effect :=
| DumpFiles (h : storage.HistoryData) (i : storage.IncidentsData)
| Notify (e : notify.AlertEvent).

(** The analyzer with what it holds: the per-target states, the history
    manager, the trace of its effects (oldest first), and the clock:
    [clock n] is the result of the [n]-th call of [time.Now().Unix()]. *)
Record World := mkWorld {
  clock : nat -> Z;
  ticks : nat;
  histMgr : storage.HistoryManager;
  states : gmap string monitorState;
  trace : list Effect;
}.

(** Computations over the world; [None] is a run-time panic. *)
Definition M (A : Type) : Type := World -> option (A * World).

Definition ret {A} (a : A) : M A := fun w => Some (a, w).

Definition bind {A B} (m : M A) (k : A -> M B) : M B :=
  fun w => match m w with
           | Some (a, w') => k a w'
           | None => None
           end.

Notation "x <- m ;; k" := (bind m (fun x => k))
  (at level 100, m at level 99, k at level 100, right associativity).
Notation "m ;;; k" := (bind m (fun _ => k))
  (at level 100, k at level 100, right associativity).

Definition now : M Z :=
  fun w => Some (clock w (ticks w),
                 {| clock := clock w; ticks := S (ticks w); histMgr := histMgr w;
                    states := states w; trace := trace w |}).

Definition emit (e : Effect) : M unit :=
  fun w => Some (tt, {| clock := clock w; ticks := ticks w; histMgr := histMgr w;
                        states := states w; trace := trace w ++ [e] |}).

Definition set_histMgr (hm : storage.HistoryManager) (w : World) : World :=
  {| clock := clock w; ticks := ticks w; histMgr := hm;
     states := states w; trace := trace w |}.

Definition set_states (st : gmap string monitorState) (w : World) : World :=
  {| clock := clock w; ticks := ticks w; histMgr := histMgr w;
     states := st; trace := trace w |}.

Definition setState (id : string) (s : monitorState) : M unit :=
  fun w => Some (tt, set_states (<[id := s]> (states w)) w).

(** The calls into the history manager, each with its clock readings. *)
Definition histRecordProbe (id : string) (latencyMs : Z) (up : bool) : M unit :=
  tPoint <- now ;; tCheck <- now ;; tCalc <- now ;;
  fun w => match storage.RecordProbe tPoint tCheck tCalc id latencyMs up (histMgr w) with
           | Some hm => Some (tt, set_histMgr hm w)
           | None => None
           end.

Definition histRecordDown (id reason : string) : M unit :=
  t <- now ;; fun w => Some (tt, set_histMgr (storage.RecordDown t id reason (histMgr w)) w).

Definition histRecordUp (id : string) : M unit :=
  t <- now ;; fun w => Some (tt, set_histMgr (storage.RecordUp t id (histMgr w)) w).

Definition histDump : M unit :=
  t <- now ;;
  fun w => let '(h, i) := storage.Dump t (histMgr w) in emit (DumpFiles h i) w.

Definition freshState : monitorState :=
  {| isUp := true; failCount := 0; reminderCount := 0 |}.

(** [ensureState]. *)
Definition ensureState (id : string) : M monitorState :=
  fun w => match states w !! id with
           | Some s => Some (s, w)
           | None => Some (freshState, set_states (<[id := freshState]> (states w)) w)
           end.

Definition alert (id name kind target reason : string) : M unit :=
  ts <- now ;;
  emit (Notify {| notify.MonitorID := id; notify.MonitorName := name;
                  notify.Type_ := kind; notify.Target := target;
                  notify.Reason := reason; notify.Timestamp := ts;
                  notify.Timezone := "" |}).

(** [Analyzer.Process].  [state] is a pointer into the map: every change
    of it is written back with [setState]. *)
Definition Process (monitorID monitorName target : string)
    (maxRetries reminderInterval : Z) (result : ProbeResult) : M AnalyzeResult :=
  state <- ensureState monitorID ;;
  let latencyMs := Z.quot (Latency result) 1000000 in
  histRecordProbe monitorID latencyMs (Up result) ;;;
  if Up result then
    let prevDown := negb (isUp state) in
    setState monitorID {| isUp := isUp state; failCount := 0; reminderCount := 0 |} ;;;
    (if prevDown then
       setState monitorID {| isUp := true; failCount := 0; reminderCount := 0 |} ;;;
       histRecordUp monitorID ;;;
       histDump ;;;
       alert monitorID monitorName "up" target ""
     else ret tt) ;;;
    ret {| IsFailing := false |}
  else
    let failed := Int64.add (failCount state) 1 in
    setState monitorID {| isUp := isUp state; failCount := failed;
                          reminderCount := reminderCount state |} ;;;
    (if isUp state && (failed >=? maxRetries) then
       setState monitorID {| isUp := false; failCount := failed; reminderCount := 0 |} ;;;
       histRecordDown monitorID (Error result) ;;;
       histDump ;;;
       alert monitorID monitorName "down" target (Error result)
     else if negb (isUp state) && (reminderInterval >? 0) then
       let reminded := Int64.add (reminderCount state) 1 in
       setState monitorID {| isUp := isUp state; failCount := failed;
                             reminderCount := reminded |} ;;;
       (if reminded >=? reminderInterval then
          setState monitorID {| isUp := isUp state; failCount := failed;
                                reminderCount := 0 |} ;;;
          alert monitorID monitorName "down" target (Error result)
        else ret tt)
     else ret tt) ;;;
    ret {| IsFailing := true |}.

(** [RemoveState]. *)
Definition RemoveState (monitorID : string) (w : World) : World :=
  set_states (delete monitorID (states w)) w.

(** The probe loop of one target, as the analyzer sees it: the results of
    its successive probes, processed in order with fixed parameters. *)
Fixpoint ProcessAll (monitorID monitorName target : string)
    (maxRetries reminderInterval : Z) (results : list ProbeResult) : M unit :=
  match results with
  | [] => ret tt
  | r :: rest =>
      Process monitorID monitorName target maxRetries reminderInterval r ;;;
      ProcessAll monitorID monitorName target maxRetries reminderInterval rest
  end.

(** *** The scheduler *)

(** The scheduler: the configuration each live probe loop was started with,
    and the analyzer it hands the results to. *)
Record Scheduler := mkScheduler {
  running : gmap string config.Monitor;
  analyzer : World;
}.

Definition with_analyzer (w : World) (s : Scheduler) : Scheduler :=
  {| running := running s; analyzer := w |}.

(** The map [desired] of [syncMonitors]: the enabled monitors by
    identifier, a later one replacing an earlier one. *)
Definition desiredOf (cfg : config.Config) : gmap string config.Monitor :=
  foldl (fun d m => if config.IsEnabled m then <[config.ID m := m]> d else d)
        ∅ (config.Monitors cfg).

(** The body of the first loop of [syncMonitors]: a loop that is no longer
    desired is cancelled and its analyzer state removed; one whose
    configuration changed ([reflect.DeepEqual]) is only cancelled. *)
Definition stopStep (desired : gmap string config.Monitor)
    (id : string) (rm : config.Monitor) (s : Scheduler) : Scheduler :=
  match desired !! id with
  | None => {| running := delete id (running s);
               analyzer := RemoveState id (analyzer s) |}
  | Some dm =>
      if decide (rm = dm) then s
      else {| running := delete id (running s); analyzer := analyzer s |}
  end.

(** [startMonitor], as far as the shared state goes: the loop is
    registered; its probes arrive later, one [runProbe] each. *)
Definition startMonitor (m : config.Monitor) (s : Scheduler) : Scheduler :=
  {| running := <[config.ID m := m]> (running s); analyzer := analyzer s |}.

Definition startStep (id : string) (m : config.Monitor) (s : Scheduler) : Scheduler :=
  match running s !! id with
  | Some _ => s
  | None => startMonitor m s
  end.

(** [syncMonitors]. *)
Definition syncMonitors (cfg : config.Config) (s : Scheduler) : Scheduler :=
  let desired := desiredOf cfg in
  let stopped := map_fold (stopStep desired) s (running s) in
  map_fold startStep stopped desired.

(** The intervals [startMonitor] derives, in seconds. *)
Definition normalInterval (m : config.Monitor) (defaultInterval : Z) : Z :=
  if config.Interval m <=? 0 then defaultInterval else config.Interval m.

Definition retryInterval (m : config.Monitor) (defaultInterval : Z) : Z :=
  if config.RetryInterval m <=? 0 then normalInterval m defaultInterval
  else config.RetryInterval m.

(** [currentInterval] after a probe: the number of seconds, an [int]. *)
Definition nextInterval (ar : AnalyzeResult) (normal retry : Z) : Z :=
  if IsFailing ar && (retry <? normal) then retry else normal.

(** [time.Duration(n) * time.Second]: [n] seconds as a [time.Duration],
    an [int64] of nanoseconds; the multiplication wraps around. *)
Definition seconds (n : Z) : Z := Int64.wrap (n * 1000000000).

(** The duration the probe loop arms its timer with after a probe. *)
Definition waitAfter (ar : AnalyzeResult) (normal retry : Z) : Z :=
  seconds (nextInterval ar normal retry).

(** The time-out [runProbe] gives the context of a probe. *)
Definition probeTimeout (m : config.Monitor) : Z := seconds (config.Timeout m).

(** The largest number of whole seconds a [time.Duration] holds. *)
Definition maxSeconds : Z := 9223372036.

(** [runProbe], from the result of the probe on. *)
Definition runProbe (m : config.Monitor) (result : ProbeResult) : M AnalyzeResult :=
  Process (config.ID m) (config.Name m) (config.Target m)
          (config.MaxRetries m) (config.ReminderInterval m) result.

(** The operations that interleave on the shared state: a reconciliation
    against a new configuration, a result handed over by the probe loop
    started for [m] (possibly one that was in flight when the loop was
    cancelled), the deletion of a target's history by the web handler, and
    a periodic dump. *)
Inductive Op :=
| OpSync (cfg : config.Config)
| OpProbe (m : config.Monitor) (result : ProbeResult)
| OpRemoveMonitor (id : string)
| OpDump.

Definition exec (op : Op) (s : Scheduler) : option Scheduler :=
  match op with
  | OpSync cfg => Some (syncMonitors cfg s)
  | OpProbe m result =>
      match runProbe m result (analyzer s) with
      | Some (_, w) => Some (with_analyzer w s)
      | None => None
      end
  | OpRemoveMonitor id =>
      Some (with_analyzer
              (set_histMgr (storage.RemoveMonitor id (histMgr (analyzer s))) (analyzer s)) s)
  | OpDump =>
      match histDump (analyzer s) with
      | Some (_, w) => Some (with_analyzer w s)
      | None => None
      end
  end.

Fixpoint execAll (ops : list Op) (s : Scheduler) : option Scheduler :=
  match ops with
  | [] => Some s
  | op :: rest =>
      match exec op s with
      | Some s' => execAll rest s'
      | None => None
      end
  end.

(** *** Reading a world *)

(** The state [ensureState] would hand out. *)
Definition stateOf (w : World) (id : string) : monitorState :=
  default freshState (states w !! id).

Definition alertsOf (effs : list Effect) : list notify.AlertEvent :=
  omap (fun e => match e with Notify a => Some a | DumpFiles _ _ => None end) effs.

(** The alert events emitted on the way from [w] to [w']. *)
Definition emitted (w w' : World) : list notify.AlertEvent :=
  alertsOf (drop (length (trace w)) (trace w')).

Definition isOpen (inc : storage.Incident) : bool :=
  bool_decide (storage.ResolvedAt inc = None).

Definition openCount (w : World) (id : string) : nat :=
  length (filter (fun inc => isOpen inc = true) (storage.incidentsOf (histMgr w) id)).

(** A reconciliation is guarded when every loop it stops for good belongs
    to a target without an open incident. *)
Definition guardedSync (cfg : config.Config) (s : Scheduler) : Prop :=
  forall id, is_Some (running s !! id) -> desiredOf cfg !! id = None ->
             openCount (analyzer s) id = 0%nat.

Definition guarded (op : Op) (s : Scheduler) : Prop :=
  match op with
  | OpSync cfg => guardedSync cfg s
  | _ => True
  end.

Definition isSync (op : Op) : bool :=
  match op with
  | OpSync _ => true
  | _ => false
  end.

(** The runs in which every operation is guarded where it is executed. *)
Fixpoint guardedRun (ops : list Op) (s : Scheduler) : Prop :=
  match ops with
  | [] => True
  | op :: rest =>
      guarded op s /\
      match exec op s with
      | Some s' => guardedRun rest s'
      | None => True
      end
  end.

(** Every reminder counter is a non-negative [int] below the largest. *)
Definition countsInRange (w : World) : Prop :=
  forall id, 0 <= reminderCount (stateOf w id) < Int64.max64.

(** The cadence an operation hands to [Process] is an [int]. *)
Definition intCadence (op : Op) : Prop :=
  match op with
  | OpProbe m _ => config.ReminderInterval m <= Int64.max64
  | _ => True
  end.

(** The number of alerts each operation of a run emits, in order. *)
Fixpoint alertCounts (ops : list Op) (s : Scheduler) : option (list nat) :=
  match ops with
  | [] => Some []
  | op :: rest =>
      match exec op s with
      | Some s' =>
          match alertCounts rest s' with
          | Some l => Some (length (emitted (analyzer s) (analyzer s')) :: l)
          | None => None
          end
      | None => None
      end
  end.

(** Analyzer state and incident list agree: no open incident while the
    target counts as up, at most one while it is down. *)
Definition consistent (w : World) : Prop :=
  forall id, (openCount w id <= if isUp (stateOf w id) then 0 else 1)%nat.

Definition downIncident (t : Z) (reason : string) : storage.Incident :=
  {| storage.Type_ := "down"; storage.StartedAt := t; storage.ResolvedAt := None;
     storage.Duration := 0; storage.Reason := reason |}.

Definition alertEvent (id name kind target reason : string) (ts : Z)
  : notify.AlertEvent :=
  {| notify.MonitorID := id; notify.MonitorName := name;
     notify.Type_ := kind; notify.Target := target;
     notify.Reason := reason; notify.Timestamp := ts;
     notify.Timezone := "" |}.

(** What a call of [Process] for [id] leaves alone. *)
Definition frame (id : string) (w w' : World) : Prop :=
  clock w' = clock w
  /\ storage.maxHistoryPts (histMgr w') = storage.maxHistoryPts (histMgr w)
  /\ forall id', id' <> id ->
       states w' !! id' = states w !! id'
       /\ storage.incidentsOf (histMgr w') id' = storage.incidentsOf (histMgr w) id'.

Definition resolved (inc : storage.Incident) : Prop :=
  storage.ResolvedAt inc <> None.

(** The world of a first start: nothing on disk, nothing probed yet. *)
Definition emptyHistory (maxPts : Z) : storage.HistoryManager :=
  {| storage.data := {| storage.Version := storage.CurrentHistoryVersion;
                        storage.LastDumpTime := 0;
                        storage.Monitors := ∅ |};
     storage.incidents := ∅;
     storage.maxHistoryPts := maxPts |}.

Definition initWorld (clk : nat -> Z) (maxPts : Z) : World :=
  {| clock := clk; ticks := 0; histMgr := emptyHistory maxPts;
     states := ∅; trace := [] |}.

Definition initScheduler (clk : nat -> Z) (maxPts : Z) : Scheduler :=
  {| running := ∅; analyzer := initWorld clk maxPts |}.

Definition openIn (incs : list storage.Incident) : nat :=
  length (filter (fun inc => isOpen inc = true) incs).

(** *** Concrete inputs *)

Definition exampleMonitor (enabled : option bool) : config.Monitor :=
  {| config.ID := "a"; config.Name := "A"; config.Type_ := "http";
     config.Target := "http://a.example"; config.GroupID := "";
     config.Interval := 60; config.Timeout := 10; config.MaxRetries := 1;
     config.RetryInterval := 0; config.ReminderInterval := 0;
     config.IgnoreTLS := false; config.Enabled := enabled;
     config.NotifierIDs := [] |}.

Definition exampleConfig (ms : list config.Monitor) : config.Config :=
  {| config.Version := 1;
     config.System := {| config.BindAddress := ":8080"; config.CheckInterval := 60;
                         config.MaxHistoryPoints := 1440; config.DumpInterval := 300;
                         config.SessionTTL := 86400; config.LogLevel := "info";
                         config.MaxMonitors := 500; config.Timezone := "UTC" |};
     config.Auth := {| config.Username := "admin"; config.PasswordHash := "x";
                       config.MaxLoginAttempts := 5; config.LockoutDuration := 900;
                       config.SSOEnabled := false |};
     config.ContactGroups := ∅; config.GroupOrder := None; config.Notifiers := [];
     config.Monitors := ms |}.

Definition failedProbe : ProbeResult :=
  {| Up := false; Latency := 5000000; Error := "request failed" |}.

Definition exampleClock (n : nat) : Z := 1700000000 + Z.of_nat n.

(** Pause and resume of a target that is down. *)
Definition pauseResume : list Op :=
  [ OpSync (exampleConfig [exampleMonitor None]);
    OpProbe (exampleMonitor None) failedProbe;
    OpSync (exampleConfig [exampleMonitor (Some false)]);
    OpSync (exampleConfig [exampleMonitor None]);
    OpProbe (exampleMonitor None) failedProbe ].

(** A target that is down, with its incident open. *)
Definition downWorld : World :=
  {| clock := exampleClock; ticks := 0;
     histMgr :=
       {| storage.data := {| storage.Version := storage.CurrentHistoryVersion;
                             storage.LastDumpTime := 0;
                             storage.Monitors := ∅ |};
          storage.incidents := {[ "a" := [downIncident 1699990000 "request failed"] ]};
          storage.maxHistoryPts := 1440 |};
     states := {[ "a" := {| isUp := false; failCount := 3; reminderCount := 0 |} ]};
     trace := [] |}.

Definition okProbe : ProbeResult :=
  {| Up := true; Latency := 7000000; Error := "" |}.

(** The example monitor with reminder cadence [R]; it goes down on the
    first failure. *)
Definition remindEvery (R : Z) : config.Monitor :=
  {| config.ID := "a"; config.Name := "A"; config.Type_ := "http";
     config.Target := "http://a.example"; config.GroupID := "";
     config.Interval := 60; config.Timeout := 10; config.MaxRetries := 1;
     config.RetryInterval := 0; config.ReminderInterval := R;
     config.IgnoreTLS := false; config.Enabled := None;
     config.NotifierIDs := [] |}.

(** The cadence is lowered while the target is down: the target goes
    down, fails seven more times under cadence 10, then the monitor is
    saved with cadence 3. *)
Definition cadenceEdit : list Op :=
  [ OpSync (exampleConfig [remindEvery 10]) ]
  ++ replicate 8 (OpProbe (remindEvery 10) failedProbe)
  ++ [ OpSync (exampleConfig [remindEvery 3]) ].

(** A target that is down with seven failed probes counted since the
    last alert. *)
Definition lateWorld : World :=
  {| clock := exampleClock; ticks := 0;
     histMgr :=
       {| storage.data := {| storage.Version := storage.CurrentHistoryVersion;
                             storage.LastDumpTime := 0;
                             storage.Monitors := ∅ |};
          storage.incidents := {[ "a" := [downIncident 1699990000 "request failed"] ]};
          storage.maxHistoryPts := 1440 |};
     states := {[ "a" := {| isUp := false; failCount := 8; reminderCount := 7 |} ]};
     trace := [] |}.

(** A target that is down although the store holds nothing of it: its
    history was removed while it was down. *)
Definition orphanWorld : World :=
  {| clock := exampleClock; ticks := 0; histMgr := emptyHistory 1440;
     states := {[ "a" := {| isUp := false; failCount := 3; reminderCount := 0 |} ]};
     trace := [] |}.

End monitor.

(** * Properties *)

(** ** The configuration *)

Module config_facts.
Import config.

Section Facts.

Variable detectTimezone : string.
Variable generateID : nat -> string.
Variable rangeOrder : nat -> gmap string ContactGroup -> list (string * ContactGroup).
Variable urlScheme : string -> option string.
Variable showInt : Z -> string.
Variable quote : string -> string.

Local Abbreviation ApplyDefaults := (ApplyDefaults detectTimezone generateID rangeOrder).
Local Abbreviation validationErrors := (validationErrors urlScheme showInt quote).
Local Abbreviation monitorsErrors := (monitorsErrors urlScheme showInt quote).
Local Abbreviation monitorErrors := (monitorErrors urlScheme showInt quote).
Local Abbreviation Validate := (Validate urlScheme showInt quote).
Local Abbreviation Save := (Save detectTimezone generateID rangeOrder urlScheme showInt quote).

Lemma ApplyDefaults_Monitors c : Monitors (ApplyDefaults c) = Monitors c.
Proof.
  unfold config.ApplyDefaults. destruct (migrateNotifiers _ _ _); reflexivity.
Qed.

Lemma ApplyDefaults_CheckInterval c :
  CheckInterval (System (ApplyDefaults c)) =
  if CheckInterval (System c) <=? 0 then 60 else CheckInterval (System c).
Proof.
  unfold config.ApplyDefaults. destruct (migrateNotifiers _ _ _); reflexivity.
Qed.

(** The errors of the monitor of index [i] are among those of the list. *)
Lemma monitorsErrors_lookup c ms : forall seen k i mon,
  ms !! i = Some mon ->
  exists seen', forall e, e ∈ monitorErrors c seen' (k + i) mon ->
                          e ∈ monitorsErrors c seen k ms.
Proof.
  induction ms as [| m ms IH]; intros seen k i mon Hl; [discriminate Hl |].
  destruct i as [| i]; simpl in Hl.
  - injection Hl as ->. exists seen. intros e He. simpl.
    rewrite Nat.add_0_r in He. apply elem_of_app. left. exact He.
  - destruct (IH ({[ID m]} ∪ seen) (S k) i mon Hl) as (seen' & Hin).
    exists seen'. intros e He. simpl. apply elem_of_app. right. apply Hin.
    replace (S k + i)%nat with (k + S i)%nat by lia. exact He.
Qed.

Lemma timeoutErrors_in_monitorErrors c seen i mon e :
  e ∈ timeoutErrors showInt c ("monitors[" +:+ showInt (Z.of_nat i) +:+ "]") mon ->
  e ∈ monitorErrors c seen i mon.
Proof.
  intros He. unfold config.monitorErrors.
  repeat (apply elem_of_app; first [left; exact He | right]).
Qed.

End Facts.

End config_facts.

(** ** The history store *)

Module storage_facts.
Import storage.

Lemma trim_ok maxPts pts :
  0 <= maxPts ->
  trim maxPts pts = Some (drop (Z.to_nat (Z.of_nat (length pts) - maxPts)) pts).
Proof.
  intros Hmax. unfold trim, sliceFrom.
  destruct (Z.gtb_spec (Z.of_nat (length pts)) maxPts) as [Hgt | Hle].
  - replace (0 <=? _) with true by (symmetry; apply Z.leb_le; lia).
    replace (_ <=? _) with true by (symmetry; apply Z.leb_le; lia).
    reflexivity.
  - replace (Z.to_nat _) with 0%nat by lia. reflexivity.
Qed.

Lemma incidentsOf_ensureMonitor id id' hm :
  incidentsOf (snd (ensureMonitor id hm)) id' = incidentsOf hm id'.
Proof.
  unfold ensureMonitor, incidentsOf.
  destruct (Monitors (data hm) !! id); simpl;
    destruct (incidents hm !! id) eqn:E; simpl; try reflexivity;
    (destruct (decide (id = id')) as [-> | Hne];
     [ rewrite lookup_insert_eq, E; reflexivity
     | rewrite lookup_insert_ne by done; reflexivity ]).
Qed.

Lemma maxHistoryPts_ensureMonitor id hm :
  maxHistoryPts (snd (ensureMonitor id hm)) = maxHistoryPts hm.
Proof.
  unfold ensureMonitor.
  destruct (Monitors (data hm) !! id); simpl;
    destruct (incidents hm !! id); reflexivity.
Qed.

Lemma RecordProbe_ok t1 t2 t3 id lat up hm :
  0 <= maxHistoryPts hm ->
  exists hm', RecordProbe t1 t2 t3 id lat up hm = Some hm'
    /\ maxHistoryPts hm' = maxHistoryPts hm
    /\ forall id', incidentsOf hm' id' = incidentsOf hm id'.
Proof.
  intros Hmax. unfold RecordProbe.
  pose proof (fun id' => incidentsOf_ensureMonitor id id' hm) as Hinc.
  pose proof (maxHistoryPts_ensureMonitor id hm) as Hm.
  destruct (ensureMonitor id hm) as [h hm1]. simpl in *.
  rewrite trim_ok by lia.
  eexists. split; [reflexivity |]. split; [exact Hm |].
  intros id'. rewrite <- (Hinc id'). reflexivity.
Qed.


Lemma RecordDown_incidents now id reason hm id' :
  incidentsOf (RecordDown now id reason hm) id' =
  if decide (id = id')
  then incidentsOf hm id ++
         [ {| Type_ := "down"; StartedAt := now; ResolvedAt := None;
              Duration := 0; Reason := reason |} ]
  else incidentsOf hm id'.
Proof.
  unfold RecordDown.
  pose proof (fun id' => incidentsOf_ensureMonitor id id' hm) as Hinc.
  destruct (ensureMonitor id hm) as [h hm1]. simpl in *.
  unfold incidentsOf in *. simpl.
  destruct (decide (id = id')) as [<- | Hne].
  - rewrite lookup_insert_eq. simpl. rewrite <- (Hinc id). reflexivity.
  - rewrite lookup_insert_ne by done. apply Hinc.
Qed.

Lemma RecordUp_incidents now id hm id' :
  incidentsOf (RecordUp now id hm) id' =
  if decide (id = id')
  then resolveLatest now (incidentsOf hm id) (length (incidentsOf hm id))
  else incidentsOf hm id'.
Proof.
  unfold RecordUp.
  pose proof (fun id' => incidentsOf_ensureMonitor id id' hm) as Hinc.
  destruct (ensureMonitor id hm) as [h hm1]. simpl in *.
  unfold incidentsOf in *. simpl.
  destruct (decide (id = id')) as [<- | Hne].
  - rewrite lookup_insert_eq. simpl. rewrite <- (Hinc id). reflexivity.
  - rewrite lookup_insert_ne by done. apply Hinc.
Qed.

Lemma maxHistoryPts_RecordDown now id reason hm :
  maxHistoryPts (RecordDown now id reason hm) = maxHistoryPts hm.
Proof.
  unfold RecordDown. pose proof (maxHistoryPts_ensureMonitor id hm) as Hm.
  destruct (ensureMonitor id hm). exact Hm.
Qed.

Lemma maxHistoryPts_RecordUp now id hm :
  maxHistoryPts (RecordUp now id hm) = maxHistoryPts hm.
Proof.
  unfold RecordUp. pose proof (maxHistoryPts_ensureMonitor id hm) as Hm.
  destruct (ensureMonitor id hm). exact Hm.
Qed.

Lemma countStep_fold cutoff points : forall total up,
  foldl (countStep cutoff) (total, up) points =
  (total + Z.of_nat (length (filter (fun p => (Time p >=? cutoff) = true) points)),
   up + Z.of_nat (length (filter (fun p => (Time p >=? cutoff) && Up p = true) points))).
Proof.
  induction points as [| p points IH]; intros total up; simpl.
  - f_equal; lia.
  - destruct (Time p >=? cutoff) eqn:E; [destruct (Up p) eqn:Eu |]; rewrite IH.
    + rewrite !filter_cons_True by (rewrite ?E, ?Eu; reflexivity).
      simpl length. f_equal; lia.
    + rewrite filter_cons_True by (rewrite ?E; reflexivity).
      rewrite filter_cons_False by (rewrite E, Eu; discriminate).
      simpl length. f_equal; lia.
    + rewrite !filter_cons_False by (rewrite ?E; discriminate). reflexivity.
Qed.

Lemma calcUptimeWindow_counts points now windowSec :
  calcUptimeWindow points now windowSec =
  if windowTotal now windowSec points =? 0 then 100%float
  else (Int64.to_float (windowUp now windowSec points)
        / Int64.to_float (windowTotal now windowSec points) * 100)%float.
Proof.
  unfold calcUptimeWindow, windowTotal, windowUp, inWindow.
  rewrite countStep_fold. simpl. reflexivity.
Qed.

(** C5 (amended): with no point in the window the uptime is exactly 100;
    with [n >= 1] points in the window, [k] of them up, it is
    [float64(k) / float64(n) * 100] in double precision, not rounded to two
    decimals (the dashboard rounds when it renders). *)
Theorem C5_uptime_unrounded points now windowSec :
  (Forall (fun p => inWindow now windowSec p = false) points ->
   calcUptimeWindow points now windowSec = 100%float)
  /\ (1 <= windowTotal now windowSec points ->
      calcUptimeWindow points now windowSec =
      (Int64.to_float (windowUp now windowSec points)
       / Int64.to_float (windowTotal now windowSec points) * 100)%float).
Proof.
  rewrite calcUptimeWindow_counts. split.
  - intros Hnone. replace (windowTotal now windowSec points) with 0; [reflexivity |].
    unfold windowTotal. induction Hnone as [| p l Hp _ IH]; [reflexivity |].
    rewrite filter_cons_False by (rewrite Hp; discriminate). exact IH.
  - intros Hn. destruct (Z.eqb_spec (windowTotal now windowSec points) 0); [lia | reflexivity].
Qed.

(** The claim C5 as stated fails: one point of three up gives
    33.333333333333329, not 33.33. *)
Lemma C5_not_rounded :
  windowTotal 1700000200 (24 * 3600) oneOfThree = 3
  /\ windowUp 1700000200 (24 * 3600) oneOfThree = 1
  /\ calcUptimeWindow oneOfThree 1700000200 (24 * 3600) <> uptimeRounded2 1 3.
Proof.
  split; [reflexivity |]. split; [reflexivity |].
  intros H.
  assert (E : PrimFloat.eqb (calcUptimeWindow oneOfThree 1700000200 (24 * 3600))
                            (uptimeRounded2 1 3) = true).
  { rewrite H. vm_compute. reflexivity. }
  vm_compute in E. discriminate E.
Qed.

Lemma dumpIncidents_lookup now hm id incs :
  iMonitors (dumpIncidents now hm) !! id = Some incs <->
  incs = filter (fun inc => keepIncident (Int64.sub now incidentRetentionSeconds) inc = true)
           (incidentsOf hm id)
  /\ incs <> [] /\ is_Some (incidents hm !! id).
Proof.
  unfold dumpIncidents, incidentsOf. simpl.
  rewrite map_lookup_filter_Some, lookup_fmap. simpl.
  destruct (incidents hm !! id) as [l |]; simpl; split.
  - intros (Heq & Hlen). injection Heq as <-. split; [reflexivity |].
    split; [| eauto]. intros Hnil. rewrite Hnil in Hlen. discriminate Hlen.
  - intros (-> & Hne & _). split; [reflexivity |].
    destruct (filter _ l); [congruence | reflexivity].
  - intros (Heq & _). discriminate Heq.
  - intros (_ & _ & [x Hx]). discriminate Hx.
Qed.

Lemma incidentsOf_loadIncidents doc hm0 id :
  incidentsOf (loadIncidents doc hm0) id = default [] (iMonitors doc !! id).
Proof. reflexivity. Qed.

(** C4: an incident that is resolved and started more than 30 days before
    [now] is in no list of the incident document that [Dump] writes at [now],
    and in no list after that document is loaded again; an unresolved
    incident of the store is in the written list of its target, and there
    after loading, whatever its age. *)
Theorem C4_incident_eviction (now : Z) (hm hm0 : HistoryManager) (id : string)
    (inc : Incident) :
  Int64.InRange now ->
  Int64.InRange (StartedAt inc) ->
  (ResolvedAt inc <> None ->
   StartedAt inc < now - incidentRetentionSeconds ->
   (forall incs, iMonitors (dumpIncidents now hm) !! id = Some incs -> inc ∉ incs)
   /\ inc ∉ incidentsOf (loadIncidents (dumpIncidents now hm) hm0) id)
  /\ (ResolvedAt inc = None ->
      inc ∈ incidentsOf hm id ->
      (exists incs, iMonitors (dumpIncidents now hm) !! id = Some incs /\ inc ∈ incs)
      /\ inc ∈ incidentsOf (loadIncidents (dumpIncidents now hm) hm0) id).
Proof.
  intros Hnow Hstart. split.
  - intros Hres Hold.
    assert (Hdrop : keepIncident (Int64.sub now incidentRetentionSeconds) inc = false).
    { unfold keepIncident. apply orb_false_intro.
      - rewrite Z.geb_leb. apply Z.leb_gt.
        unfold Int64.sub, Int64.wrap, Int64.InRange, Int64.min64, Int64.max64,
          incidentRetentionSeconds in *.
        destruct (Z_lt_le_dec (now - 30 * 24 * 3600) (- 2 ^ 63)) as [Hw | Hn].
        + lia.
        + rewrite Z.mod_small by lia. lia.
      - apply bool_decide_eq_false. exact Hres. }
    assert (Hfile : forall incs,
               iMonitors (dumpIncidents now hm) !! id = Some incs -> inc ∉ incs).
    { intros incs Hl Hin. apply dumpIncidents_lookup in Hl as (-> & _).
      apply list_elem_of_filter in Hin as (Hkeep & _). congruence. }
    split; [exact Hfile |].
    rewrite incidentsOf_loadIncidents.
    destruct (iMonitors (dumpIncidents now hm) !! id) as [incs |] eqn:E; simpl.
    + exact (Hfile incs eq_refl).
    + apply not_elem_of_nil.
  - intros Hopen Hin.
    assert (Hkeep : keepIncident (Int64.sub now incidentRetentionSeconds) inc = true).
    { unfold keepIncident. apply orb_true_intro. right.
      apply bool_decide_eq_true. exact Hopen. }
    assert (Hfile : iMonitors (dumpIncidents now hm) !! id =
              Some (filter (fun inc => keepIncident (Int64.sub now incidentRetentionSeconds) inc = true)
                      (incidentsOf hm id))).
    { apply dumpIncidents_lookup. split; [reflexivity |].
      assert (Hf : inc ∈ filter (fun inc => keepIncident (Int64.sub now incidentRetentionSeconds) inc = true)
                         (incidentsOf hm id))
        by (apply list_elem_of_filter; auto).
      split.
      - intros Hnil. rewrite Hnil in Hf. apply not_elem_of_nil in Hf. exact Hf.
      - unfold incidentsOf in Hin. destruct (incidents hm !! id); [eauto |].
        apply not_elem_of_nil in Hin. contradiction. }
    split.
    + eexists. split; [exact Hfile |]. apply list_elem_of_filter. auto.
    + rewrite incidentsOf_loadIncidents, Hfile. simpl.
      apply list_elem_of_filter. auto.
Qed.

Lemma lastN_length {A} (n : Z) (l : list A) :
  0 <= n -> Z.of_nat (length (lastN n l)) <= n.
Proof. intros Hn. unfold lastN. rewrite length_drop. lia. Qed.

Lemma lastN_suffix {A} (n : Z) (l : list A) :
  take (Z.to_nat (Z.of_nat (length l) - n)) l ++ lastN n l = l.
Proof. unfold lastN. apply take_drop. Qed.

(** Trimming early loses nothing that a later trim would keep. *)
Lemma lastN_app_lastN {A} (n : Z) (l1 l2 : list A) :
  0 <= n -> lastN n (lastN n l1 ++ l2) = lastN n (l1 ++ l2).
Proof.
  intros Hn. unfold lastN at 2.
  set (k := Z.to_nat (Z.of_nat (length l1) - n)).
  assert (Hk : (k <= length l1)%nat) by lia.
  unfold lastN. rewrite !length_app, length_drop.
  replace (drop k l1 ++ l2) with (drop k (l1 ++ l2))
    by (rewrite drop_app_le by exact Hk; reflexivity).
  rewrite drop_drop. f_equal. lia.
Qed.

Lemma latencyOf_ensureMonitor id id' hm :
  latencyOf (snd (ensureMonitor id hm)) id' = latencyOf hm id'
  /\ LatencyHistory (fst (ensureMonitor id hm)) = latencyOf hm id.
Proof.
  unfold ensureMonitor, latencyOf.
  destruct (Monitors (data hm) !! id) as [h |] eqn:E; simpl;
    destruct (incidents hm !! id); simpl; rewrite ?E; split; try reflexivity;
    (destruct (decide (id = id')) as [<- | Hne];
     [ rewrite lookup_insert_eq, ?E; reflexivity
     | rewrite lookup_insert_ne by done; reflexivity ]).
Qed.

(** One call: the target's sequence is the old one with the new point,
    cut down to the last [maxHistoryPts]; the others stay. *)
Lemma RecordProbe_latency t1 t2 t3 id lat up hm :
  0 <= maxHistoryPts hm ->
  exists hm',
    RecordProbe t1 t2 t3 id lat up hm = Some hm'
    /\ maxHistoryPts hm' = maxHistoryPts hm
    /\ forall id',
         latencyOf hm' id' =
         if decide (id = id')
         then lastN (maxHistoryPts hm)
                (latencyOf hm id ++ [ {| Time := t1; Latency := lat; Up := up |} ])
         else latencyOf hm id'.
Proof.
  intros Hmax. unfold RecordProbe.
  pose proof (fun id' => latencyOf_ensureMonitor id id' hm) as Hl.
  pose proof (maxHistoryPts_ensureMonitor id hm) as Hm.
  destruct (ensureMonitor id hm) as [h hm1]. simpl in *.
  rewrite trim_ok by lia.
  eexists. split; [reflexivity |]. split; [exact Hm |].
  intros id'. unfold latencyOf at 1. simpl.
  destruct (decide (id = id')) as [<- | Hne].
  - rewrite lookup_insert_eq. simpl. destruct (Hl id) as (_ & ->).
    rewrite Hm. reflexivity.
  - rewrite lookup_insert_ne by done. apply (Hl id').
Qed.

Lemma pointsFor_cons id c calls :
  pointsFor id (c :: calls) =
  if decide (cID c = id) then pointOf c :: pointsFor id calls else pointsFor id calls.
Proof.
  unfold pointsFor. destruct (decide (cID c = id)) as [E | NE].
  - rewrite filter_cons_True by exact E. reflexivity.
  - rewrite filter_cons_False by exact NE. reflexivity.
Qed.

(** C6 (amended): after any sequence of calls of [RecordProbe] (with a
    non-negative bound, without which the trim panics), the sequence of
    every target that was recorded, or was within the bound before, is
    within the bound; it is what is left of the old sequence followed by
    the new points, in order, once the oldest are dropped; a target that
    was not recorded keeps its sequence. *)
Theorem C6_latency_bounded_fifo (calls : list ProbeCall) (hm : HistoryManager) :
  0 <= maxHistoryPts hm ->
  exists hm',
    RecordProbes calls hm = Some hm'
    /\ forall id,
         let all := latencyOf hm id ++ pointsFor id calls in
         (pointsFor id calls <> [] \/ Z.of_nat (length (latencyOf hm id)) <= maxHistoryPts hm ->
          Z.of_nat (length (latencyOf hm' id)) <= maxHistoryPts hm)
         /\ latencyOf hm' id =
            (if decide (pointsFor id calls = []) then latencyOf hm id
             else lastN (maxHistoryPts hm) all)
         /\ exists dropped, all = dropped ++ latencyOf hm' id.
Proof.
  intros Hmax.
  assert (Hmain : exists hm',
    RecordProbes calls hm = Some hm'
    /\ forall id, latencyOf hm' id =
         if decide (pointsFor id calls = []) then latencyOf hm id
         else lastN (maxHistoryPts hm) (latencyOf hm id ++ pointsFor id calls)).
  { revert hm Hmax. induction calls as [| c calls IH]; intros hm Hmax.
    - exists hm. split; [reflexivity |]. intros id. reflexivity.
    - destruct (RecordProbe_latency (cPoint c) (cCheck c) (cCalc c) (cID c)
                  (cLatency c) (cUp c) hm Hmax) as (hm1 & HP & Hm & Hl).
      destruct (IH hm1 ltac:(lia)) as (hm' & HPs & Hl').
      exists hm'. simpl. rewrite HP. split; [exact HPs |].
      intros id. rewrite (Hl' id), (Hl id), Hm, pointsFor_cons.
      destruct (decide (cID c = id)) as [<- | NE]; [| reflexivity].
      destruct (decide (pointsFor (cID c) calls = [])) as [-> | Hne];
        destruct (decide (pointOf c :: _ = [])); try discriminate.
      * reflexivity.
      * rewrite lastN_app_lastN by lia. rewrite <- app_assoc. reflexivity. }
  destruct Hmain as (hm' & HP & Hl). exists hm'. split; [exact HP |].
  intros id all. rewrite (Hl id). subst all.
  destruct (decide (pointsFor id calls = [])) as [E | NE].
  - rewrite E, app_nil_r. split; [intros [H | H]; [congruence | exact H] |].
    split; [reflexivity |]. exists []. reflexivity.
  - split; [intros _; apply lastN_length; lia |]. split; [reflexivity |].
    eexists. symmetry. apply lastN_suffix.
Qed.

(** C6 as worded, for every target: on [overfullStore] the sequence of
    target "b", which the calls do not record, is still longer than the
    bound after them. *)
Lemma C6_loaded_sequence_over_bound :
  match RecordProbes threeCalls overfullStore with
  | Some hm' =>
      maxHistoryPts hm' = 2
      /\ Z.of_nat (length (latencyOf hm' "b")) = 3
      /\ ~ Z.of_nat (length (latencyOf hm' "b")) <= maxHistoryPts hm'
  | None => False
  end.
Proof.
  assert (H : match RecordProbes threeCalls overfullStore with
              | Some hm' => (maxHistoryPts hm', Z.of_nat (length (latencyOf hm' "b")))
              | None => (0, 0)
              end = (2, 3)) by (vm_compute; reflexivity).
  destruct (RecordProbes threeCalls overfullStore) as [hm' |]; [| discriminate].
  injection H as H1 H2. rewrite H1, H2. repeat split. lia.
Qed.

Lemma C4_witness :
  (ResolvedAt oldResolved <> None ->
   StartedAt oldResolved < 1700000000 - incidentRetentionSeconds ->
   (forall incs, iMonitors (dumpIncidents 1700000000 exampleStore) !! "a" = Some incs ->
                 oldResolved ∉ incs)
   /\ oldResolved ∉
        incidentsOf (loadIncidents (dumpIncidents 1700000000 exampleStore) exampleStore) "a")
  /\ (ResolvedAt oldResolved = None ->
      oldResolved ∈ incidentsOf exampleStore "a" ->
      (exists incs, iMonitors (dumpIncidents 1700000000 exampleStore) !! "a" = Some incs
                    /\ oldResolved ∈ incs)
      /\ oldResolved ∈
           incidentsOf (loadIncidents (dumpIncidents 1700000000 exampleStore) exampleStore) "a").
Proof.
  apply (C4_incident_eviction 1700000000 exampleStore exampleStore "a" oldResolved).
  - unfold Int64.InRange, Int64.min64, Int64.max64. lia.
  - unfold Int64.InRange, Int64.min64, Int64.max64. simpl. lia.
Defined.

Lemma C5_witness :
  calcUptimeWindow oneOfThree 1700000200 (24 * 3600) =
  (Int64.to_float (windowUp 1700000200 (24 * 3600) oneOfThree)
   / Int64.to_float (windowTotal 1700000200 (24 * 3600) oneOfThree) * 100)%float.
Proof.
  apply (proj2 (C5_uptime_unrounded oneOfThree 1700000200 (24 * 3600))).
  replace (windowTotal 1700000200 (24 * 3600) oneOfThree) with 3 by reflexivity. lia.
Defined.

Lemma C6_witness :
  exists hm',
    RecordProbes threeCalls exampleStore = Some hm'
    /\ forall id,
         let all := latencyOf exampleStore id ++ pointsFor id threeCalls in
         (pointsFor id threeCalls <> []
          \/ Z.of_nat (length (latencyOf exampleStore id)) <= maxHistoryPts exampleStore ->
          Z.of_nat (length (latencyOf hm' id)) <= maxHistoryPts exampleStore)
         /\ latencyOf hm' id =
            (if decide (pointsFor id threeCalls = []) then latencyOf exampleStore id
             else lastN (maxHistoryPts exampleStore) all)
         /\ exists dropped, all = dropped ++ latencyOf hm' id.
Proof.
  apply (C6_latency_bounded_fifo threeCalls exampleStore).
  simpl. lia.
Defined.

End storage_facts.

(** ** The analyzer *)

Module monitor_facts.
Import monitor.

Ltac step_probe w :=
  let hm' := fresh "hm'" in
  let E := fresh "E" in let Hm := fresh "Hm" in let Hi := fresh "Hi" in
  match goal with
  | |- context [storage.RecordProbe ?a ?b ?c ?i ?l ?u (histMgr w)] =>
      destruct (storage_facts.RecordProbe_ok a b c i l u (histMgr w)) as (hm' & E & Hm & Hi);
      [ assumption | rewrite E ]
  end.

Lemma Process_failure id name tgt T R r w :
  0 <= storage.maxHistoryPts (histMgr w) ->
  Up r = false ->
  exists w' effs,
    Process id name tgt T R r w = Some ({| IsFailing := true |}, w')
    /\ trace w' = trace w ++ effs
    /\ frame id w w'
    /\ let s := stateOf w id in
       let f := Int64.add (failCount s) 1 in
       if isUp s && (f >=? T) then
         states w' !! id = Some {| isUp := false; failCount := f; reminderCount := 0 |}
         /\ exists t ts h i,
              effs = [DumpFiles h i; Notify (alertEvent id name "down" tgt (Error r) ts)]
              /\ storage.incidentsOf (histMgr w') id =
                 storage.incidentsOf (histMgr w) id ++ [downIncident t (Error r)]
       else
         storage.incidentsOf (histMgr w') id = storage.incidentsOf (histMgr w) id
         /\ if negb (isUp s) && (R >? 0) then
              let rc := Int64.add (reminderCount s) 1 in
              if rc >=? R then
                states w' !! id = Some {| isUp := false; failCount := f; reminderCount := 0 |}
                /\ exists ts, effs = [Notify (alertEvent id name "down" tgt (Error r) ts)]
              else
                states w' !! id = Some {| isUp := false; failCount := f; reminderCount := rc |}
                /\ effs = []
            else
              states w' !! id = Some {| isUp := isUp s; failCount := f;
                                        reminderCount := reminderCount s |}
              /\ effs = [].
Proof.
  intros Hmax Hup.
  unfold Process, stateOf, bind, ensureState, histRecordProbe, bind, now.
  rewrite Hup.
  destruct (states w !! id) as [s|] eqn:Es; simpl;
    step_probe w; simpl;
    repeat match goal with
           | |- context [if ?b then _ else _] => destruct b eqn:?
           end;
    try discriminate;
    unfold alert, histRecordDown, histDump, bind, now, emit, ret, set_states, set_histMgr;
    simpl;
    eexists _, _; (split; [reflexivity |]); simpl;
    (split; [ first [ reflexivity | symmetry; apply app_nil_r
                    | rewrite <- app_assoc; reflexivity ] |]);
    (split; [ unfold frame; simpl; split; [reflexivity |];
              split; [ rewrite ?storage_facts.maxHistoryPts_RecordDown; assumption |];
              intros id' Hne; rewrite ?lookup_insert_ne by done;
              rewrite ?storage_facts.RecordDown_incidents;
              repeat case_decide; try congruence; auto |]).
  all: rewrite ?lookup_insert_eq, ?storage_facts.RecordDown_incidents;
    repeat case_decide; try congruence; rewrite ?Hi; eauto 10.
  all: destruct (isUp s); simpl in *; try discriminate; eauto 10.
Qed.

Lemma Process_success id name tgt T R r w :
  0 <= storage.maxHistoryPts (histMgr w) ->
  Up r = true ->
  exists w' effs,
    Process id name tgt T R r w = Some ({| IsFailing := false |}, w')
    /\ trace w' = trace w ++ effs
    /\ frame id w w'
    /\ states w' !! id = Some {| isUp := true; failCount := 0; reminderCount := 0 |}
    /\ if isUp (stateOf w id) then
         effs = []
         /\ storage.incidentsOf (histMgr w') id = storage.incidentsOf (histMgr w) id
       else
         exists t ts h i,
           effs = [DumpFiles h i; Notify (alertEvent id name "up" tgt "" ts)]
           /\ storage.incidentsOf (histMgr w') id =
              storage.resolveLatest t (storage.incidentsOf (histMgr w) id)
                (length (storage.incidentsOf (histMgr w) id)).
Proof.
  intros Hmax Hup.
  unfold Process, stateOf, bind, ensureState, histRecordProbe, bind, now.
  rewrite Hup.
  destruct (states w !! id) as [s|] eqn:Es; simpl;
    step_probe w; simpl;
    repeat match goal with
           | |- context [if ?b then _ else _] => destruct b eqn:?
           end;
    try discriminate;
    unfold alert, histRecordUp, histDump, bind, now, emit, ret, set_states, set_histMgr;
    simpl;
    eexists _, _; (split; [reflexivity |]); simpl;
    (split; [ first [ reflexivity | symmetry; apply app_nil_r
                    | rewrite <- app_assoc; reflexivity ] |]);
    (split; [ unfold frame; simpl; split; [reflexivity |];
              split; [ rewrite ?storage_facts.maxHistoryPts_RecordUp; assumption |];
              intros id' Hne; rewrite ?lookup_insert_ne by done;
              rewrite ?storage_facts.RecordUp_incidents;
              repeat case_decide; try congruence; auto |]).
  all: rewrite ?lookup_insert_eq, ?storage_facts.RecordUp_incidents;
    repeat case_decide; try congruence; rewrite ?Hi; eauto 10.
  all: destruct (isUp s); simpl in *; try discriminate; eauto 10.
Qed.

Lemma geb_false x y : x < y -> (x >=? y) = false.
Proof. intros H. rewrite Z.geb_leb. apply Z.leb_gt. exact H. Qed.

Lemma geb_true x y : y <= x -> (x >=? y) = true.
Proof. intros H. rewrite Z.geb_leb. apply Z.leb_le. exact H. Qed.

Lemma emitted_app w w' effs :
  trace w' = trace w ++ effs -> emitted w w' = alertsOf effs.
Proof.
  intros H. unfold emitted. rewrite H, drop_app_length. reflexivity.
Qed.

Lemma stateOf_Some w id s : states w !! id = Some s -> stateOf w id = s.
Proof. unfold stateOf. intros ->. reflexivity. Qed.

(** Below the threshold a run of failures only counts. *)
Lemma failures_below_threshold id name tgt T R (fails : list ProbeResult) :
  forall w,
    0 <= storage.maxHistoryPts (histMgr w) ->
    isUp (stateOf w id) = true ->
    0 <= failCount (stateOf w id) ->
    failCount (stateOf w id) + Z.of_nat (length fails) < T ->
    T <= Int64.max64 ->
    Forall (fun r => Up r = false) fails ->
    exists w1,
      ProcessAll id name tgt T R fails w = Some (tt, w1)
      /\ isUp (stateOf w1 id) = true
      /\ failCount (stateOf w1 id) = failCount (stateOf w id) + Z.of_nat (length fails)
      /\ trace w1 = trace w
      /\ storage.maxHistoryPts (histMgr w1) = storage.maxHistoryPts (histMgr w).
Proof.
  induction fails as [| r fails IH]; intros w Hmax Hup Hc Hlt HT Hall.
  - exists w. simpl. repeat split; try done. lia.
  - apply Forall_cons in Hall as [Hr Hall].
    destruct (Process_failure id name tgt T R r w Hmax Hr)
      as (w' & effs & HP & Htr & (Hclk & Hm & Hfr) & Hcase).
    simpl in Hcase. rewrite Hup in Hcase. simpl in Hcase.
    assert (Hadd : Int64.add (failCount (stateOf w id)) 1 = failCount (stateOf w id) + 1).
    { apply Int64.add_small. unfold Int64.InRange, Int64.min64, Int64.max64 in *.
      simpl length in Hlt. lia. }
    rewrite Hadd in Hcase.
    replace (failCount (stateOf w id) + 1 >=? T) with false in Hcase
      by (symmetry; apply geb_false; simpl length in Hlt; lia).
    destruct Hcase as (_ & Hst & ->).
    apply stateOf_Some in Hst.
    destruct (IH w') as (w1 & HP1 & Hup1 & Hc1 & Htr1 & Hm1).
    + lia.
    + rewrite Hst. reflexivity.
    + rewrite Hst. simpl. lia.
    + rewrite Hst. simpl. simpl length in Hlt. lia.
    + exact HT.
    + exact Hall.
    + exists w1. simpl. unfold bind at 1. rewrite HP. rewrite HP1.
      repeat split; try done.
      * rewrite Hc1, Hst. simpl. simpl length. lia.
      * rewrite Htr1, Htr. apply app_nil_r.
      * lia.
Qed.

(** C1: from UP with failure counter 0 and a threshold [T >= 1], the first
    [T - 1] consecutive failures leave the state UP and emit no alert; the
    [T]-th failure moves the state to DOWN and emits exactly one alert, of
    type "down". *)
Theorem C1_threshold_hysteresis id name tgt (T R : Z)
    (fails : list ProbeResult) (last : ProbeResult) (w : World) :
  0 <= storage.maxHistoryPts (histMgr w) ->
  1 <= T <= Int64.max64 ->
  isUp (stateOf w id) = true ->
  failCount (stateOf w id) = 0 ->
  Forall (fun r => Up r = false) fails ->
  Up last = false ->
  Z.of_nat (length fails) = T - 1 ->
  exists w1 w2,
    ProcessAll id name tgt T R fails w = Some (tt, w1)
    /\ isUp (stateOf w1 id) = true
    /\ emitted w w1 = []
    /\ Process id name tgt T R last w1 = Some ({| IsFailing := true |}, w2)
    /\ isUp (stateOf w2 id) = false
    /\ exists ts, emitted w1 w2 = [alertEvent id name "down" tgt (Error last) ts].
Proof.
  intros Hmax HT Hup Hc Hall Hlast Hlen.
  destruct (failures_below_threshold id name tgt T R fails w)
    as (w1 & HP1 & Hup1 & Hc1 & Htr1 & Hm1); try done; try lia.
  destruct (Process_failure id name tgt T R last w1 ltac:(lia) Hlast)
    as (w2 & effs & HP & Htr & _ & Hcase).
  simpl in Hcase. rewrite Hup1, Hc1, Hc in Hcase. simpl in Hcase.
  rewrite Int64.add_small in Hcase
    by (unfold Int64.InRange, Int64.min64, Int64.max64 in *; lia).
  replace (_ >=? T) with true in Hcase by (symmetry; apply geb_true; lia).
  destruct Hcase as (Hst & t & ts & h & i & -> & _).
  exists w1, w2. repeat split; try done.
  - unfold emitted. rewrite Htr1, drop_all. reflexivity.
  - rewrite (stateOf_Some _ _ _ Hst). reflexivity.
  - exists ts. rewrite (emitted_app _ _ _ Htr). reflexivity.
Qed.

Lemma resolveLatest_skip now pre inc post k :
  storage.ResolvedAt inc = None ->
  Forall resolved post ->
  (k <= length post)%nat ->
  storage.resolveLatest now (pre ++ inc :: post) (length pre + 1 + k) =
  pre ++ storage.resolve now inc :: post.
Proof.
  intros Hopen Hpost. induction k as [| k IH]; intros Hk.
  - replace (length pre + 1 + 0)%nat with (S (length pre)) by lia. simpl.
    rewrite list_lookup_middle by reflexivity. rewrite Hopen.
    rewrite insert_app_r_alt by lia. rewrite Nat.sub_diag. reflexivity.
  - replace (length pre + 1 + S k)%nat with (S (length pre + 1 + k)) by lia. simpl.
    destruct (lookup_lt_is_Some_2 post k ltac:(lia)) as [x Hx].
    replace ((pre ++ inc :: post) !! (length pre + 1 + k)%nat) with (Some x).
    + pose proof (Forall_lookup_1 _ _ _ _ Hpost Hx) as Hres. unfold resolved in Hres.
      destruct (storage.ResolvedAt x); [| congruence]. apply IH. lia.
    + rewrite lookup_app_r by lia.
      replace (length pre + 1 + k - length pre)%nat with (S k) by lia. simpl. congruence.
Qed.

Lemma resolveLatest_last_open now pre inc post :
  storage.ResolvedAt inc = None ->
  Forall resolved post ->
  storage.resolveLatest now (pre ++ inc :: post) (length (pre ++ inc :: post)) =
  pre ++ storage.resolve now inc :: post.
Proof.
  intros Hopen Hpost.
  replace (length (pre ++ inc :: post)) with (length pre + 1 + length post)%nat
    by (rewrite length_app; simpl; lia).
  apply resolveLatest_skip; auto.
Qed.

(** A list with an open incident splits at its last open one. *)
Lemma last_open_split (incs : list storage.Incident) :
  Exists (fun inc => storage.ResolvedAt inc = None) incs ->
  exists pre inc post,
    incs = pre ++ inc :: post
    /\ storage.ResolvedAt inc = None
    /\ Forall resolved post.
Proof.
  induction incs as [| x incs IH]; intros Hex.
  - inversion Hex.
  - destruct (decide (Exists (fun inc => storage.ResolvedAt inc = None) incs)) as [Hin | Hnot].
    + destruct (IH Hin) as (pre & inc & post & -> & Hopen & Hpost).
      exists (x :: pre), inc, post. auto.
    + apply Exists_cons in Hex as [Hx | Hin]; [| contradiction].
      exists [], x, incs. repeat split; auto.
      apply not_Exists_Forall in Hnot; [| intros ?; apply _].
      exact Hnot.
Qed.

(** C2: a successful probe while DOWN with an open incident moves the state
    to UP with both counters at zero, emits exactly one alert, of type "up",
    and resolves the last unresolved incident of the target and no other:
    its resolution time is set and its duration is [resolvedAt - startedAt]
    (in [int64] arithmetic, hence exactly that difference whenever it fits). *)
Theorem C2_recovery id name tgt (T R : Z) (r : ProbeResult) (w : World) :
  0 <= storage.maxHistoryPts (histMgr w) ->
  Up r = true ->
  isUp (stateOf w id) = false ->
  Exists (fun inc => storage.ResolvedAt inc = None) (storage.incidentsOf (histMgr w) id) ->
  exists w' pre inc post resolvedAt ts,
    Process id name tgt T R r w = Some ({| IsFailing := false |}, w')
    /\ stateOf w' id = {| isUp := true; failCount := 0; reminderCount := 0 |}
    /\ emitted w w' = [alertEvent id name "up" tgt "" ts]
    /\ storage.incidentsOf (histMgr w) id = pre ++ inc :: post
    /\ storage.ResolvedAt inc = None
    /\ Forall resolved post
    /\ storage.incidentsOf (histMgr w') id =
         pre ++ {| storage.Type_ := storage.Type_ inc;
                   storage.StartedAt := storage.StartedAt inc;
                   storage.ResolvedAt := Some resolvedAt;
                   storage.Duration := Int64.sub resolvedAt (storage.StartedAt inc);
                   storage.Reason := storage.Reason inc |} :: post
    /\ (Int64.InRange (resolvedAt - storage.StartedAt inc) ->
        Int64.sub resolvedAt (storage.StartedAt inc) = resolvedAt - storage.StartedAt inc).
Proof.
  intros Hmax Hup Hdown Hex.
  destruct (Process_success id name tgt T R r w Hmax Hup)
    as (w' & effs & HP & Htr & _ & Hst & Hcase).
  rewrite Hdown in Hcase. destruct Hcase as (t & ts & h & i & -> & Hinc).
  destruct (last_open_split _ Hex) as (pre & inc & post & Hsplit & Hopen & Hpost).
  exists w', pre, inc, post, t, ts.
  split; [exact HP |]. split; [apply stateOf_Some, Hst |].
  split; [rewrite (emitted_app _ _ _ Htr); reflexivity |].
  split; [exact Hsplit |]. split; [exact Hopen |]. split; [exact Hpost |].
  split; [| apply Int64.sub_small].
  rewrite Hinc, Hsplit. apply resolveLatest_last_open; assumption.
Qed.

Lemma reminder_step R m :
  0 < R ->
  (m mod R + 1 >=? R) = ((m + 1) mod R =? 0)
  /\ (if m mod R + 1 >=? R then 0 else m mod R + 1) = (m + 1) mod R.
Proof.
  intros HR.
  pose proof (Z.mod_pos_bound m R HR) as Hb.
  rewrite <- (Z.add_mod_idemp_l m 1 R) by lia.
  destruct (Z.eq_dec (m mod R + 1) R) as [E | NE].
  - rewrite E, Z.mod_same by lia. rewrite geb_true by lia. split; reflexivity.
  - rewrite (Z.mod_small (m mod R + 1)) by lia. rewrite geb_false by lia.
    split; [| reflexivity]. symmetry. apply Z.eqb_neq. lia.
Qed.

Lemma ProcessAll_snoc id name tgt T R rs r w :
  ProcessAll id name tgt T R (rs ++ [r]) w =
  match ProcessAll id name tgt T R rs w with
  | Some (_, w1) =>
      match Process id name tgt T R r w1 with
      | Some (_, w2) => Some (tt, w2)
      | None => None
      end
  | None => None
  end.
Proof.
  revert w. induction rs as [| r0 rs IH]; intros w; simpl; unfold bind.
  - destruct (Process id name tgt T R r w) as [[res w1] |]; reflexivity.
  - destruct (Process id name tgt T R r0 w) as [[res w1] |]; [apply IH | reflexivity].
Qed.

(** The reminder counter [n] failed probes into a run that started with
    the counter at [c], and whether the next failed probe reminds. *)
Lemma reminder_closed R c n :
  0 < R -> 0 <= c -> 0 <= n ->
  let first := Z.max 1 (R - c) in
  let cn := if n <? first then c + n else (n - first) mod R in
  0 <= cn
  /\ (cn < R \/ n = 0)
  /\ (cn + 1 >=? R) = ((first <=? n + 1) && ((n + 1 - first) mod R =? 0))
  /\ (if cn + 1 >=? R then 0 else cn + 1)
     = (if n + 1 <? first then c + n + 1 else (n + 1 - first) mod R).
Proof.
  intros HR Hc Hn first cn. subst cn.
  assert (Hfirst : 1 <= first /\ R - c <= first /\ (first = 1 \/ first = R - c))
    by (subst first; lia).
  clearbody first.
  destruct (Z.ltb_spec n first) as [Hlt | Hge].
  - destruct (Z.ltb_spec (n + 1) first) as [Hlt1 | Hge1].
    + rewrite geb_false by lia.
      replace (first <=? n + 1) with false by (symmetry; apply Z.leb_gt; lia).
      simpl. repeat split; lia.
    + assert (Hn1 : n + 1 = first) by lia.
      rewrite Hn1, Z.sub_diag, Z.mod_0_l, Z.leb_refl by lia. simpl.
      rewrite geb_true by lia.
      repeat split; lia.
  - pose proof (Z.mod_pos_bound (n - first) R HR) as Hb.
    destruct (reminder_step R (n - first) HR) as [H1 H2].
    replace (n + 1 - first) with (n - first + 1) by lia.
    replace (first <=? n + 1) with true by (symmetry; apply Z.leb_le; lia).
    replace (n + 1 <? first) with false by (symmetry; apply Z.ltb_ge; lia).
    simpl. repeat split; try lia; assumption.
Qed.

(** One more failure while DOWN: what the reminder counter decides. *)
Lemma failure_while_down id name tgt T R r w :
  0 <= storage.maxHistoryPts (histMgr w) ->
  Up r = false ->
  isUp (stateOf w id) = false ->
  0 <= reminderCount (stateOf w id) < Int64.max64 ->
  exists w',
    Process id name tgt T R r w = Some ({| IsFailing := true |}, w')
    /\ isUp (stateOf w' id) = false
    /\ storage.maxHistoryPts (histMgr w') = storage.maxHistoryPts (histMgr w)
    /\ (forall id', storage.incidentsOf (histMgr w') id' = storage.incidentsOf (histMgr w) id')
    /\ (forall id', id' <> id -> states w' !! id' = states w !! id')
    /\ if (0 <? R) && (reminderCount (stateOf w id) + 1 >=? R)
       then reminderCount (stateOf w' id) = 0
            /\ exists ts, trace w' =
                 trace w ++ [Notify (alertEvent id name "down" tgt (Error r) ts)]
       else trace w' = trace w
            /\ reminderCount (stateOf w' id) =
                 if 0 <? R then reminderCount (stateOf w id) + 1
                 else reminderCount (stateOf w id).
Proof.
  intros Hmax Hr Hdown Hc.
  destruct (Process_failure id name tgt T R r w Hmax Hr)
    as (w' & effs & HP & Htr & (_ & Hm & Hfr) & Hcase).
  simpl in Hcase. rewrite Hdown in Hcase. simpl in Hcase.
  destruct Hcase as (Hinc & Hcase).
  exists w'. split; [exact HP |].
  assert (Hincs : forall id', storage.incidentsOf (histMgr w') id' =
                              storage.incidentsOf (histMgr w) id').
  { intros id'. destruct (decide (id' = id)) as [-> | Hne]; [exact Hinc |].
    apply Hfr, Hne. }
  assert (Hst' : forall id', id' <> id -> states w' !! id' = states w !! id').
  { intros id' Hne. apply Hfr, Hne. }
  rewrite Z.gtb_ltb in Hcase.
  rewrite Int64.add_small in Hcase
    by (unfold Int64.InRange, Int64.min64, Int64.max64 in *; lia).
  destruct (Z.ltb_spec 0 R) as [Hpos | Hnonpos]; simpl.
  - destruct (reminderCount (stateOf w id) + 1 >=? R).
    + destruct Hcase as (Hst & ts & ->). rewrite (stateOf_Some _ _ _ Hst). simpl.
      repeat split; eauto.
    + destruct Hcase as (Hst & ->). rewrite (stateOf_Some _ _ _ Hst). simpl.
      rewrite app_nil_r in Htr. repeat split; eauto.
  - destruct Hcase as (Hst & ->). rewrite (stateOf_Some _ _ _ Hst). simpl.
    rewrite app_nil_r in Htr. repeat split; eauto.
Qed.

Lemma failures_while_down id name tgt T R (fails : list ProbeResult) w :
  0 <= storage.maxHistoryPts (histMgr w) ->
  isUp (stateOf w id) = false ->
  R <= Int64.max64 ->
  0 <= reminderCount (stateOf w id) < Int64.max64 ->
  Forall (fun r => Up r = false) fails ->
  exists w1,
    ProcessAll id name tgt T R fails w = Some (tt, w1)
    /\ isUp (stateOf w1 id) = false
    /\ storage.maxHistoryPts (histMgr w1) = storage.maxHistoryPts (histMgr w)
    /\ (forall id', storage.incidentsOf (histMgr w1) id' = storage.incidentsOf (histMgr w) id')
    /\ 0 <= reminderCount (stateOf w1 id) < Int64.max64
    /\ reminderCount (stateOf w1 id) =
         let c := reminderCount (stateOf w id) in
         let n := Z.of_nat (length fails) in
         let first := Z.max 1 (R - c) in
         if 0 <? R then (if n <? first then c + n else (n - first) mod R) else c.
Proof.
  intros Hmax Hdown HR Hc.
  induction fails as [| r fails IH] using rev_ind; intros Hall.
  - exists w. split; [reflexivity |]. repeat split; try done; try lia.
    cbv zeta. change (Z.of_nat (length (@nil ProbeResult))) with 0.
    destruct (Z.ltb_spec 0 R); [| reflexivity].
    destruct (Z.ltb_spec 0 (Z.max 1 (R - reminderCount (stateOf w id)))); lia.
  - apply Forall_app in Hall as [Hall Hr]. apply Forall_cons in Hr as [Hr _].
    destruct (IH Hall) as (w1 & HP1 & Hdown1 & Hm1 & Hinc1 & Hc1 & Hrc1).
    destruct (failure_while_down id name tgt T R r w1 ltac:(lia) Hr Hdown1 Hc1)
      as (w2 & HP2 & Hdown2 & Hm2 & Hinc2 & _ & Hcase).
    exists w2. rewrite ProcessAll_snoc, HP1, HP2.
    split; [reflexivity |]. split; [exact Hdown2 |]. split; [lia |].
    split; [intros id'; rewrite Hinc2; apply Hinc1 |].
    rewrite length_app, Nat2Z.inj_add. change (Z.of_nat (length [r])) with 1.
    cbv zeta in Hrc1 |- *.
    destruct (Z.ltb_spec 0 R) as [Hpos | Hnonpos]; simpl in Hcase.
    + destruct (reminder_closed R (reminderCount (stateOf w id))
                  (Z.of_nat (length fails)) Hpos ltac:(lia) ltac:(lia))
        as (Hge0 & Hlt & Hgeb & Hnext).
      cbv zeta in Hge0, Hlt, Hgeb, Hnext. rewrite <- Hrc1 in Hge0, Hlt, Hgeb, Hnext.
      rewrite Z.add_assoc, <- Hnext.
      destruct (Z.geb_spec (reminderCount (stateOf w1 id) + 1) R) as [E | E].
      * destruct Hcase as (-> & _). unfold Int64.max64. lia.
      * destruct Hcase as (_ & ->). lia.
    + destruct Hcase as (_ & ->). rewrite Hrc1. lia.
Qed.


(** C3 (amended): while DOWN with cadence [R], in a run of failed probes
    that starts with the reminder counter at [c]: the failed probe number
    [k] emits one more "down" alert exactly when [R > 0], [k >= first] and
    [R] divides [k - first], where [first = max 1 (R - c)]; the counter is
    then back at zero; otherwise the trace is untouched.  Counting from the
    last alert, while [c < R], this is every failed probe at which [R]
    divides [c + k]; a counter at or above the cadence, left by a larger
    cadence, reminds on the very next failed probe and on every [R]-th
    after it.  With [R = 0] no alert is ever emitted.  The run stays DOWN
    and no incident list changes. *)
Theorem C3_reminder_cadence id name tgt (T R : Z)
    (fails : list ProbeResult) (r : ProbeResult) (w : World) :
  0 <= storage.maxHistoryPts (histMgr w) ->
  isUp (stateOf w id) = false ->
  R <= Int64.max64 ->
  0 <= reminderCount (stateOf w id) < Int64.max64 ->
  Forall (fun r => Up r = false) fails ->
  Up r = false ->
  exists w1 w2,
    ProcessAll id name tgt T R fails w = Some (tt, w1)
    /\ Process id name tgt T R r w1 = Some ({| IsFailing := true |}, w2)
    /\ isUp (stateOf w2 id) = false
    /\ (forall id', storage.incidentsOf (histMgr w2) id' = storage.incidentsOf (histMgr w) id')
    /\ let c := reminderCount (stateOf w id) in
       let k := Z.of_nat (length fails) + 1 in
       let first := Z.max 1 (R - c) in
       let due := (0 <? R) && (first <=? k) && ((k - first) mod R =? 0) in
       (if due
        then reminderCount (stateOf w2 id) = 0
             /\ exists ts, trace w2 =
                  trace w1 ++ [Notify (alertEvent id name "down" tgt (Error r) ts)]
        else trace w2 = trace w1)
       /\ (c < R -> due = ((c + k) mod R =? 0)).
Proof.
  intros Hmax Hdown HR Hc Hall Hr.
  destruct (failures_while_down id name tgt T R fails w Hmax Hdown HR Hc Hall)
    as (w1 & HP1 & Hdown1 & Hm1 & Hinc1 & Hc1 & Hrc1).
  destruct (failure_while_down id name tgt T R r w1 ltac:(lia) Hr Hdown1 Hc1)
    as (w2 & HP2 & Hdown2 & _ & Hinc2 & _ & Hcase).
  exists w1, w2. split; [exact HP1 |]. split; [exact HP2 |]. split; [exact Hdown2 |].
  split; [intros id'; rewrite Hinc2; apply Hinc1 |].
  cbv zeta in Hrc1 |- *.
  destruct (Z.ltb_spec 0 R) as [Hpos | Hnonpos]; simpl in *.
  - destruct (reminder_closed R (reminderCount (stateOf w id))
                (Z.of_nat (length fails)) Hpos ltac:(lia) ltac:(lia))
      as (_ & _ & Hgeb & _).
    cbv zeta in Hgeb. rewrite <- Hrc1 in Hgeb. rewrite <- Hgeb.
    split.
    + destruct (reminderCount (stateOf w1 id) + 1 >=? R); tauto.
    + intros Hlt. rewrite Hgeb.
      replace (Z.max 1 (R - reminderCount (stateOf w id)))
        with (R - reminderCount (stateOf w id)) by lia.
      replace (Z.of_nat (length fails) + 1 - (R - reminderCount (stateOf w id)))
        with (reminderCount (stateOf w id) + (Z.of_nat (length fails) + 1) + (-1) * R) by lia.
      rewrite Z.mod_add by lia.
      destruct (Z.leb_spec (R - reminderCount (stateOf w id)) (Z.of_nat (length fails) + 1))
        as [Hle | Hgt]; [reflexivity |].
      simpl. symmetry. apply Z.eqb_neq.
      rewrite Z.mod_small by lia. lia.
  - split; [tauto | lia].
Qed.

(** C3 as worded, on every [R]-th failed probe: after [cadenceEdit] the
    target is DOWN with seven failed probes counted, and under the new
    cadence 3 the next three failed probes emit an alert on the first and
    none on the second and third. *)
Lemma C3_reminder_on_first_probe :
  match execAll cadenceEdit (initScheduler exampleClock 1440) with
  | Some s =>
      stateOf (analyzer s) "a" = {| isUp := false; failCount := 8; reminderCount := 7 |}
      /\ alertCounts (replicate 3 (OpProbe (remindEvery 3) failedProbe)) s
         = Some [1; 0; 0]%nat
  | None => False
  end.
Proof.
  assert (H : match execAll cadenceEdit (initScheduler exampleClock 1440) with
              | Some s =>
                  Some (stateOf (analyzer s) "a",
                        alertCounts (replicate 3 (OpProbe (remindEvery 3) failedProbe)) s)
              | None => None
              end
              = Some ({| isUp := false; failCount := 8; reminderCount := 7 |},
                      Some [1; 0; 0]%nat)) by (vm_compute; reflexivity).
  destruct (execAll cadenceEdit (initScheduler exampleClock 1440)) as [s |];
    [| discriminate].
  injection H as H1 H2. split; assumption.
Qed.


Lemma C1_witness :
  exists w1 w2,
    ProcessAll "a" "A" "t" 3 0 [failedProbe; failedProbe] (initWorld exampleClock 1440)
      = Some (tt, w1)
    /\ isUp (stateOf w1 "a") = true
    /\ emitted (initWorld exampleClock 1440) w1 = []
    /\ Process "a" "A" "t" 3 0 failedProbe w1 = Some ({| IsFailing := true |}, w2)
    /\ isUp (stateOf w2 "a") = false
    /\ exists ts, emitted w1 w2 = [alertEvent "a" "A" "down" "t" (Error failedProbe) ts].
Proof.
  apply (C1_threshold_hysteresis "a" "A" "t" 3 0 [failedProbe; failedProbe] failedProbe
           (initWorld exampleClock 1440)).
  - simpl. lia.
  - unfold Int64.max64. lia.
  - reflexivity.
  - reflexivity.
  - repeat constructor.
  - reflexivity.
  - reflexivity.
Defined.

Lemma C2_witness :
  exists w' pre inc post resolvedAt ts,
    Process "a" "A" "t" 3 0 okProbe downWorld = Some ({| IsFailing := false |}, w')
    /\ stateOf w' "a" = {| isUp := true; failCount := 0; reminderCount := 0 |}
    /\ emitted downWorld w' = [alertEvent "a" "A" "up" "t" "" ts]
    /\ storage.incidentsOf (histMgr downWorld) "a" = pre ++ inc :: post
    /\ storage.ResolvedAt inc = None
    /\ Forall resolved post
    /\ storage.incidentsOf (histMgr w') "a" =
         pre ++ {| storage.Type_ := storage.Type_ inc;
                   storage.StartedAt := storage.StartedAt inc;
                   storage.ResolvedAt := Some resolvedAt;
                   storage.Duration := Int64.sub resolvedAt (storage.StartedAt inc);
                   storage.Reason := storage.Reason inc |} :: post
    /\ (Int64.InRange (resolvedAt - storage.StartedAt inc) ->
        Int64.sub resolvedAt (storage.StartedAt inc) = resolvedAt - storage.StartedAt inc).
Proof.
  apply (C2_recovery "a" "A" "t" 3 0 okProbe downWorld).
  - simpl. lia.
  - reflexivity.
  - reflexivity.
  - apply Exists_cons_hd. reflexivity.
Defined.

Lemma C3_witness :
  exists w1 w2,
    ProcessAll "a" "A" "t" 3 3 [failedProbe; failedProbe; failedProbe] lateWorld
      = Some (tt, w1)
    /\ Process "a" "A" "t" 3 3 failedProbe w1 = Some ({| IsFailing := true |}, w2)
    /\ isUp (stateOf w2 "a") = false
    /\ (forall id', storage.incidentsOf (histMgr w2) id'
                    = storage.incidentsOf (histMgr lateWorld) id')
    /\ let c := reminderCount (stateOf lateWorld "a") in
       let k := Z.of_nat (length [failedProbe; failedProbe; failedProbe]) + 1 in
       let first := Z.max 1 (3 - c) in
       let due := (0 <? 3) && (first <=? k) && ((k - first) mod 3 =? 0) in
       (if due
        then reminderCount (stateOf w2 "a") = 0
             /\ exists ts, trace w2 =
                  trace w1 ++ [Notify (alertEvent "a" "A" "down" "t" (Error failedProbe) ts)]
        else trace w2 = trace w1)
       /\ (c < 3 -> due = ((c + k) mod 3 =? 0)).
Proof.
  apply (C3_reminder_cadence "a" "A" "t" 3 3 [failedProbe; failedProbe; failedProbe]
           failedProbe lateWorld).
  - simpl. lia.
  - reflexivity.
  - unfold Int64.max64. lia.
  - replace (reminderCount (stateOf lateWorld "a")) with 7 by reflexivity.
    unfold Int64.max64. lia.
  - repeat constructor.
  - reflexivity.
Defined.

Lemma isOpen_true inc : isOpen inc = true <-> storage.ResolvedAt inc = None.
Proof. unfold isOpen. apply bool_decide_eq_true. Qed.

Lemma openIn_app l1 l2 : openIn (l1 ++ l2) = (openIn l1 + openIn l2)%nat.
Proof. unfold openIn. rewrite filter_app, length_app. reflexivity. Qed.

Lemma openIn_resolved l : Forall resolved l -> openIn l = 0%nat.
Proof.
  unfold openIn. induction 1 as [| x l Hx _ IH]; [reflexivity |].
  rewrite filter_cons_False; [exact IH |].
  rewrite isOpen_true. exact Hx.
Qed.

Lemma openIn_cons x l :
  openIn (x :: l) = ((if isOpen x then 1 else 0) + openIn l)%nat.
Proof.
  unfold openIn. destruct (isOpen x) eqn:E.
  - rewrite filter_cons_True by exact E. reflexivity.
  - rewrite filter_cons_False by (rewrite E; discriminate). reflexivity.
Qed.

Lemma resolveLatest_none now incs n :
  Forall resolved incs -> storage.resolveLatest now incs n = incs.
Proof.
  intros Hall. induction n as [| n IH]; [reflexivity |]. simpl.
  destruct (incs !! n) as [inc |] eqn:E; [| reflexivity].
  pose proof (Forall_lookup_1 _ _ _ _ Hall E) as Hres. unfold resolved in Hres.
  destruct (storage.ResolvedAt inc); [exact IH | congruence].
Qed.

Lemma openIn_zero_resolved l : openIn l = 0%nat -> Forall resolved l.
Proof.
  induction l as [| x l IH]; [constructor |].
  rewrite openIn_cons. destruct (isOpen x) eqn:E; [discriminate |].
  simpl. intros H. constructor; [| exact (IH H)].
  unfold resolved. intros Hx. apply isOpen_true in Hx. congruence.
Qed.

(** Resolving takes one open incident away, when there is one. *)
Lemma openIn_resolveLatest now incs :
  openIn (storage.resolveLatest now incs (length incs)) = pred (openIn incs).
Proof.
  destruct (decide (Exists (fun inc => storage.ResolvedAt inc = None) incs)) as [Hex | Hnot].
  - destruct (last_open_split _ Hex) as (pre & inc & post & -> & Hopen & Hpost).
    rewrite resolveLatest_last_open by assumption.
    rewrite !openIn_app, !openIn_cons, (openIn_resolved post Hpost).
    replace (isOpen inc) with true by (symmetry; apply isOpen_true, Hopen).
    replace (isOpen (storage.resolve now inc)) with false
      by (symmetry; apply bool_decide_eq_false; discriminate).
    lia.
  - apply not_Exists_Forall in Hnot; [| intros ?; apply _].
    rewrite resolveLatest_none by exact Hnot.
    rewrite (openIn_resolved incs Hnot). reflexivity.
Qed.

Lemma stateOf_frame w w' (id' : string) :
  states w' !! id' = states w !! id' -> stateOf w' id' = stateOf w id'.
Proof. unfold stateOf. intros ->. reflexivity. Qed.

(** [Process] keeps state and incidents consistent. *)
Lemma Process_consistent id name tgt T R r w res w' :
  0 <= storage.maxHistoryPts (histMgr w) ->
  consistent w ->
  Process id name tgt T R r w = Some (res, w') ->
  consistent w' /\ storage.maxHistoryPts (histMgr w') = storage.maxHistoryPts (histMgr w).
Proof.
  intros Hmax Hcons HP.
  destruct (Up r) eqn:Hup.
  - destruct (Process_success id name tgt T R r w Hmax Hup)
      as (w2 & effs & HP2 & _ & (_ & Hm & Hfr) & Hst & Hcase).
    rewrite HP in HP2. injection HP2 as _ <-. split; [| exact Hm].
    intros id'. destruct (decide (id' = id)) as [-> | Hne].
    + rewrite (stateOf_Some _ _ _ Hst). simpl. unfold openCount.
      specialize (Hcons id). unfold openCount in Hcons.
      destruct (isUp (stateOf w id)).
      * destruct Hcase as (_ & ->). exact Hcons.
      * destruct Hcase as (t & _ & _ & _ & _ & ->).
        fold (openIn (storage.resolveLatest t (storage.incidentsOf (histMgr w) id)
                        (length (storage.incidentsOf (histMgr w) id)))).
        rewrite openIn_resolveLatest. unfold openIn. lia.
    + destruct (Hfr id' Hne) as (Hs & Hi).
      unfold openCount. rewrite Hi, (stateOf_frame _ _ _ Hs). apply Hcons.
  - destruct (Process_failure id name tgt T R r w Hmax Hup)
      as (w2 & effs & HP2 & _ & (_ & Hm & Hfr) & Hcase).
    rewrite HP in HP2. injection HP2 as _ <-. split; [| exact Hm].
    intros id'. destruct (decide (id' = id)) as [-> | Hne].
    + specialize (Hcons id). unfold openCount in *. simpl in Hcase.
      destruct (isUp (stateOf w id)) eqn:Eup; simpl in Hcase.
      * destruct (_ >=? T).
        -- destruct Hcase as (Hst & t & _ & _ & _ & _ & ->).
           rewrite (stateOf_Some _ _ _ Hst). simpl.
           rewrite filter_app, length_app. simpl. lia.
        -- destruct Hcase as (-> & Hst & _).
           rewrite (stateOf_Some _ _ _ Hst). simpl. exact Hcons.
      * destruct Hcase as (-> & Hcase).
        destruct (R >? 0); [destruct (_ >=? R) |];
          destruct Hcase as (Hst & _); rewrite (stateOf_Some _ _ _ Hst); simpl;
          exact Hcons.
    + destruct (Hfr id' Hne) as (Hs & Hi).
      unfold openCount. rewrite Hi, (stateOf_frame _ _ _ Hs). apply Hcons.
Qed.

(** What the first loop of [syncMonitors] does to the analyzer: it only
    removes states, and only of loops that are no longer desired. *)
Lemma stop_loop_analyzer desired (s : Scheduler) (m : gmap string config.Monitor) :
  let r := map_fold (stopStep desired) s m in
  histMgr (analyzer r) = histMgr (analyzer s)
  /\ forall id,
       states (analyzer r) !! id = states (analyzer s) !! id
       \/ (states (analyzer r) !! id = None
           /\ is_Some (m !! id) /\ desired !! id = None).
Proof.
  apply (map_fold_weak_ind
           (fun r m =>
              histMgr (analyzer r) = histMgr (analyzer s)
              /\ forall id,
                   states (analyzer r) !! id = states (analyzer s) !! id
                   \/ (states (analyzer r) !! id = None
                       /\ is_Some (m !! id) /\ desired !! id = None))).
  - split; [reflexivity |]. intros id. left. reflexivity.
  - intros i x m' r Hfresh (Hh & Hst). unfold stopStep.
    destruct (desired !! i) as [dm |] eqn:Ed.
    + assert (Hkeep : forall id,
                 states (analyzer r) !! id = states (analyzer s) !! id
                 \/ (states (analyzer r) !! id = None
                     /\ is_Some (<[i:=x]> m' !! id) /\ desired !! id = None)).
      { intros id. destruct (Hst id) as [H | (H1 & H2 & H3)]; [left; exact H |].
        right. repeat split; try assumption.
        destruct (decide (i = id)) as [-> | Hne].
        - rewrite lookup_insert_eq. eauto.
        - rewrite lookup_insert_ne by done. exact H2. }
      destruct (decide (x = dm)); simpl; split; assumption.
    + simpl. split; [exact Hh |]. intros id.
      destruct (decide (i = id)) as [-> | Hne].
      * right. rewrite lookup_delete_eq, lookup_insert_eq. eauto.
      * rewrite lookup_delete_ne by done.
        destruct (Hst id) as [H | (H1 & H2 & H3)]; [left; exact H |].
        right. rewrite lookup_insert_ne by done. auto.
Qed.

Lemma start_loop_analyzer (s : Scheduler) (m : gmap string config.Monitor) :
  analyzer (map_fold startStep s m) = analyzer s.
Proof.
  apply (map_fold_weak_ind (fun r _ => analyzer r = analyzer s)).
  - reflexivity.
  - intros i x m' r _ IH. unfold startStep, startMonitor.
    destruct (running r !! i); simpl; exact IH.
Qed.

Lemma syncMonitors_analyzer cfg s :
  histMgr (analyzer (syncMonitors cfg s)) = histMgr (analyzer s)
  /\ forall id,
       states (analyzer (syncMonitors cfg s)) !! id = states (analyzer s) !! id
       \/ (states (analyzer (syncMonitors cfg s)) !! id = None
           /\ is_Some (running s !! id) /\ desiredOf cfg !! id = None).
Proof.
  unfold syncMonitors. rewrite start_loop_analyzer. apply stop_loop_analyzer.
Qed.

Lemma exec_consistent op s s' :
  0 <= storage.maxHistoryPts (histMgr (analyzer s)) ->
  consistent (analyzer s) ->
  guarded op s ->
  exec op s = Some s' ->
  consistent (analyzer s')
  /\ storage.maxHistoryPts (histMgr (analyzer s')) =
     storage.maxHistoryPts (histMgr (analyzer s)).
Proof.
  intros Hmax Hcons Hg Hex. destruct op as [cfg | m r | id |]; simpl in Hex.
  - injection Hex as <-.
    destruct (syncMonitors_analyzer cfg s) as (Hh & Hst).
    split; [| rewrite Hh; reflexivity].
    intros id. unfold openCount. rewrite Hh.
    destruct (Hst id) as [H | (H1 & H2 & H3)].
    + rewrite (stateOf_frame _ _ _ H). apply Hcons.
    + unfold stateOf. rewrite H1. simpl.
      pose proof (Hg id H2 H3) as H0. unfold openCount in H0. lia.
  - unfold runProbe in Hex.
    destruct (Process _ _ _ _ _ r (analyzer s)) as [[res w'] |] eqn:HP; [| discriminate].
    injection Hex as <-. simpl.
    exact (Process_consistent _ _ _ _ _ _ _ _ _ Hmax Hcons HP).
  - injection Hex as <-. simpl. split; [| reflexivity].
    intros id'. unfold openCount, stateOf, storage.incidentsOf. simpl.
    destruct (decide (id = id')) as [-> | Hne].
    + rewrite lookup_delete_eq. simpl. lia.
    + rewrite lookup_delete_ne by done. apply Hcons.
  - unfold histDump, bind, now, emit in Hex. simpl in Hex.
    injection Hex as <-. simpl. split; [| reflexivity].
    intros id'. apply Hcons.
Qed.

Lemma Process_countsInRange id name tgt T R r w res w' :
  0 <= storage.maxHistoryPts (histMgr w) ->
  R <= Int64.max64 ->
  countsInRange w ->
  Process id name tgt T R r w = Some (res, w') ->
  countsInRange w'
  /\ storage.maxHistoryPts (histMgr w') = storage.maxHistoryPts (histMgr w).
Proof.
  intros Hmax HR Hc HP.
  assert (H : frame id w w' /\ 0 <= reminderCount (stateOf w' id) < Int64.max64).
  { pose proof (Hc id) as Hid.
    destruct (Up r) eqn:Hup.
    - destruct (Process_success id name tgt T R r w Hmax Hup)
        as (w2 & effs & HP2 & _ & Hfr & Hst & _).
      rewrite HP in HP2. injection HP2 as _ <-. split; [exact Hfr |].
      rewrite (stateOf_Some _ _ _ Hst). simpl. unfold Int64.max64. lia.
    - destruct (Process_failure id name tgt T R r w Hmax Hup)
        as (w2 & effs & HP2 & _ & Hfr & Hcase).
      rewrite HP in HP2. injection HP2 as _ <-. split; [exact Hfr |].
      simpl in Hcase.
      rewrite (Int64.add_small (reminderCount (stateOf w id)) 1) in Hcase
        by (unfold Int64.InRange, Int64.min64, Int64.max64 in *; lia).
      destruct (isUp (stateOf w id) && _).
      + destruct Hcase as (Hst & _). rewrite (stateOf_Some _ _ _ Hst). simpl.
        unfold Int64.max64. lia.
      + destruct Hcase as (_ & Hcase).
        destruct (negb (isUp (stateOf w id)) && (R >? 0)).
        * destruct (Z.geb_spec (reminderCount (stateOf w id) + 1) R).
          -- destruct Hcase as (Hst & _). rewrite (stateOf_Some _ _ _ Hst). simpl.
             unfold Int64.max64. lia.
          -- destruct Hcase as (Hst & _). rewrite (stateOf_Some _ _ _ Hst). simpl. lia.
        * destruct Hcase as (Hst & _). rewrite (stateOf_Some _ _ _ Hst). simpl. exact Hid. }
  destruct H as ((_ & Hm & Hfr) & Hid). split; [| exact Hm].
  intros id'. destruct (decide (id' = id)) as [-> | Hne]; [exact Hid |].
  destruct (Hfr id' Hne) as (Hs & _). rewrite (stateOf_frame _ _ _ Hs). apply Hc.
Qed.

Lemma exec_countsInRange op s s' :
  0 <= storage.maxHistoryPts (histMgr (analyzer s)) ->
  intCadence op ->
  countsInRange (analyzer s) ->
  exec op s = Some s' ->
  countsInRange (analyzer s')
  /\ storage.maxHistoryPts (histMgr (analyzer s')) =
     storage.maxHistoryPts (histMgr (analyzer s)).
Proof.
  intros Hmax Hop Hc Hex. destruct op as [cfg | m r | id |]; simpl in Hex.
  - injection Hex as <-.
    destruct (syncMonitors_analyzer cfg s) as (Hh & Hst).
    split; [| rewrite Hh; reflexivity].
    intros id. destruct (Hst id) as [H | (H1 & _)].
    + rewrite (stateOf_frame _ _ _ H). apply Hc.
    + unfold stateOf. rewrite H1. simpl. unfold Int64.max64. lia.
  - unfold runProbe in Hex.
    destruct (Process _ _ _ _ _ r (analyzer s)) as [[res w'] |] eqn:HP; [| discriminate].
    injection Hex as <-. simpl.
    exact (Process_countsInRange _ _ _ _ _ _ _ _ _ Hmax Hop Hc HP).
  - injection Hex as <-. simpl. split; [| reflexivity]. exact Hc.
  - unfold histDump, bind, now, emit in Hex. simpl in Hex.
    injection Hex as <-. simpl. split; [| reflexivity]. exact Hc.
Qed.

(** In every state the engine reaches from its start, whatever is
    reconfigured on the way, every reminder counter is non-negative and
    below the largest [int]: it is zero or below a cadence. *)
Lemma reachable_countsInRange (ops : list Op) (s0 s : Scheduler) :
  0 <= storage.maxHistoryPts (histMgr (analyzer s0)) ->
  countsInRange (analyzer s0) ->
  Forall intCadence ops ->
  execAll ops s0 = Some s ->
  countsInRange (analyzer s).
Proof.
  revert s0. induction ops as [| op ops IH]; intros s0 Hmax Hc Hall Hex; simpl in Hex.
  - injection Hex as <-. exact Hc.
  - apply Forall_cons in Hall as [Hop Hall].
    destruct (exec op s0) as [s1 |] eqn:E; [| discriminate].
    destruct (exec_countsInRange op s0 s1 Hmax Hop Hc E) as [Hc1 Hm1].
    apply (IH s1); [lia | exact Hc1 | exact Hall | exact Hex].
Qed.

(** C7 (amended): from a state in which analyzer states and incident lists
    agree, every run of probe results, dumps, history deletions and guarded
    reconciliations (the analyzer state of a target is dropped only while
    the target has no open incident) leads to a state in which every target
    has at most one open incident. *)
Theorem C7_one_open_incident (ops : list Op) (s0 s : Scheduler) :
  0 <= storage.maxHistoryPts (histMgr (analyzer s0)) ->
  consistent (analyzer s0) ->
  guardedRun ops s0 ->
  execAll ops s0 = Some s ->
  forall id, (openCount (analyzer s) id <= 1)%nat.
Proof.
  revert s0. induction ops as [| op ops IH]; intros s0 Hmax Hcons Hg Hex id.
  - injection Hex as <-. specialize (Hcons id).
    destruct (isUp (stateOf (analyzer s0) id)); lia.
  - simpl in Hex, Hg. destruct Hg as (Hg & Hrest).
    destruct (exec op s0) as [s1 |] eqn:E; [| discriminate].
    destruct (exec_consistent op s0 s1 Hmax Hcons Hg E) as (Hcons1 & Hm1).
    apply (IH s1); try assumption. lia.
Qed.

(** Only reconciliations carry a guard. *)
Lemma guardedRun_no_sync ops :
  Forall (fun op => isSync op = false) ops -> forall s, guardedRun ops s.
Proof.
  induction 1 as [| op ops Hop _ IH]; intros s; simpl; [exact I |].
  split.
  - destruct op; try exact I. discriminate Hop.
  - destruct (exec op s); [apply IH | exact I].
Qed.

(** The claim C7 as stated fails: pausing a target that is down drops its
    analyzer state and keeps its open incident; resumed and still failing,
    the target opens a second one. *)
Lemma C7_two_open_incidents :
  ~ (forall ops s id,
       execAll ops (initScheduler exampleClock 1440) = Some s ->
       (openCount (analyzer s) id <= 1)%nat).
Proof.
  intros H.
  assert (Hc : match execAll pauseResume (initScheduler exampleClock 1440) with
               | Some s => openCount (analyzer s) "a"
               | None => 0%nat
               end = 2%nat) by (vm_compute; reflexivity).
  destruct (execAll pauseResume (initScheduler exampleClock 1440)) as [s |] eqn:E;
    [| discriminate Hc].
  specialize (H pauseResume s "a" E). lia.
Qed.

Lemma C7_witness :
  (openCount
     (analyzer
        (default (initScheduler exampleClock 1440)
           (execAll [ OpSync (exampleConfig [exampleMonitor None]);
                      OpProbe (exampleMonitor None) failedProbe;
                      OpProbe (exampleMonitor None) failedProbe ]
              (initScheduler exampleClock 1440)))) "a" <= 1)%nat.
Proof.
  assert (Hsome : match execAll [ OpSync (exampleConfig [exampleMonitor None]);
                                  OpProbe (exampleMonitor None) failedProbe;
                                  OpProbe (exampleMonitor None) failedProbe ]
                          (initScheduler exampleClock 1440) with
                  | Some _ => true
                  | None => false
                  end = true) by (vm_compute; reflexivity).
  destruct (execAll [ OpSync (exampleConfig [exampleMonitor None]);
                      OpProbe (exampleMonitor None) failedProbe;
                      OpProbe (exampleMonitor None) failedProbe ]
              (initScheduler exampleClock 1440)) as [s |] eqn:E;
    [| discriminate Hsome].
  simpl.
  apply (C7_one_open_incident
           [ OpSync (exampleConfig [exampleMonitor None]);
             OpProbe (exampleMonitor None) failedProbe;
             OpProbe (exampleMonitor None) failedProbe ]
           (initScheduler exampleClock 1440) s).
  - simpl. lia.
  - intros id. unfold openCount, stateOf, storage.incidentsOf. simpl.
    rewrite !lookup_empty. simpl. lia.
  - split; [intros id [x Hx]; discriminate Hx |].
    change (guardedRun [ OpProbe (exampleMonitor None) failedProbe;
                         OpProbe (exampleMonitor None) failedProbe ]
              (syncMonitors (exampleConfig [exampleMonitor None])
                 (initScheduler exampleClock 1440))).
    apply guardedRun_no_sync. repeat constructor.
  - exact E.
Defined.

(** C10: for a kind other than "http", "tcp" and "ping" the factory builds
    the HTTP prober with [IgnoreTLS] false whatever the flag, so its requests
    verify certificates; the flag reaches the prober for the kind "http"
    only. *)
Theorem C10_unknown_kind_verifies_tls (monitorType : string) (ignoreTLS : bool) :
  monitorType <> "http" -> monitorType <> "tcp" -> monitorType <> "ping" ->
  NewProber monitorType ignoreTLS = HTTPProber false
  /\ probeTLSConfig (NewProber monitorType ignoreTLS) =
       Some {| InsecureSkipVerify := false |}
  /\ NewProber "http" ignoreTLS = HTTPProber ignoreTLS.
Proof.
  intros Hhttp Htcp Hping. unfold NewProber.
  apply String.eqb_neq in Hhttp, Htcp, Hping.
  rewrite Hhttp, Htcp, Hping. repeat split.
Qed.

Lemma C10_witness :
  NewProber "https" true = HTTPProber false
  /\ probeTLSConfig (NewProber "https" true) = Some {| InsecureSkipVerify := false |}
  /\ NewProber "http" true = HTTPProber true.
Proof.
  apply (C10_unknown_kind_verifies_tls "https" true); discriminate.
Defined.

End monitor_facts.

(** ** Sharing between the store and its callers *)

Module aliasing_facts.
Import aliasing.

Lemma GetMonitor_view id hm :
  storage.GetMonitor id (abs hm) = view (heap hm) <$> GetMonitor id hm.
Proof.
  unfold storage.GetMonitor, GetMonitor, abs, storage.incidentsOf. simpl.
  rewrite !lookup_fmap.
  destruct (monitors hm !! id) as [h |]; simpl; [| reflexivity].
  unfold view. simpl. destruct (incidents hm !! id); reflexivity.
Qed.

Lemma readSlice_lookup {A} (arrays : gmap nat (list A)) (s : slice) (i : nat) :
  (i < len s)%nat ->
  readSlice arrays (Some s) !! i = default [] (arrays !! arr s) !! (off s + i)%nat.
Proof.
  intros Hi. unfold readSlice. rewrite lookup_take_lt by exact Hi.
  apply lookup_drop.
Qed.

Lemma readSlice_insert {A} (arrays : gmap nat (list A)) (s : slice) (i : nat) (x : A) :
  (i < len s)%nat ->
  readSlice (<[arr s := <[(off s + i)%nat := x]> (default [] (arrays !! arr s))]> arrays)
            (Some s)
  = <[i := x]> (readSlice arrays (Some s)).
Proof.
  intros Hi. unfold readSlice. rewrite lookup_insert_eq. simpl.
  rewrite drop_insert_ge by lia.
  replace (off s + i - off s)%nat with i by lia.
  apply take_insert_lt. exact Hi.
Qed.

(** The loop on the array computes what the loop on the value computes. *)
Lemma resolveLatest_refines now arrays s n :
  inBounds arrays s -> (n <= len s)%nat ->
  readSlice (resolveLatest now s n arrays) (Some s) =
  storage.resolveLatest now (readSlice arrays (Some s)) n.
Proof.
  intros Hb. induction n as [| n IH]; intros Hn; [reflexivity |].
  cbn [resolveLatest storage.resolveLatest].
  rewrite readSlice_lookup by lia.
  destruct (default [] (arrays !! arr s) !! (off s + n)%nat) as [inc |] eqn:E.
  - destruct (storage.ResolvedAt inc).
    + apply IH. lia.
    + apply readSlice_insert. lia.
  - reflexivity.
Qed.

Lemma RecordUp_incidents_refine now id hm s :
  incidents hm !! id = Some s ->
  inBounds (incArrays (heap hm)) s ->
  storage.incidentsOf (abs (RecordUp now id hm)) id =
  storage.incidentsOf (storage.RecordUp now id (abs hm)) id.
Proof.
  intros Hs Hb.
  rewrite storage_facts.RecordUp_incidents. rewrite decide_True by reflexivity.
  unfold storage.incidentsOf, abs, RecordUp.
  cbn [storage.incidents incidents heap incArrays].
  rewrite !lookup_fmap, lookup_insert_eq, Hs.
  cbn [fmap option_fmap option_map default from_option]. unfold Datatypes.id.
  rewrite resolveLatest_refines by (auto; lia).
  f_equal. unfold readSlice. rewrite length_take, length_drop.
  unfold inBounds in Hb. lia.
Qed.

(** C9, on the store [loaded]: the value [GetMonitor] returns shares the
    backing arrays of the store.  Through the value returned before, the
    incident reads as open at first and as resolved once [RecordUp] has run;
    and a write of the caller through the returned latency slice changes the
    latency sequence of the store. *)
Theorem C9_returned_copy_shares_storage :
  exists v,
    GetMonitor "a" loaded = Some v
    /\ storage.Incidents (view (heap loaded) v) = [storage.oldOpen]
    /\ storage.Incidents (view (heap (RecordUp 1700000600 "a" loaded)) v)
         = [storage.resolve 1700000600 storage.oldOpen]
    /\ exists hm',
         setLatency v 0 overwritten loaded = Some hm'
         /\ storage.latencyOf (abs loaded) "a" <> storage.latencyOf (abs hm') "a"
         /\ storage.latencyOf (abs hm') "a" = [overwritten].
Proof.
  eexists. split; [reflexivity |].
  split; [reflexivity |]. split; [reflexivity |].
  eexists. split; [reflexivity |]. split; [| reflexivity].
  vm_compute. discriminate.
Qed.

End aliasing_facts.

(** ** Sharing between the live configuration and its copies *)

Module sharing_facts.
Import aliasing sharing.

Section Facts.

Variable detectTimezone : string.
Variable generateID : nat -> string.
Variable rangeOrder : nat -> gmap string config.ContactGroup
                      -> list (string * config.ContactGroup).
Variable urlScheme : string -> option string.
Variable showInt : Z -> string.
Variable quote : string -> string.
Variable spare : nat -> nat -> nat.

Local Abbreviation ApplyDefaults := (ApplyDefaults detectTimezone generateID rangeOrder spare).
Local Abbreviation Save :=
  (Save detectTimezone generateID rangeOrder urlScheme showInt quote spare).
Local Abbreviation UpdateMonitor :=
  (UpdateMonitor detectTimezone generateID rangeOrder urlScheme showInt quote spare).
Local Abbreviation Validate := (config.Validate urlScheme showInt quote).
Local Abbreviation validationErrors := (config.validationErrors urlScheme showInt quote).

(** [ApplyDefaults] leaves the monitor arrays and the monitor slice alone. *)
Lemma ApplyDefaults_leaves_monitors c h :
  monitorArrays (snd (ApplyDefaults c h)) = monitorArrays h
  /\ Monitors (fst (ApplyDefaults c h)) = Some (default emptySlice (Monitors c))
  /\ System (fst (ApplyDefaults c h)) = config.defaultSystem detectTimezone (System c).
Proof.
  unfold sharing.ApplyDefaults.
  destruct (ContactGroups c) as [a |]; simpl;
    destruct (foldl _ _ _) as [[groups1 ns1] arrays1]; simpl; auto.
Qed.

Lemma sharing_readSlice_default {A} (arrays : gmap nat (list A)) (s : option slice) :
  readSlice arrays (Some (default emptySlice s)) = readSlice arrays s.
Proof. destruct s; reflexivity. Qed.

Lemma findMonitor_lookup ms id idx :
  findMonitor ms id = Some idx -> exists old, ms !! idx = Some old /\ config.ID old = id.
Proof.
  revert idx. induction ms as [| m ms IH]; intros idx H; simpl in H; [discriminate |].
  destruct (String.eqb_spec (config.ID m) id) as [E | _].
  - injection H as <-. eauto.
  - destruct (findMonitor ms id) as [j |]; simpl in H; [| discriminate].
    injection H as <-. apply (IH j eq_refl).
Qed.

Lemma Validate_CheckInterval (c : config.Config) :
  Validate c = None -> 5 <= config.CheckInterval (config.System c).
Proof.
  unfold config.Validate, config.validationErrors. intros H.
  destruct (config.CheckInterval (config.System c) <? 5) eqn:E.
  - simpl in H. discriminate H.
  - apply Z.ltb_ge. exact E.
Qed.

(** A monitor whose timeout is not below its effective interval makes
    [Validate] fail, with an error that names the timeout. *)
Lemma Validate_timeout (c : config.Config) (i : nat) (mon : config.Monitor) :
  config.Monitors c !! i = Some mon ->
  config.Timeout mon >= config.effectiveInterval c mon ->
  exists msg,
    Validate c = Some (config.renderErrors (validationErrors c))
    /\ msg ∈ validationErrors c
    /\ let prefix := "monitors[" +:+ showInt (Z.of_nat i) +:+ "]" in
       msg = if config.Timeout mon <=? 0 then prefix +:+ ".timeout must be > 0"
             else prefix +:+ ".timeout (" +:+ showInt (config.Timeout mon)
                    +:+ ") must be < interval ("
                    +:+ showInt (config.effectiveInterval c mon) +:+ ")".
Proof.
  intros Hl Hto.
  set (prefix := "monitors[" +:+ showInt (Z.of_nat i) +:+ "]").
  assert (Hmsg : exists msg,
             config.timeoutErrors showInt c prefix mon = [msg]
             /\ msg = if config.Timeout mon <=? 0 then prefix +:+ ".timeout must be > 0"
                      else prefix +:+ ".timeout (" +:+ showInt (config.Timeout mon)
                             +:+ ") must be < interval ("
                             +:+ showInt (config.effectiveInterval c mon) +:+ ")").
  { unfold config.timeoutErrors. destruct (config.Timeout mon <=? 0); [eauto |].
    replace (config.Timeout mon >=? config.effectiveInterval c mon) with true; [eauto |].
    symmetry. rewrite Z.geb_leb. apply Z.leb_le. lia. }
  destruct Hmsg as (msg & Hte & Hmsg).
  assert (Hin : msg ∈ validationErrors c).
  { destruct (config_facts.monitorsErrors_lookup urlScheme showInt quote
                c (config.Monitors c) ∅ 0%nat i mon Hl) as (seen' & Hsub).
    unfold config.validationErrors.
    repeat (apply elem_of_app; right).
    apply Hsub. simpl. apply config_facts.timeoutErrors_in_monitorErrors.
    fold prefix. rewrite Hte. apply list_elem_of_singleton. reflexivity. }
  exists msg. split; [| split; [exact Hin | exact Hmsg]].
  unfold config.Validate.
  destruct (validationErrors c) as [| e errs] eqn:E.
  - apply not_elem_of_nil in Hin. contradiction.
  - reflexivity.
Qed.

(** *** What the struct and the memory show after [ApplyDefaults] *)

Lemma inBounds_length {A} (arrays : gmap nat (list A)) (s : slice) :
  inBounds arrays s -> length (readSlice arrays (Some s)) = len s.
Proof.
  unfold inBounds, readSlice. intros H. rewrite length_take, length_drop. lia.
Qed.

Lemma splice_view {A} (pre mid post xs : list A) :
  (length xs <= length post)%nat ->
  let a := pre ++ mid ++ post in
  let a' := take (length pre + length mid) a ++ xs
            ++ drop (length pre + (length mid + length xs)) a in
  length a' = length a
  /\ take (length mid + length xs) (drop (length pre) a') = mid ++ xs.
Proof.
  intros Hxs a a'. subst a a'.
  assert (Ht : take (length pre + length mid) (pre ++ mid ++ post) = pre ++ mid).
  { rewrite app_assoc. apply take_app_length'. rewrite length_app. reflexivity. }
  rewrite Ht, (drop_app_add pre), (drop_app_add mid).
  split.
  - rewrite !length_app, length_drop. lia.
  - rewrite <- !app_assoc, (drop_app_length pre).
    rewrite (app_assoc mid xs).
    apply take_app_length'. rewrite length_app. reflexivity.
Qed.

Lemma slice_split {A} (a : list A) (o l : nat) :
  (o + l <= length a)%nat ->
  a = take o a ++ take l (drop o a) ++ drop (o + l) a
  /\ length (take o a) = o /\ length (take l (drop o a)) = l.
Proof.
  intros H. split; [| split].
  - rewrite <- (take_drop o a) at 1. f_equal.
    rewrite <- (take_drop l (drop o a)) at 1. f_equal.
    rewrite drop_drop. reflexivity.
  - rewrite length_take. lia.
  - rewrite length_take, length_drop. lia.
Qed.

Lemma append_view (s : slice) xs arrays :
  inBounds arrays s ->
  inBounds (snd (append spare s xs arrays)) (fst (append spare s xs arrays))
  /\ readSlice (snd (append spare s xs arrays)) (Some (fst (append spare s xs arrays)))
     = readSlice arrays (Some s) ++ xs.
Proof.
  intros Hb. pose proof (inBounds_length arrays s Hb) as Hlen.
  assert (Hcap : (capacity arrays s <= length (default [] (arrays !! arr s)) - off s)%nat).
  { unfold capacity. destruct (decide (arr s = 0%nat)); lia. }
  unfold sharing.append. unfold inBounds in Hb.
  set (a := default [] (arrays !! arr s)) in *.
  destruct (decide (len s + length xs <= capacity arrays s)%nat) as [Hfit | Hnofit]; simpl.
  - assert (Hfit' : (len s + length xs <= length a - off s)%nat) by lia.
    unfold inBounds, readSlice. simpl. rewrite lookup_insert_eq. simpl.
    destruct (slice_split a (off s) (len s) Hb) as (Ha & Hpre & Hmid).
    fold a.
    set (pre := take (off s) a) in *. set (mid := take (len s) (drop (off s) a)) in *.
    set (post := drop (off s + len s) a) in *.
    assert (Hpost : (length xs <= length post)%nat).
    { unfold post. rewrite length_drop. lia. }
    destruct (splice_view pre mid post xs Hpost) as [H1 H2].
    rewrite Hpre, Hmid, <- Ha in H1, H2.
    split; [rewrite H1; lia | exact H2].
  - unfold readSlice in Hlen. fold a in Hlen.
    unfold inBounds, readSlice. simpl. rewrite lookup_insert_eq. simpl.
    fold a. split.
    + rewrite !length_app, Hlen. lia.
    + rewrite app_assoc. apply take_app_length'. rewrite length_app, Hlen. reflexivity.
Qed.

(** The loop over the array gives what [config.ensureIDs] gives on the
    list. *)
Lemma ensureIDs_view (s : slice) : forall n i k arrays,
  inBounds arrays s ->
  (i + n = len s)%nat ->
  inBounds (ensureIDs generateID s i n k arrays) s
  /\ readSlice (ensureIDs generateID s i n k arrays) (Some s)
     = take i (readSlice arrays (Some s))
       ++ config.ensureIDs generateID k (drop i (readSlice arrays (Some s))).
Proof.
  induction n as [| n IH]; intros i k arrays Hb Hin;
    pose proof (inBounds_length arrays s Hb) as Hlen.
  - cbn [ensureIDs]. split; [exact Hb |].
    rewrite drop_ge by lia. rewrite take_ge by lia.
    cbn [config.ensureIDs]. rewrite app_nil_r. reflexivity.
  - cbn [ensureIDs].
    assert (Hi : (i < len s)%nat) by lia.
    pose proof (aliasing_facts.readSlice_lookup arrays s i Hi) as Hl.
    assert (Hsome : is_Some (readSlice arrays (Some s) !! i)).
    { apply lookup_lt_is_Some. lia. }
    destruct Hsome as [x Hx]. rewrite Hx in Hl. rewrite <- Hl.
    rewrite (drop_S _ _ _ Hx). cbn [config.ensureIDs].
    destruct (String.eqb (config.nID x) "").
    + set (arrays' := <[arr s := <[(off s + i)%nat := with_nID (generateID k) x]>
                                   (default [] (arrays !! arr s))]> arrays).
      assert (Hb' : inBounds arrays' s).
      { unfold inBounds, arrays'. rewrite lookup_insert_eq. simpl.
        rewrite length_insert. exact Hb. }
      assert (Hr : readSlice arrays' (Some s)
                   = <[i := with_nID (generateID k) x]> (readSlice arrays (Some s))).
      { apply aliasing_facts.readSlice_insert. exact Hi. }
      destruct (IH (S i) (S k) arrays' Hb' ltac:(lia)) as [Hb2 Hv].
      split; [exact Hb2 |]. rewrite Hv, Hr.
      rewrite drop_insert_lt by lia.
      rewrite take_insert_lt by lia.
      rewrite (take_S_r _ _ _ Hx).
      rewrite insert_app_r_alt by (rewrite length_take; lia).
      rewrite length_take.
      replace (i - i `min` length (readSlice arrays (Some s)))%nat with 0%nat by lia.
      simpl. rewrite <- app_assoc. reflexivity.
    + destruct (IH (S i) k arrays Hb ltac:(lia)) as [Hb2 Hv].
      split; [exact Hb2 |]. rewrite Hv.
      rewrite (take_S_r _ _ _ Hx), <- app_assoc. reflexivity.
Qed.

Local Abbreviation valueStep :=
  (fun (acc : gmap string config.ContactGroup * list config.NotifierConfig)
       (kv : string * config.ContactGroup) =>
     let '(gs, ns) := acc in
     let g := snd kv in
     if (0 <? Z.of_nat (length (config.gNotifiers g)))
     then (<[fst kv := {| config.gID := config.gID g; config.gName := config.gName g;
                          config.gNotifiers := [] |}]> gs,
           ns ++ config.gNotifiers g)
     else (gs, ns)).

Lemma migrateStep_view gs ns arrays kv :
  inBounds arrays ns ->
  inBounds (snd (migrateStep spare (gs, ns, arrays) kv))
           (snd (fst (migrateStep spare (gs, ns, arrays) kv)))
  /\ (fst (fst (migrateStep spare (gs, ns, arrays) kv)),
      readSlice (snd (migrateStep spare (gs, ns, arrays) kv))
                (Some (snd (fst (migrateStep spare (gs, ns, arrays) kv)))))
     = valueStep (gs, readSlice arrays (Some ns)) kv.
Proof.
  intros Hb. unfold migrateStep. cbv zeta.
  destruct (0 <? Z.of_nat (length (config.gNotifiers (snd kv)))).
  - destruct (append_view ns (config.gNotifiers (snd kv)) arrays Hb) as [Hb' Hv].
    destruct (append spare ns (config.gNotifiers (snd kv)) arrays) as [ns' arrays'].
    cbn [fst snd] in *. split; [exact Hb' |]. rewrite Hv. reflexivity.
  - cbn [fst snd]. split; [exact Hb | reflexivity].
Qed.

Lemma migrate_view kvs : forall gs ns arrays,
  inBounds arrays ns ->
  inBounds (snd (foldl (migrateStep spare) (gs, ns, arrays) kvs))
           (snd (fst (foldl (migrateStep spare) (gs, ns, arrays) kvs)))
  /\ (fst (fst (foldl (migrateStep spare) (gs, ns, arrays) kvs)),
      readSlice (snd (foldl (migrateStep spare) (gs, ns, arrays) kvs))
                (Some (snd (fst (foldl (migrateStep spare) (gs, ns, arrays) kvs)))))
     = foldl valueStep (gs, readSlice arrays (Some ns)) kvs.
Proof.
  induction kvs as [| kv kvs IH]; intros gs ns arrays Hb.
  - cbn [foldl fst snd]. split; [exact Hb | reflexivity].
  - cbn [foldl].
    destruct (migrateStep_view gs ns arrays kv Hb) as [Hb' Hv].
    destruct (migrateStep spare (gs, ns, arrays) kv) as [[gs' ns'] arrays'].
    cbn [fst snd] in Hb', Hv. rewrite <- Hv. apply IH. exact Hb'.
Qed.

(** What the struct and the memory show after [ApplyDefaults] is what
    [config.ApplyDefaults] computes from what they showed before. *)
Lemma ApplyDefaults_view c h :
  wellFormed h c ->
  view (snd (ApplyDefaults c h)) (fst (ApplyDefaults c h))
  = config.ApplyDefaults detectTimezone generateID rangeOrder (view h c).
Proof.
  intros Hwf.
  assert (Hb : inBounds (notifierArrays h) (default emptySlice (Notifiers c))).
  { unfold wellFormed in Hwf. destruct (Notifiers c); simpl; [exact Hwf |].
    unfold inBounds. simpl. lia. }
  unfold sharing.ApplyDefaults, config.ApplyDefaults, config.migrateNotifiers.
  set (ref := match ContactGroups c with
              | Some a => (a, groupMaps h)
              | None => let a := newAddress (groupMaps h) in (a, <[a := ∅]> (groupMaps h))
              end).
  assert (Hg : default ∅ (snd ref !! fst ref) = groupsAt h (ContactGroups c)).
  { unfold ref. destruct (ContactGroups c); cbn [fst snd groupsAt]; [reflexivity |].
    rewrite lookup_insert_eq. reflexivity. }
  destruct ref as [gref m0]. cbn [fst snd] in Hg.
  destruct (migrate_view (rangeOrder 0 (default ∅ (m0 !! gref))) (default ∅ (m0 !! gref))
              (default emptySlice (Notifiers c)) (notifierArrays h) Hb) as [Hb1 Hv].
  destruct (foldl (migrateStep spare) _ _) as [[groups1 ns1] arrays1].
  cbn [fst snd] in Hb1, Hv.
  rewrite sharing_readSlice_default in Hv.
  change (config.Notifiers (view h c)) with (readSlice (notifierArrays h) (Notifiers c)).
  change (config.ContactGroups (view h c)) with (groupsAt h (ContactGroups c)).
  rewrite <- Hg, <- Hv.
  destruct (ensureIDs_view ns1 (len ns1) 0 0 arrays1 Hb1 ltac:(lia)) as [_ He].
  cbn [take drop app] in He.
  unfold view. cbn [fst snd Version System Auth ContactGroups GroupOrder Notifiers Monitors
                    monitorArrays notifierArrays groupMaps groupsAt].
  rewrite lookup_insert_eq. cbn [default from_option]. unfold Datatypes.id.
  rewrite He, sharing_readSlice_default. reflexivity.
Qed.

(** X27: [config.Save] is [Save] read through the views.  Whatever the
    submitted struct shares, and whether [ApplyDefaults] appends in place
    or into a new array: the error [Save] returns is the one [config.Save]
    computes from what the struct shows, and when there is none the
    manager, as it reads afterwards, is the one [config.Save] gives. *)
Theorem Save_view writeErr c m h :
  wellFormed h c ->
  fst (fst (Save writeErr c m h))
  = fst (config.Save detectTimezone generateID rangeOrder urlScheme showInt quote
           writeErr (view h c) (viewManager h m))
  /\ (fst (fst (Save writeErr c m h)) = None ->
      viewManager (snd (Save writeErr c m h)) (snd (fst (Save writeErr c m h)))
      = snd (config.Save detectTimezone generateID rangeOrder urlScheme showInt quote
               writeErr (view h c) (viewManager h m))).
Proof.
  intros Hwf. unfold sharing.Save, config.Save.
  pose proof (ApplyDefaults_view (with_Version config.CurrentConfigVersion c) h Hwf) as Hv.
  destruct (ApplyDefaults (with_Version config.CurrentConfigVersion c) h) as [c2 h2].
  simpl in Hv.
  change (config.with_Version config.CurrentConfigVersion (view h c))
    with (view h (with_Version config.CurrentConfigVersion c)).
  rewrite <- Hv.
  destruct (Validate (view h2 c2)) as [err |]; simpl.
  - split; [reflexivity | discriminate].
  - destruct writeErr as [e |]; simpl.
    + split; [reflexivity | discriminate].
    + split; [reflexivity |]. intros _. reflexivity.
Qed.

(** C8: the path of the monitor page.  When the form gives the monitor a
    timeout that is not below its effective interval, [UpdateMonitor] gets
    the validation error of [Save], which names the timeout, and the
    manager holds the struct it held; but the monitor was written through
    the struct [Get] returned, into the array the live configuration
    reads: what [Get] shows afterwards is the rejected monitor. *)
Theorem C8_rejected_save_changes_live_config (id : string) (form : MonitorForm)
    (writeErr : option string) (m : Manager) (h : Heap) (idx : nat) :
  let live := view h (Get m) in
  let timeout := formInt (fTimeout form) 5 in
  let interval := formInt (fInterval form) (config.CheckInterval (System (Get m))) in
  let effective :=
    if interval <=? 0
    then (if config.CheckInterval (System (Get m)) <=? 0 then 60
          else config.CheckInterval (System (Get m)))
    else interval in
  findMonitor (config.Monitors live) id = Some idx ->
  timeout >= effective ->
  exists old errs msg h',
    config.Monitors live !! idx = Some old
    /\ UpdateMonitor id form writeErr m h
       = Some (SaveFailed (config.renderErrors errs), m, h')
    /\ msg ∈ errs
    /\ (let prefix := "monitors[" +:+ showInt (Z.of_nat idx) +:+ "]" in
        msg = if timeout <=? 0 then prefix +:+ ".timeout must be > 0"
              else prefix +:+ ".timeout (" +:+ showInt timeout
                     +:+ ") must be < interval (" +:+ showInt effective +:+ ")")
    /\ let edited := applyForm form (config.CheckInterval (System (Get m))) old in
       config.Monitors (view h' (Get m)) = <[idx := edited]> (config.Monitors live)
       /\ (edited <> old -> view h' (Get m) <> live)
       /\ (Validate live = None ->
           Validate (view h' (Get m)) <> None /\ view h' (Get m) <> live).
Proof.
  intros live timeout interval effective Hfind Hto.
  destruct (findMonitor_lookup _ _ _ Hfind) as (old & Hold & _).
  exists old. unfold live, view in Hold, Hfind. simpl in Hold, Hfind.
  unfold Get in *.
  destruct (Monitors (cfg m)) as [s |] eqn:Es; [| discriminate Hold].
  assert (Hidx : (idx < len s)%nat).
  { apply lookup_lt_Some in Hold. unfold readSlice in Hold.
    rewrite length_take in Hold. lia. }
  set (edited := applyForm form (config.CheckInterval (System (cfg m))) old).
  set (h1 := {| monitorArrays :=
                  <[arr s := <[(off s + idx)%nat := edited]>
                               (default [] (monitorArrays h !! arr s))]> (monitorArrays h);
                notifierArrays := notifierArrays h;
                groupMaps := groupMaps h |}).
  destruct (ApplyDefaults_leaves_monitors (with_Version config.CurrentConfigVersion (cfg m)) h1)
    as (Harr & Hms & Hsys).
  destruct (ApplyDefaults (with_Version config.CurrentConfigVersion (cfg m)) h1)
    as [c2 h2] eqn:EA.
  simpl in Harr, Hms, Hsys. rewrite Es in Hms. simpl in Hms.
  assert (Hview : forall c, Monitors c = Some s ->
                    config.Monitors (view h2 c)
                    = <[idx := edited]> (readSlice (monitorArrays h) (Some s))).
  { intros c Hc. unfold view. simpl. rewrite Hc, Harr. unfold h1. simpl.
    apply aliasing_facts.readSlice_insert. exact Hidx. }
  assert (Hed : config.Monitors (view h2 c2) !! idx = Some edited).
  { rewrite (Hview c2 Hms). apply list_lookup_insert_eq.
    apply lookup_lt_Some in Hold. exact Hold. }
  assert (Heff : config.effectiveInterval (view h2 c2) edited = effective).
  { unfold config.effectiveInterval, view. simpl. rewrite Hsys. reflexivity. }
  destruct (Validate_timeout (view h2 c2) idx edited Hed) as (msg & HV & Hin & Hmsg).
  { rewrite Heff. exact Hto. }
  assert (Hlive : config.Monitors live = readSlice (monitorArrays h) (Some s)).
  { unfold live, view, Get. simpl. rewrite Es. reflexivity. }
  exists (validationErrors (view h2 c2)), msg, h2.
  split; [rewrite Hlive; exact Hold |]. split.
  { unfold sharing.UpdateMonitor, Get. cbv zeta. rewrite Es, Hfind, Hold.
    unfold writeSlice. rewrite decide_True by exact Hidx.
    fold edited. fold h1. unfold sharing.Save. rewrite EA, HV. reflexivity. }
  split; [exact Hin |]. split.
  { cbv zeta in Hmsg. rewrite Heff in Hmsg. exact Hmsg. }
  cbv zeta. fold edited.
  assert (Hlive' : config.Monitors (view h2 (cfg m)) !! idx = Some edited).
  { rewrite (Hview (cfg m) Es). apply list_lookup_insert_eq.
    apply lookup_lt_Some in Hold. exact Hold. }
  split; [rewrite (Hview (cfg m) Es), Hlive; reflexivity |].
  split.
  - intros Hne Heq. rewrite Heq, Hlive, Hold in Hlive'. congruence.
  - intros Hvalid.
    assert (HnV : Validate (view h2 (cfg m)) <> None).
    { pose proof (Validate_CheckInterval live Hvalid) as Hci.
      destruct (Validate_timeout (view h2 (cfg m)) idx edited Hlive') as (msg' & HV' & _).
      - unfold config.effectiveInterval, view. simpl.
        unfold live, view, Get in Hci. simpl in Hci.
        unfold effective, interval, timeout, edited in *. simpl in *.
        destruct (formInt (fInterval form) (config.CheckInterval (System (cfg m))) <=? 0);
          [| exact Hto].
        destruct (Z.leb_spec (config.CheckInterval (System (cfg m))) 0); [lia | exact Hto].
      - rewrite HV'. discriminate. }
    split; [exact HnV |].
    intros Heq. apply HnV. rewrite Heq. exact Hvalid.
Qed.

End Facts.

(** The scenario of the specification, on the monitor page: the monitor
    has timeout 5 and interval 10 and is saved with timeout 10 and
    interval 10.  The live configuration validated before; what [Get]
    shows afterwards does not. *)
Lemma C8_witness :
  let live := view liveHeap (Get liveManager) in
  config.Validate config.exampleScheme pretty config.exampleQuote live = None
  /\ exists old errs msg h',
       config.Monitors live !! 0%nat = Some old
       /\ UpdateMonitor "UTC" config.exampleID config.exampleOrder config.exampleScheme
            pretty config.exampleQuote noSpare "m1" tenTenForm None liveManager liveHeap
          = Some (SaveFailed (config.renderErrors errs), liveManager, h')
       /\ msg ∈ errs
       /\ msg = "monitors[" +:+ pretty (Z.of_nat 0) +:+ "]"
                +:+ ".timeout (" +:+ pretty 10 +:+ ") must be < interval ("
                +:+ pretty 10 +:+ ")"
       /\ config.Monitors (view h' (Get liveManager))
          = <[0%nat := applyForm tenTenForm 60 old]> (config.Monitors live)
       /\ config.Validate config.exampleScheme pretty config.exampleQuote
            (view h' (Get liveManager)) <> None
       /\ view h' (Get liveManager) <> live.
Proof.
  assert (Hvalid : config.Validate config.exampleScheme pretty config.exampleQuote
                     (view liveHeap (Get liveManager)) = None)
    by (vm_compute; reflexivity).
  split; [exact Hvalid |].
  destruct (C8_rejected_save_changes_live_config "UTC" config.exampleID config.exampleOrder
              config.exampleScheme pretty config.exampleQuote noSpare
              "m1" tenTenForm None liveManager liveHeap 0%nat)
    as (old & errs & msg & h' & Hold & HU & Hin & Hmsg & Hms & _ & Hbad).
  - reflexivity.
  - simpl. lia.
  - exists old, errs, msg, h'. destruct (Hbad Hvalid) as [HnV Hne].
    repeat split; assumption.
Defined.

(** A save of the legacy struct: the notifier of the group is appended in
    place, gets an identifier, and the save succeeds. *)
Lemma Save_view_witness :
  fst (fst (Save "UTC" config.exampleID config.exampleOrder config.exampleScheme
              pretty config.exampleQuote noSpare None legacyStruct liveManager legacyHeap))
  = None
  /\ viewManager
       (snd (Save "UTC" config.exampleID config.exampleOrder config.exampleScheme
               pretty config.exampleQuote noSpare None legacyStruct liveManager legacyHeap))
       (snd (fst (Save "UTC" config.exampleID config.exampleOrder config.exampleScheme
                    pretty config.exampleQuote noSpare None legacyStruct liveManager
                    legacyHeap)))
     = snd (config.Save "UTC" config.exampleID config.exampleOrder config.exampleScheme
              pretty config.exampleQuote None (view legacyHeap legacyStruct)
              (viewManager legacyHeap liveManager)).
Proof.
  destruct (Save_view "UTC" config.exampleID config.exampleOrder config.exampleScheme
              pretty config.exampleQuote noSpare None legacyStruct liveManager legacyHeap)
    as [_ H].
  - vm_compute. lia.
  - assert (E : fst (fst (Save "UTC" config.exampleID config.exampleOrder
                            config.exampleScheme pretty config.exampleQuote noSpare
                            None legacyStruct liveManager legacyHeap)) = None)
      by (vm_compute; reflexivity).
    split; [exact E | exact (H E)].
Defined.

End sharing_facts.

(** * Further properties

    Properties of the code around the claims: validation and the
    configuration manager, persistence and restart of the store, the
    dashboard's helpers, the analyzer across targets and over a whole
    outage, the reconciliation of the scheduler, and the routing of
    alerts. *)

Module config_more.
Import config.

Section Validation.

Variable urlScheme : string -> option string.
Variable showInt : Z -> string.
Variable quote : string -> string.

Local Abbreviation validationErrors := (validationErrors urlScheme showInt quote).
Local Abbreviation monitorsErrors := (monitorsErrors urlScheme showInt quote).
Local Abbreviation monitorErrors := (monitorErrors urlScheme showInt quote).
Local Abbreviation Validate := (Validate urlScheme showInt quote).
Local Abbreviation monitorOK := (monitorOK urlScheme).

Lemma when_nil b msg : when b msg = [] -> b = false.
Proof. destruct b; [discriminate | reflexivity]. Qed.

Lemma eqb_false_ne (s t : string) : String.eqb s t = false -> s <> t.
Proof. apply String.eqb_neq. Qed.

Lemma monitorErrors_nil c seen i m :
  monitorErrors c seen i m = [] -> (ID m ∉ seen) /\ monitorOK c m.
Proof.
  unfold config.monitorErrors. intros H.
  repeat (apply app_eq_nil in H; destruct H as [?H H]).
  repeat match goal with
         | H : when _ _ = [] |- _ => apply when_nil in H
         end.
  unfold targetErrors, timeoutErrors in *.
  destruct (String.eqb (Target m) "") eqn:Et; [discriminate |].
  destruct (Timeout m <=? 0) eqn:Eto; [discriminate |].
  destruct (Timeout m >=? effectiveInterval c m) eqn:Eiv; [discriminate |].
  split.
  { intros Hin. apply bool_decide_eq_false in H1. contradiction. }
  unfold monitorOK.
  split; [apply eqb_false_ne; assumption |].
  split; [apply eqb_false_ne; assumption |].
  split.
  { apply negb_false_iff in H3. unfold validType in H3.
    apply bool_decide_eq_true in H3. exact H3. }
  split; [apply eqb_false_ne; exact Et |].
  split.
  { intros Hhttp. rewrite Hhttp in H4. simpl in H4.
    destruct (urlScheme (Target m)) as [s |]; [| discriminate].
    apply when_nil in H4. apply andb_false_iff in H4.
    destruct H4 as [H4 | H4]; apply negb_false_iff, String.eqb_eq in H4; subst; auto. }
  split.
  { apply andb_false_iff in H5. destruct H5 as [H5 | H5].
    - left. apply negb_false_iff, String.eqb_eq in H5. exact H5.
    - right. apply negb_false_iff, bool_decide_eq_true in H5. exact H5. }
  split.
  { apply Z.leb_gt in Eto. rewrite Z.geb_leb in Eiv. apply Z.leb_gt in Eiv. lia. }
  apply Z.ltb_ge in H7, H8, H. auto.
Qed.

Lemma monitorsErrors_nil c ms : forall seen k,
  monitorsErrors c seen k ms = [] ->
  NoDup (ID <$> ms)
  /\ (forall m, m ∈ ms -> ID m ∉ seen)
  /\ Forall (monitorOK c) ms.
Proof.
  induction ms as [| m ms IH]; intros seen k H; simpl in *.
  - repeat split; [constructor | intros m Hm; inversion Hm | constructor].
  - apply app_eq_nil in H as [Hm Hrest].
    apply monitorErrors_nil in Hm as (Hseen & Hok).
    destruct (IH _ _ Hrest) as (Hnd & Hfresh & Hall).
    split; [| split].
    + constructor; [| exact Hnd].
      intros Hin. apply list_elem_of_fmap in Hin as (m' & Heq & Hm').
      apply (Hfresh m' Hm'). rewrite <- Heq.
      apply elem_of_union. left. apply elem_of_singleton. reflexivity.
    + intros m' Hm'. apply elem_of_cons in Hm' as [-> | Hm']; [exact Hseen |].
      intros Hin. apply (Hfresh m' Hm'). apply elem_of_union. right. exact Hin.
    + constructor; assumption.
Qed.

Lemma Validate_monitors (c : Config) :
  Validate c = None -> Forall (monitorOK c) (Monitors c).
Proof.
  unfold config.Validate. intros H.
  destruct (validationErrors c) eqn:E; [| discriminate].
  unfold config.validationErrors in E.
  repeat (apply app_eq_nil in E; destruct E as [_ E]).
  apply (monitorsErrors_nil c (Monitors c) ∅ 0%nat E).
Qed.

(** X2: A configuration that validates has no two monitors with the same
    identifier. *)
Theorem valid_unique_ids (c : Config) :
  Validate c = None -> NoDup (ID <$> Monitors c).
Proof.
  unfold config.Validate. intros H.
  destruct (validationErrors c) eqn:E; [| discriminate].
  unfold config.validationErrors in E.
  repeat (apply app_eq_nil in E; destruct E as [_ E]).
  apply (monitorsErrors_nil c (Monitors c) ∅ 0%nat E).
Qed.

(** X1: What a configuration that validates is known to satisfy: the system
    bounds, and for every monitor a name, a known type, a target (with an
    http or https scheme for the http type), a known contact group if any,
    a time-out that is positive and below its interval, and no negative
    count. *)
Theorem valid_monitors_ok (c : Config) :
  Validate c = None ->
  5 <= CheckInterval (System c)
  /\ Username (Auth c) <> ""
  /\ LogLevel (System c) ∈ ["debug"; "info"; "warn"; "error"]
  /\ Z.of_nat (length (Monitors c)) <= MaxMonitors (System c)
  /\ Forall (monitorOK c) (Monitors c).
Proof.
  unfold config.Validate. intros H.
  destruct (validationErrors c) eqn:E; [| discriminate].
  unfold config.validationErrors in E.
  repeat (apply app_eq_nil in E; destruct E as [?H E]).
  repeat match goal with
         | H : when _ _ = [] |- _ => apply when_nil in H
         end.
  split; [apply Z.ltb_ge; assumption |].
  split; [apply eqb_false_ne; assumption |].
  split.
  { apply negb_false_iff in H2. unfold validLogLevel in H2.
    apply bool_decide_eq_true in H2. exact H2. }
  split.
  { rewrite Z.gtb_ltb in H3. apply Z.ltb_ge in H3. exact H3. }
  apply (monitorsErrors_nil c (Monitors c) ∅ 0%nat E).
Qed.

End Validation.

Section Managing.

Variable detectTimezone : string.
Variable generateID : nat -> string.
Variable rangeOrder : nat -> gmap string ContactGroup -> list (string * ContactGroup).
Variable urlScheme : string -> option string.
Variable showInt : Z -> string.
Variable quote : string -> string.

Local Abbreviation Validate := (Validate urlScheme showInt quote).
Local Abbreviation ApplyDefaults := (ApplyDefaults detectTimezone generateID rangeOrder).
Local Abbreviation Save := (Save detectTimezone generateID rangeOrder urlScheme showInt quote).
Local Abbreviation DefaultConfig := (DefaultConfig detectTimezone).

(** X3: Defaults: every number of the system settings is positive afterwards,
    and a positive one is kept. *)
Theorem ApplyDefaults_system_positive (c : Config) :
  let s := System (ApplyDefaults c) in
  1 <= CheckInterval s /\ 1 <= MaxHistoryPoints s /\ 1 <= DumpInterval s
  /\ 1 <= SessionTTL s /\ 1 <= MaxMonitors s
  /\ BindAddress s <> "" /\ LogLevel s <> ""
  /\ (0 < CheckInterval (System c) -> CheckInterval s = CheckInterval (System c))
  /\ (0 < MaxHistoryPoints (System c) -> MaxHistoryPoints s = MaxHistoryPoints (System c))
  /\ Monitors (ApplyDefaults c) = Monitors c.
Proof.
  unfold config.ApplyDefaults. destruct (migrateNotifiers _ _ _) as [gs ns]. simpl.
  unfold orDefaultZ, orDefaultS.
  repeat match goal with
         | |- context [?x <=? 0] => destruct (Z.leb_spec x 0)
         | |- context [String.eqb ?x ""] =>
             let E := fresh "E" in destruct (String.eqb x "") eqn:E;
             [| apply String.eqb_neq in E]
         end;
    repeat split; try lia; try discriminate; try assumption.
Qed.

Lemma Save_cases writeErr c m :
  (exists e, Save writeErr c m = (Some e, m))
  \/ (Validate (ApplyDefaults (with_Version CurrentConfigVersion c)) = None
      /\ writeErr = None
      /\ Save writeErr c m =
           (None, {| cfg := ApplyDefaults (with_Version CurrentConfigVersion c);
                     file := Some (ApplyDefaults (with_Version CurrentConfigVersion c));
                     subs := (fun _ => true) <$> subs m |})).
Proof.
  unfold config.Save.
  destruct (Validate _) as [e |]; [left; eauto |].
  destruct writeErr as [e |]; [left; eauto |]. right. auto.
Qed.

(** X5: A [Save] without error installs the defaulted configuration, which
    validates, records it as written and signals every subscriber. *)
Theorem Save_success_installs writeErr c m m' :
  Save writeErr c m = (None, m') ->
  cfg m' = ApplyDefaults (with_Version CurrentConfigVersion c)
  /\ Validate (cfg m') = None
  /\ Version (cfg m') = CurrentConfigVersion
  /\ file m' = Some (cfg m')
  /\ subs m' = replicate (length (subs m)) true.
Proof.
  intros H. destruct (Save_cases writeErr c m) as [(e' & He) | (Hv & _ & He)];
    rewrite He in H; [discriminate |]. injection H as <-. simpl.
  repeat split; try assumption.
  - unfold config.ApplyDefaults. destruct (migrateNotifiers _ _ _). reflexivity.
  - clear He. induction (subs m) as [| b l IH]; [reflexivity |]. simpl. f_equal. exact IH.
Qed.

Lemma DefaultConfig_valid : Validate DefaultConfig = None.
Proof. reflexivity. Qed.

End Managing.

Lemma valid_unique_ids_witness : NoDup (ID <$> Monitors twoMonitorConfig).
Proof.
  apply (valid_unique_ids exampleScheme pretty exampleQuote twoMonitorConfig).
  vm_compute. reflexivity.
Defined.

Lemma valid_monitors_ok_witness :
  5 <= CheckInterval (System fiveTenConfig)
  /\ Username (Auth fiveTenConfig) <> ""
  /\ LogLevel (System fiveTenConfig) ∈ ["debug"; "info"; "warn"; "error"]
  /\ Z.of_nat (length (Monitors fiveTenConfig)) <= MaxMonitors (System fiveTenConfig)
  /\ Forall (monitorOK exampleScheme fiveTenConfig) (Monitors fiveTenConfig).
Proof.
  apply (valid_monitors_ok exampleScheme pretty exampleQuote fiveTenConfig).
  vm_compute. reflexivity.
Defined.

Lemma Save_success_installs_witness :
  cfg savedManager =
    ApplyDefaults "UTC" exampleID exampleOrder (with_Version CurrentConfigVersion fiveTenConfig)
  /\ Validate exampleScheme pretty exampleQuote (cfg savedManager) = None
  /\ Version (cfg savedManager) = CurrentConfigVersion
  /\ file savedManager = Some (cfg savedManager)
  /\ subs savedManager = replicate (length (subs liveManager)) true.
Proof.
  apply (Save_success_installs "UTC" exampleID exampleOrder exampleScheme pretty
           exampleQuote None fiveTenConfig liveManager savedManager).
  vm_compute. reflexivity.
Defined.

End config_more.

Module storage_more.
Import storage storage_facts.

(** X7: An incident opened and then resolved: the list gains exactly that
    incident, resolved, with the time between the two calls as duration. *)
Theorem RecordDown_then_RecordUp (tDown tUp : Z) (id reason : string) (hm : HistoryManager) :
  Forall monitor.resolved (incidentsOf hm id) ->
  incidentsOf (RecordUp tUp id (RecordDown tDown id reason hm)) id =
    incidentsOf hm id ++
      [ {| Type_ := "down"; StartedAt := tDown; ResolvedAt := Some tUp;
           Duration := Int64.sub tUp tDown; Reason := reason |} ]
  /\ forall id', id' <> id ->
       incidentsOf (RecordUp tUp id (RecordDown tDown id reason hm)) id' = incidentsOf hm id'.
Proof.
  intros Hres. split.
  - rewrite RecordUp_incidents, decide_True by reflexivity.
    rewrite RecordDown_incidents, decide_True by reflexivity.
    rewrite (monitor_facts.resolveLatest_last_open tUp (incidentsOf hm id) _ []);
      [reflexivity | reflexivity | constructor].
  - intros id' Hne.
    rewrite RecordUp_incidents, decide_False by congruence.
    rewrite RecordDown_incidents, decide_False by congruence. reflexivity.
Qed.

(** X8: [RemoveMonitor] forgets the target, and only it. *)
Theorem RemoveMonitor_forgets (now : Z) (id : string) (hm : HistoryManager) :
  GetMonitor id (RemoveMonitor id hm) = None
  /\ incidentsOf (RemoveMonitor id hm) id = []
  /\ iMonitors (dumpIncidents now (RemoveMonitor id hm)) !! id = None
  /\ Monitors (dumpHistory now (RemoveMonitor id hm)) !! id = None
  /\ forall id', id' <> id ->
       GetMonitor id' (RemoveMonitor id hm) = GetMonitor id' hm
       /\ incidentsOf (RemoveMonitor id hm) id' = incidentsOf hm id'.
Proof.
  unfold GetMonitor, incidentsOf, RemoveMonitor, dumpIncidents, dumpHistory. simpl.
  rewrite !lookup_delete_eq. simpl.
  split; [reflexivity |]. split; [reflexivity |].
  split.
  { apply map_lookup_filter_None. left. rewrite lookup_fmap, lookup_delete_eq. reflexivity. }
  split; [rewrite lookup_fmap, lookup_delete_eq; reflexivity |].
  intros id' Hne. rewrite !lookup_delete_ne by congruence. auto.
Qed.

Lemma dumpIncidents_lookup_exact now hm id :
  iMonitors (dumpIncidents now hm) !! id =
  if decide (keptAt now (incidentsOf hm id) = []) then None
  else Some (keptAt now (incidentsOf hm id)).
Proof.
  destruct (iMonitors (dumpIncidents now hm) !! id) as [incs |] eqn:E.
  - apply dumpIncidents_lookup in E as (-> & Hne & _).
    fold (keptAt now (incidentsOf hm id)) in *.
    rewrite decide_False by exact Hne. reflexivity.
  - destruct (decide (keptAt now (incidentsOf hm id) = [])) as [Hnil | Hne]; [reflexivity |].
    assert (Hl : iMonitors (dumpIncidents now hm) !! id = Some (keptAt now (incidentsOf hm id))).
    { apply dumpIncidents_lookup. split; [reflexivity |]. split; [exact Hne |].
      unfold incidentsOf in Hne |- *. destruct (incidents hm !! id); [eauto |].
      contradiction Hne. reflexivity. }
    congruence.
Qed.

(** X9: The incident document of [Dump]: per target the kept incidents, in
    their order; no key for a target without any.  An incident is kept
    exactly when it is unresolved or started no more than 30 days before. *)
Theorem dump_incidents_exact (now : Z) (hm : HistoryManager) (id : string) :
  iMonitors (dumpIncidents now hm) !! id =
    (if decide (keptAt now (incidentsOf hm id) = []) then None
     else Some (keptAt now (incidentsOf hm id)))
  /\ keptAt now (incidentsOf hm id) `sublist_of` incidentsOf hm id
  /\ forall inc,
       inc ∈ keptAt now (incidentsOf hm id) <->
       inc ∈ incidentsOf hm id
       /\ (Int64.sub now incidentRetentionSeconds <= StartedAt inc \/ ResolvedAt inc = None).
Proof.
  split; [apply dumpIncidents_lookup_exact |].
  split; [apply sublist_filter |].
  intros inc. unfold keptAt. rewrite list_elem_of_filter. unfold keepIncident.
  rewrite orb_true_iff, Z.geb_leb, Z.leb_le, bool_decide_eq_true. tauto.
Qed.

Lemma keptAt_idem now l : keptAt now (keptAt now l) = keptAt now l.
Proof.
  unfold keptAt. induction l as [| x l IH]; [reflexivity |].
  rewrite filter_cons. case_decide as Hx.
  - rewrite filter_cons_True by exact Hx. f_equal. exact IH.
  - exact IH.
Qed.

(** X10: Dumping what was dumped and loaded again, at the same time, writes
    the same incident document. *)
Theorem dump_load_dump (now : Z) (hm hm0 : HistoryManager) :
  dumpIncidents now (loadIncidents (dumpIncidents now hm) hm0) = dumpIncidents now hm.
Proof.
  assert (H : iMonitors (dumpIncidents now (loadIncidents (dumpIncidents now hm) hm0))
              = iMonitors (dumpIncidents now hm)).
  { apply map_eq. intros id. rewrite !dumpIncidents_lookup_exact.
    rewrite incidentsOf_loadIncidents, dumpIncidents_lookup_exact.
    destruct (decide (keptAt now (incidentsOf hm id) = [])) as [E | NE]; simpl.
    - reflexivity.
    - rewrite keptAt_idem. rewrite decide_False by exact NE. reflexivity. }
  unfold dumpIncidents in *. simpl in *. f_equal. exact H.
Qed.

(** X11: Restart: a manager built from the two documents of a dump shows every
    target as before, with the incident list [Dump] kept. *)
Theorem dump_then_restart (now maxPts : Z) (hm : HistoryManager) :
  exists hm',
    NewHistoryManager (Decoded (dumpHistory now hm)) (Decoded (dumpIncidents now hm)) maxPts
      = Some hm'
    /\ maxHistoryPts hm' = maxPts
    /\ forall id,
         GetMonitor id hm' =
         with_Incidents (keptAt now (incidentsOf hm id)) <$> GetMonitor id hm.
Proof.
  eexists. split; [reflexivity |]. split; [reflexivity |].
  intros id. unfold GetMonitor at 1. simpl.
  rewrite lookup_fmap. unfold GetMonitor.
  destruct (Monitors (data hm) !! id) as [h |]; simpl; [| reflexivity].
  unfold with_Incidents. simpl. f_equal. f_equal.
  unfold incidentsOf at 1. simpl.
  change (filter _ (_ <$> incidents hm) !! id) with (iMonitors (dumpIncidents now hm) !! id).
  rewrite dumpIncidents_lookup_exact.
  destruct (decide (keptAt now (incidentsOf hm id) = [])) as [-> | _]; reflexivity.
Qed.




Lemma RecordDown_then_RecordUp_witness :
  incidentsOf (RecordUp 1700000300 "a" (RecordDown 1700000000 "a" "HTTP 503" resolvedStore)) "a" =
    incidentsOf resolvedStore "a" ++
      [ {| Type_ := "down"; StartedAt := 1700000000; ResolvedAt := Some 1700000300;
           Duration := Int64.sub 1700000300 1700000000; Reason := "HTTP 503" |} ]
  /\ forall id', id' <> "a" ->
       incidentsOf (RecordUp 1700000300 "a" (RecordDown 1700000000 "a" "HTTP 503" resolvedStore))
         id' = incidentsOf resolvedStore id'.
Proof.
  apply (RecordDown_then_RecordUp 1700000000 1700000300 "a" "HTTP 503" resolvedStore).
  repeat constructor. discriminate.
Defined.


End storage_more.

Module startup_facts.
Import startup.

Lemma allThere_true entries :
  allThere entries = true <-> forall id, entries !! id <> Some None.
Proof.
  unfold allThere. rewrite bool_decide_eq_true. unfold map_Forall. split.
  - intros H id E. destruct (H id None E) as [x Hx]. discriminate Hx.
  - intros H id e E. destruct e as [h |]; [eauto |]. exfalso. apply (H id E).
Qed.

Lemma allThere_false entries :
  allThere entries = false <-> exists id, entries !! id = Some None.
Proof.
  split.
  - intros H. unfold allThere in H. apply bool_decide_eq_false in H.
    apply map_not_Forall in H; [| apply _].
    destruct H as (id & e & E & Hn). exists id.
    destruct e as [h |]; [| exact E]. exfalso. apply Hn. eauto.
  - intros (id & E). destruct (allThere entries) eqn:A; [| reflexivity].
    exfalso. apply (proj1 (allThere_true entries) A id E).
Qed.

Lemma allThere_entries (m : gmap string storage.MonitorHistory) :
  allThere (Some <$> m) = true.
Proof.
  apply allThere_true. intros id. rewrite lookup_fmap.
  destruct (m !! id); discriminate.
Qed.

Lemma allThere_empty : allThere ∅ = true.
Proof. apply allThere_true. intros id. rewrite lookup_empty. discriminate. Qed.

Lemma allThere_cleared entries : allThere entries = true -> allThere (cleared <$> entries) = true.
Proof.
  intros H. apply allThere_true. intros id. rewrite lookup_fmap.
  pose proof (proj1 (allThere_true entries) H id) as Hid.
  destruct (entries !! id) as [[h |] |]; simpl; congruence.
Qed.

(** On a document whose entries are all there, [storage.NewHistoryManager]
    is [NewHistoryManager], read through [settled]. *)
Lemma NewHistoryManager_settled (history : FileRead storage.HistoryData)
    (incidentsFile : FileRead storage.IncidentsData) (maxPts : Z) :
  storage.NewHistoryManager history incidentsFile maxPts =
  match NewHistoryManager (entriesOf history) incidentsFile maxPts with
  | Returned hm => settled hm
  | Failed _ => None
  | Panicked => None
  end.
Proof.
  assert (Hid : forall m : gmap string storage.MonitorHistory,
             omap (fun e => e) (Some <$> m) = m).
  { intros m. apply map_eq. intros id. rewrite lookup_omap, lookup_fmap.
    destruct (m !! id); reflexivity. }
  unfold storage.NewHistoryManager, NewHistoryManager.
  destruct history as [| err | doc]; simpl.
  - assert (Hm : forall hm : HistoryManager,
               Monitors (data hm) = ∅ ->
               match migrateIncidentsFromHistory hm with
               | Some hm' => settled hm'
               | None => None
               end
               = Some {| storage.data :=
                           {| storage.Version := Version (data hm);
                              storage.LastDumpTime := LastDumpTime (data hm);
                              storage.Monitors := ∅ |};
                         storage.incidents := incidents hm;
                         storage.maxHistoryPts := maxHistoryPts hm |}).
    { intros hm E. unfold migrateIncidentsFromHistory, settled. rewrite E.
      rewrite allThere_empty. simpl. rewrite fmap_empty, allThere_empty, !omap_empty.
      rewrite (left_id_L ∅ (∪)). reflexivity. }
    destruct incidentsFile as [| err | idoc]; simpl.
    + specialize (Hm {| data := {| Version := storage.CurrentHistoryVersion;
                                   LastDumpTime := 0; Monitors := ∅ |};
                        incidents := ∅; maxHistoryPts := maxPts |} eq_refl).
      destruct (migrateIncidentsFromHistory _) as [hm' |]; rewrite Hm;
        unfold storage.migrateIncidentsFromHistory; simpl;
        rewrite fmap_empty, map_filter_empty, fmap_empty, (left_id_L ∅ (∪)); reflexivity.
    + specialize (Hm {| data := {| Version := storage.CurrentHistoryVersion;
                                   LastDumpTime := 0; Monitors := ∅ |};
                        incidents := ∅; maxHistoryPts := maxPts |} eq_refl).
      destruct (migrateIncidentsFromHistory _) as [hm' |]; rewrite Hm;
        unfold storage.migrateIncidentsFromHistory; simpl;
        rewrite fmap_empty, map_filter_empty, fmap_empty, (left_id_L ∅ (∪)); reflexivity.
    + unfold settled. simpl. rewrite allThere_empty, omap_empty. reflexivity.
  - reflexivity.
  - assert (Hmig : settled <$> migrateIncidentsFromHistory
                      (loadHistory (entries doc)
                         {| data := {| Version := 0; LastDumpTime := 0; Monitors := ∅ |};
                            incidents := ∅; maxHistoryPts := maxPts |})
                   = Some (Some (storage.migrateIncidentsFromHistory
                                   (storage.loadHistory doc
                                      {| storage.data :=
                                           {| storage.Version := 0; storage.LastDumpTime := 0;
                                              storage.Monitors := ∅ |};
                                         storage.incidents := ∅;
                                         storage.maxHistoryPts := maxPts |})))).
    { unfold migrateIncidentsFromHistory, settled. simpl.
      rewrite allThere_entries. simpl.
      rewrite allThere_cleared by apply allThere_entries. simpl.
      unfold storage.migrateIncidentsFromHistory. simpl. do 3 f_equal.
      - f_equal. apply map_eq. intros id.
        rewrite lookup_omap, !lookup_fmap. destruct (storage.Monitors doc !! id); reflexivity.
      - f_equal. apply map_eq. intros id.
        rewrite lookup_omap, !lookup_fmap, map_lookup_filter.
        destruct (storage.Monitors doc !! id) as [h |]; simpl; [| reflexivity].
        destruct (storage.nonEmpty (storage.Incidents h)) eqn:E; simpl;
          first [ reflexivity
                | rewrite option_guard_True by exact E; reflexivity
                | rewrite option_guard_False by (rewrite E; discriminate); reflexivity ]. }
    destruct incidentsFile as [| err | idoc]; simpl.
    + destruct (migrateIncidentsFromHistory _) as [hm |]; simpl in Hmig; congruence.
    + destruct (migrateIncidentsFromHistory _) as [hm |]; simpl in Hmig; congruence.
    + unfold settled. simpl. rewrite allThere_entries, Hid. destruct doc. reflexivity.
Qed.

(** X12: legacy files, with no usable incident file.  If the decoded
    history document maps some monitor to null, [NewHistoryManager]
    panics.  Otherwise it returns a manager that shows every target
    exactly as the document has it, embedded incidents included, and none
    of whose entries keeps embedded incidents. *)
Theorem legacy_history_migrates (legacy : HistoryData)
    (incidentsFile : FileRead storage.IncidentsData) (maxPts : Z) :
  (forall doc, incidentsFile <> Decoded doc) ->
  ((exists id, Monitors legacy !! id = Some None) ->
   NewHistoryManager (Decoded legacy) incidentsFile maxPts = Panicked)
  /\ ((forall id, Monitors legacy !! id <> Some None) ->
      exists hm' hm,
        NewHistoryManager (Decoded legacy) incidentsFile maxPts = Returned hm'
        /\ settled hm' = Some hm
        /\ (forall id, storage.GetMonitor id hm = mjoin (Monitors legacy !! id))
        /\ (forall id h, storage.Monitors (storage.data hm) !! id = Some h ->
                         storage.Incidents h = [])).
Proof.
  intros Hno.
  assert (HN : NewHistoryManager (Decoded legacy) incidentsFile maxPts =
               match migrateIncidentsFromHistory
                       (loadHistory legacy
                          {| data := {| Version := 0; LastDumpTime := 0; Monitors := ∅ |};
                             incidents := ∅; maxHistoryPts := maxPts |}) with
               | Some hm' => Returned hm'
               | None => Panicked
               end).
  { unfold NewHistoryManager. destruct incidentsFile as [| err | doc]; try reflexivity.
    exfalso. apply (Hno doc). reflexivity. }
  rewrite HN. unfold migrateIncidentsFromHistory. simpl. split.
  - intros Hnull. rewrite (proj2 (allThere_false _) Hnull). reflexivity.
  - intros Hall. pose proof (proj2 (allThere_true _) Hall) as Hall'. rewrite Hall'.
    eexists _, _. split; [reflexivity |].
    unfold settled. simpl. rewrite (allThere_cleared _ Hall').
    split; [reflexivity |]. split.
    + intros id. unfold storage.GetMonitor, storage.incidentsOf. simpl.
      rewrite lookup_omap, lookup_fmap, lookup_union, lookup_omap, lookup_empty.
      destruct (Monitors legacy !! id) as [[h |] |]; simpl; try reflexivity.
      destruct h as [u1 u7 u30 lat incs lc up]. simpl.
      unfold storage.nonEmpty. simpl.
      destruct incs as [| inc incs]; reflexivity.
    + intros id h. simpl. rewrite lookup_omap, lookup_fmap.
      destruct (Monitors legacy !! id) as [[h0 |] |]; simpl; try discriminate.
      intros H. injection H as <-.
      destruct (storage.nonEmpty (storage.Incidents h0)) eqn:E; simpl; [reflexivity |].
      unfold storage.nonEmpty in E. destruct (storage.Incidents h0); [reflexivity |].
      simpl in E. discriminate.
Qed.

Lemma legacy_history_migrates_witness :
  NewHistoryManager (Decoded nullDoc) Missing 1440 = Panicked
  /\ exists hm' hm,
       NewHistoryManager (Decoded legacyDoc) Missing 1440 = Returned hm'
       /\ settled hm' = Some hm
       /\ (forall id, storage.GetMonitor id hm = mjoin (Monitors legacyDoc !! id))
       /\ (forall id h, storage.Monitors (storage.data hm) !! id = Some h ->
                        storage.Incidents h = []).
Proof.
  split.
  - apply (legacy_history_migrates nullDoc Missing 1440).
    + intros doc. discriminate.
    + exists "b". apply lookup_insert_eq.
  - apply (legacy_history_migrates legacyDoc Missing 1440).
    + intros doc. discriminate.
    + apply (proj1 (allThere_true (Monitors legacyDoc))).
      apply (allThere_entries (storage.Monitors storage.legacyDoc)).
Defined.

End startup_facts.

Module web_facts.
Import web.




End web_facts.

Module monitor_more.
Import monitor monitor_facts.

(** X15: A success while UP (after any failures below the threshold): the
    counters are back at zero, nothing is emitted, no incident changes. *)
Theorem success_while_up id name tgt (T R : Z) (r : ProbeResult) (w : World) :
  0 <= storage.maxHistoryPts (histMgr w) ->
  Up r = true ->
  isUp (stateOf w id) = true ->
  exists w',
    Process id name tgt T R r w = Some ({| IsFailing := false |}, w')
    /\ stateOf w' id = {| isUp := true; failCount := 0; reminderCount := 0 |}
    /\ trace w' = trace w
    /\ forall id', storage.incidentsOf (histMgr w') id' = storage.incidentsOf (histMgr w) id'.
Proof.
  intros Hmax Hup Hstate.
  destruct (Process_success id name tgt T R r w Hmax Hup)
    as (w' & effs & HP & Htr & (_ & _ & Hfr) & Hst & Hcase).
  rewrite Hstate in Hcase. destruct Hcase as (-> & Hinc).
  exists w'. split; [exact HP |]. split; [apply stateOf_Some, Hst |].
  split; [rewrite Htr; apply app_nil_r |].
  intros id'. destruct (decide (id' = id)) as [-> | Hne]; [exact Hinc |].
  apply Hfr, Hne.
Qed.

(** X16: A recovery that finds no open incident (the history of the target was
    removed meanwhile, say): the alert is emitted all the same and no
    incident list changes. *)
Theorem recovery_without_open_incident id name tgt (T R : Z) (r : ProbeResult) (w : World) :
  0 <= storage.maxHistoryPts (histMgr w) ->
  Up r = true ->
  isUp (stateOf w id) = false ->
  Forall resolved (storage.incidentsOf (histMgr w) id) ->
  exists w' ts,
    Process id name tgt T R r w = Some ({| IsFailing := false |}, w')
    /\ stateOf w' id = {| isUp := true; failCount := 0; reminderCount := 0 |}
    /\ emitted w w' = [alertEvent id name "up" tgt "" ts]
    /\ forall id', storage.incidentsOf (histMgr w') id' = storage.incidentsOf (histMgr w) id'.
Proof.
  intros Hmax Hup Hstate Hres.
  destruct (Process_success id name tgt T R r w Hmax Hup)
    as (w' & effs & HP & Htr & (_ & _ & Hfr) & Hst & Hcase).
  rewrite Hstate in Hcase. destruct Hcase as (t & ts & h & i & -> & Hinc).
  exists w', ts. split; [exact HP |]. split; [apply stateOf_Some, Hst |].
  split; [rewrite (emitted_app _ _ _ Htr); reflexivity |].
  intros id'. destruct (decide (id' = id)) as [-> | Hne]; [| apply Hfr, Hne].
  rewrite Hinc. apply resolveLatest_none. exact Hres.
Qed.










Lemma ProcessAll_app id name tgt T R rs1 rs2 w :
  ProcessAll id name tgt T R (rs1 ++ rs2) w =
  match ProcessAll id name tgt T R rs1 w with
  | Some (_, w1) => ProcessAll id name tgt T R rs2 w1
  | None => None
  end.
Proof.
  revert w. induction rs1 as [| r rs1 IH]; intros w; [reflexivity |].
  simpl. unfold bind.
  destruct (Process id name tgt T R r w) as [[res w1] |]; [apply IH | reflexivity].
Qed.

Lemma failures_below_threshold_incidents id name tgt T R (fails : list ProbeResult) :
  forall w w1,
    0 <= storage.maxHistoryPts (histMgr w) ->
    isUp (stateOf w id) = true ->
    0 <= failCount (stateOf w id) ->
    failCount (stateOf w id) + Z.of_nat (length fails) < T ->
    T <= Int64.max64 ->
    Forall (fun r => Up r = false) fails ->
    ProcessAll id name tgt T R fails w = Some (tt, w1) ->
    storage.incidentsOf (histMgr w1) id = storage.incidentsOf (histMgr w) id.
Proof.
  induction fails as [| r rs IH]; intros w w1 Hmax Hup Hc Hlt HT Hall HP.
  - injection HP as <-. reflexivity.
  - apply Forall_cons in Hall as [Hr Hall]. simpl in HP. unfold bind at 1 in HP.
    simpl length in Hlt.
    destruct (Process_failure id name tgt T R r w Hmax Hr)
      as (w2 & effs & HP2 & _ & (_ & Hm & _) & Hcase).
    rewrite HP2 in HP. simpl in Hcase. rewrite Hup in Hcase. simpl in Hcase.
    rewrite Int64.add_small in Hcase
      by (unfold Int64.InRange, Int64.min64, Int64.max64 in *; lia).
    rewrite geb_false in Hcase by lia.
    destruct Hcase as (Hi & Hst & _). apply stateOf_Some in Hst.
    rewrite <- Hi. apply (IH w2 w1); try assumption; rewrite ?Hst; simpl; try lia;
      try reflexivity.
Qed.

(** X19: A whole outage: from UP with no open incident, [T] failures and then
    a success leave the target UP with zero counters; exactly two alerts
    were emitted, "down" then "up"; the incident list has gained exactly one
    incident, resolved, carrying the reason of the [T]-th failure. *)
Theorem outage_cycle id name tgt (T R : Z) (fails : list ProbeResult)
    (last ok : ProbeResult) (w : World) :
  0 <= storage.maxHistoryPts (histMgr w) ->
  1 <= T <= Int64.max64 ->
  isUp (stateOf w id) = true ->
  failCount (stateOf w id) = 0 ->
  Forall resolved (storage.incidentsOf (histMgr w) id) ->
  Forall (fun r => Up r = false) fails ->
  Z.of_nat (length fails) = T - 1 ->
  Up last = false ->
  Up ok = true ->
  exists w' tDown tUp ts1 ts2,
    ProcessAll id name tgt T R (fails ++ [last; ok]) w = Some (tt, w')
    /\ stateOf w' id = {| isUp := true; failCount := 0; reminderCount := 0 |}
    /\ emitted w w' = [ alertEvent id name "down" tgt (Error last) ts1;
                        alertEvent id name "up" tgt "" ts2 ]
    /\ storage.incidentsOf (histMgr w') id =
         storage.incidentsOf (histMgr w) id ++
           [ {| storage.Type_ := "down"; storage.StartedAt := tDown;
                storage.ResolvedAt := Some tUp;
                storage.Duration := Int64.sub tUp tDown;
                storage.Reason := Error last |} ].
Proof.
  intros Hmax HT Hup Hc Hres Hall Hlen Hlast Hok.
  destruct (failures_below_threshold id name tgt T R fails w)
    as (w1 & HP1 & Hup1 & Hc1 & Htr1 & Hm1); try done; try lia.
  assert (Hinc1 : storage.incidentsOf (histMgr w1) id = storage.incidentsOf (histMgr w) id).
  { apply (failures_below_threshold_incidents id name tgt T R fails w w1); try done; lia. }
  destruct (Process_failure id name tgt T R last w1 ltac:(lia) Hlast)
    as (w2 & effs2 & HP2 & Htr2 & (_ & Hm2 & _) & Hcase2).
  simpl in Hcase2. rewrite Hup1, Hc1, Hc in Hcase2. simpl in Hcase2.
  rewrite Int64.add_small in Hcase2
    by (unfold Int64.InRange, Int64.min64, Int64.max64 in *; lia).
  rewrite geb_true in Hcase2 by lia.
  destruct Hcase2 as (Hst2 & tDown & ts1 & h1 & i1 & -> & Hinc2).
  destruct (Process_success id name tgt T R ok w2 ltac:(lia) Hok)
    as (w3 & effs3 & HP3 & Htr3 & _ & Hst3 & Hcase3).
  rewrite (stateOf_Some _ _ _ Hst2) in Hcase3. simpl in Hcase3.
  destruct Hcase3 as (tUp & ts2 & h2 & i2 & -> & Hinc3).
  exists w3, tDown, tUp, ts1, ts2.
  split.
  { rewrite ProcessAll_app, HP1. simpl. unfold bind at 1. rewrite HP2.
    unfold bind at 1. rewrite HP3. reflexivity. }
  split; [apply stateOf_Some, Hst3 |].
  split.
  { unfold emitted. rewrite Htr3, Htr2, Htr1, <- app_assoc, drop_app_length. reflexivity. }
  rewrite Hinc3, Hinc2, Hinc1.
  rewrite (resolveLatest_last_open tUp _ (downIncident tDown (Error last)) []);
    [reflexivity | reflexivity | constructor].
Qed.

Lemma success_while_up_witness :
  exists w',
    Process "a" "A" "t" 3 0 okProbe (initWorld exampleClock 1440)
      = Some ({| IsFailing := false |}, w')
    /\ stateOf w' "a" = {| isUp := true; failCount := 0; reminderCount := 0 |}
    /\ trace w' = trace (initWorld exampleClock 1440)
    /\ forall id', storage.incidentsOf (histMgr w') id'
                   = storage.incidentsOf (histMgr (initWorld exampleClock 1440)) id'.
Proof.
  apply (success_while_up "a" "A" "t" 3 0 okProbe (initWorld exampleClock 1440)).
  - simpl. lia.
  - reflexivity.
  - reflexivity.
Defined.

Lemma recovery_without_open_incident_witness :
  exists w' ts,
    Process "a" "A" "t" 3 0 okProbe orphanWorld = Some ({| IsFailing := false |}, w')
    /\ stateOf w' "a" = {| isUp := true; failCount := 0; reminderCount := 0 |}
    /\ emitted orphanWorld w' = [alertEvent "a" "A" "up" "t" "" ts]
    /\ forall id', storage.incidentsOf (histMgr w') id'
                   = storage.incidentsOf (histMgr orphanWorld) id'.
Proof.
  apply (recovery_without_open_incident "a" "A" "t" 3 0 okProbe orphanWorld).
  - simpl. lia.
  - reflexivity.
  - reflexivity.
  - constructor.
Defined.



Lemma outage_cycle_witness :
  exists w' tDown tUp ts1 ts2,
    ProcessAll "a" "A" "t" 3 0 ([failedProbe; failedProbe] ++ [failedProbe; okProbe])
      (initWorld exampleClock 1440) = Some (tt, w')
    /\ stateOf w' "a" = {| isUp := true; failCount := 0; reminderCount := 0 |}
    /\ emitted (initWorld exampleClock 1440) w'
        = [ alertEvent "a" "A" "down" "t" (Error failedProbe) ts1;
            alertEvent "a" "A" "up" "t" "" ts2 ]
    /\ storage.incidentsOf (histMgr w') "a" =
         storage.incidentsOf (histMgr (initWorld exampleClock 1440)) "a" ++
           [ {| storage.Type_ := "down"; storage.StartedAt := tDown;
                storage.ResolvedAt := Some tUp;
                storage.Duration := Int64.sub tUp tDown;
                storage.Reason := Error failedProbe |} ].
Proof.
  apply (outage_cycle "a" "A" "t" 3 0 [failedProbe; failedProbe] failedProbe okProbe
           (initWorld exampleClock 1440)).
  - simpl. lia.
  - unfold Int64.max64. lia.
  - reflexivity.
  - reflexivity.
  - constructor.
  - repeat constructor.
  - reflexivity.
  - reflexivity.
  - reflexivity.
Defined.

End monitor_more.

Module scheduler_facts.
Import monitor.

Local Abbreviation enable :=
  (fun (d : gmap string config.Monitor) (m : config.Monitor) =>
     if config.IsEnabled m then <[config.ID m := m]> d else d).

Lemma desiredOf_snoc ms m :
  foldl enable ∅ (ms ++ [m]) = enable (foldl enable ∅ ms) m.
Proof. rewrite foldl_app. reflexivity. Qed.

(** Every entry of [desired] is an enabled monitor of the configuration,
    under its own identifier. *)
Lemma desiredOf_sound cfg id m :
  desiredOf cfg !! id = Some m ->
  m ∈ config.Monitors cfg /\ config.ID m = id /\ config.IsEnabled m = true.
Proof.
  unfold desiredOf.
  induction (config.Monitors cfg) as [| x ms IH] using rev_ind.
  - intros H. discriminate H.
  - rewrite desiredOf_snoc. cbv beta. destruct (config.IsEnabled x) eqn:Ex.
    + destruct (decide (config.ID x = id)) as [<- | Hne].
      * rewrite lookup_insert_eq. intros H. injection H as <-.
        split; [apply elem_of_app; right; apply list_elem_of_singleton; reflexivity | auto].
      * rewrite lookup_insert_ne by exact Hne. intros H.
        destruct (IH H) as (Hin & Hid & Hen). split; [| auto].
        apply elem_of_app. left. exact Hin.
    + intros H. destruct (IH H) as (Hin & Hid & Hen). split; [| auto].
      apply elem_of_app. left. exact Hin.
Qed.

Lemma desiredOf_complete cfg m :
  NoDup (config.ID <$> config.Monitors cfg) ->
  m ∈ config.Monitors cfg ->
  config.IsEnabled m = true ->
  desiredOf cfg !! config.ID m = Some m.
Proof.
  unfold desiredOf.
  induction (config.Monitors cfg) as [| x ms IH] using rev_ind.
  - intros _ H. inversion H.
  - intros Hnd Hin Hen. rewrite fmap_app in Hnd. apply NoDup_app in Hnd as (Hnd1 & Hdisj & _).
    rewrite desiredOf_snoc. cbv beta.
    apply elem_of_app in Hin as [Hin | Hin].
    + assert (Hne : config.ID x <> config.ID m).
      { intros Heq. apply (Hdisj (config.ID m)).
        - apply list_elem_of_fmap. eauto.
        - simpl. rewrite Heq. apply list_elem_of_singleton. reflexivity. }
      destruct (config.IsEnabled x).
      * rewrite lookup_insert_ne by exact Hne. apply IH; assumption.
      * apply IH; assumption.
    + apply list_elem_of_singleton in Hin as ->. rewrite Hen.
      apply lookup_insert_eq.
Qed.

(** The loops left by the first loop of [syncMonitors]. *)
Lemma stop_loop_running desired (s : Scheduler) :
  forall id,
    running (map_fold (stopStep desired) s (running s)) !! id =
    match running s !! id with
    | Some rm =>
        match desired !! id with
        | Some dm => if decide (rm = dm) then Some rm else None
        | None => None
        end
    | None => None
    end.
Proof.
  assert (G : forall m,
             m ⊆ running s ->
             forall id,
               running (map_fold (stopStep desired) s m) !! id =
               match m !! id with
               | Some rm =>
                   match desired !! id with
                   | Some dm => if decide (rm = dm) then Some rm else None
                   | None => None
                   end
               | None => running s !! id
               end).
  { intros m. apply (map_fold_weak_ind
      (fun r m => m ⊆ running s ->
                  forall id,
                    running r !! id =
                    match m !! id with
                    | Some rm =>
                        match desired !! id with
                        | Some dm => if decide (rm = dm) then Some rm else None
                        | None => None
                        end
                    | None => running s !! id
                    end)).
    - intros _ id. rewrite lookup_empty. reflexivity.
    - intros i x m' r Hfresh IH Hsub id.
      assert (Hsub' : m' ⊆ running s).
      { etrans; [| exact Hsub]. apply insert_subseteq. exact Hfresh. }
      assert (Hx : running s !! i = Some x).
      { eapply lookup_weaken; [| exact Hsub]. apply lookup_insert_eq. }
      specialize (IH Hsub'). unfold stopStep.
      destruct (decide (i = id)) as [<- | Hne].
      + rewrite lookup_insert_eq.
        destruct (desired !! i) as [dm |]; [destruct (decide (x = dm)) |]; simpl.
        * rewrite (IH i), Hfresh. exact Hx.
        * apply lookup_delete_eq.
        * apply lookup_delete_eq.
      + rewrite lookup_insert_ne by exact Hne.
        destruct (desired !! i) as [dm |]; [destruct (decide (x = dm)) |]; simpl;
          rewrite ?lookup_delete_ne by exact Hne; apply IH. }
  intros id. rewrite (G (running s)) by reflexivity.
  destruct (running s !! id); reflexivity.
Qed.

Lemma start_loop_running (desired : gmap string config.Monitor) (s1 : Scheduler) :
  (forall id m, desired !! id = Some m -> config.ID m = id) ->
  forall id,
    running (map_fold startStep s1 desired) !! id =
    match running s1 !! id with
    | Some x => Some x
    | None => desired !! id
    end.
Proof.
  intros Hkeys.
  assert (G : forall m,
             m ⊆ desired ->
             forall id,
               running (map_fold startStep s1 m) !! id =
               match running s1 !! id with
               | Some x => Some x
               | None => m !! id
               end).
  { intros m. apply (map_fold_weak_ind
      (fun r m => m ⊆ desired ->
                  forall id,
                    running r !! id =
                    match running s1 !! id with
                    | Some x => Some x
                    | None => m !! id
                    end)).
    - intros _ id. rewrite lookup_empty. destruct (running s1 !! id); reflexivity.
    - intros i x m' r Hfresh IH Hsub id.
      assert (Hsub' : m' ⊆ desired).
      { etrans; [| exact Hsub]. apply insert_subseteq. exact Hfresh. }
      assert (Hx : config.ID x = i).
      { apply Hkeys. eapply lookup_weaken; [| exact Hsub]. apply lookup_insert_eq. }
      specialize (IH Hsub'). unfold startStep, startMonitor.
      destruct (running r !! i) as [y |] eqn:Er.
      + rewrite (IH id). rewrite (IH i), Hfresh in Er.
        destruct (decide (i = id)) as [<- | Hne].
        * destruct (running s1 !! i); [reflexivity | discriminate].
        * rewrite lookup_insert_ne by exact Hne. reflexivity.
      + simpl. rewrite Hx. rewrite (IH i), Hfresh in Er.
        destruct (decide (i = id)) as [<- | Hne].
        * rewrite !lookup_insert_eq. destruct (running s1 !! i); [discriminate | reflexivity].
        * rewrite !lookup_insert_ne by exact Hne. apply IH. }
  intros id. apply G. reflexivity.
Qed.

Lemma sync_running (cfg : config.Config) (s : Scheduler) :
  running (syncMonitors cfg s) = desiredOf cfg.
Proof.
  apply map_eq. intros id. unfold syncMonitors.
  rewrite start_loop_running by (intros i m H; apply (desiredOf_sound cfg i m H)).
  rewrite stop_loop_running.
  destruct (running s !! id) as [rm |]; [| reflexivity].
  destruct (desiredOf cfg !! id) as [dm |]; [| reflexivity].
  destruct (decide (rm = dm)) as [-> | _]; reflexivity.
Qed.

(** X20: after a reconciliation the live loops are exactly the desired
    ones, whatever ran before: each is an enabled monitor of the
    configuration, registered under its own identifier. *)
Theorem syncMonitors_running (cfg : config.Config) (s : Scheduler) :
  running (syncMonitors cfg s) = desiredOf cfg
  /\ forall id m,
       running (syncMonitors cfg s) !! id = Some m ->
       m ∈ config.Monitors cfg /\ config.ID m = id /\ config.IsEnabled m = true.
Proof.
  split; [apply sync_running |].
  intros id m H. rewrite sync_running in H.
  apply (desiredOf_sound cfg id m H).
Qed.

(** X21: With unique identifiers (as [Validate] demands): a target runs after
    the reconciliation exactly when the configuration has it enabled, and
    then with the parameters of the configuration. *)
Theorem syncMonitors_runs_enabled (cfg : config.Config) (s : Scheduler)
    (id : string) (m : config.Monitor) :
  NoDup (config.ID <$> config.Monitors cfg) ->
  running (syncMonitors cfg s) !! id = Some m <->
  m ∈ config.Monitors cfg /\ config.ID m = id /\ config.IsEnabled m = true.
Proof.
  intros Hnd. rewrite sync_running. split.
  - apply desiredOf_sound.
  - intros (Hin & <- & Hen). apply desiredOf_complete; assumption.
Qed.

Lemma set_states_states (w : World) : set_states (states w) w = w.
Proof. destruct w; reflexivity. Qed.

Lemma stop_loop_states desired (s : Scheduler) (m : gmap string config.Monitor) :
  analyzer (map_fold (stopStep desired) s m)
  = set_states (states (analyzer (map_fold (stopStep desired) s m))) (analyzer s)
  /\ forall id,
       states (analyzer (map_fold (stopStep desired) s m)) !! id =
       match m !! id, desired !! id with
       | Some _, None => None
       | _, _ => states (analyzer s) !! id
       end.
Proof.
  apply (map_fold_weak_ind
           (fun r m =>
              analyzer r = set_states (states (analyzer r)) (analyzer s)
              /\ forall id,
                   states (analyzer r) !! id =
                   match m !! id, desired !! id with
                   | Some _, None => None
                   | _, _ => states (analyzer s) !! id
                   end)).
  - split; [symmetry; apply set_states_states |].
    intros id. rewrite lookup_empty. reflexivity.
  - intros i x m' r Hfresh [IHw IH]. unfold stopStep.
    destruct (desired !! i) as [dm |] eqn:Ed.
    + assert (G : forall id,
                 states (analyzer r) !! id =
                 match <[i:=x]> m' !! id, desired !! id with
                 | Some _, None => None
                 | _, _ => states (analyzer s) !! id
                 end).
      { intros id. rewrite IH. destruct (decide (i = id)) as [<- | Hne].
        - rewrite lookup_insert_eq, Hfresh, Ed. reflexivity.
        - rewrite lookup_insert_ne by exact Hne. reflexivity. }
      destruct (decide (x = dm)); simpl; split; assumption.
    + simpl. split.
      * rewrite IHw at 1. reflexivity.
      * intros id. unfold RemoveState. simpl.
        destruct (decide (i = id)) as [<- | Hne].
        -- rewrite lookup_delete_eq, lookup_insert_eq, Ed. reflexivity.
        -- rewrite lookup_delete_ne, lookup_insert_ne by exact Hne. apply IH.
Qed.

Lemma sync_states (cfg : config.Config) (s : Scheduler) :
  analyzer (syncMonitors cfg s)
  = set_states (states (analyzer (syncMonitors cfg s))) (analyzer s)
  /\ forall id,
       states (analyzer (syncMonitors cfg s)) !! id =
       match running s !! id, desiredOf cfg !! id with
       | Some _, None => None
       | _, _ => states (analyzer s) !! id
       end.
Proof.
  unfold syncMonitors. rewrite monitor_facts.start_loop_analyzer.
  apply stop_loop_states.
Qed.

(** X22: what a reconciliation does to the analyzer: the hysteresis state
    goes exactly for the targets whose loop ran and is no longer desired;
    every other target keeps its state, restarted or not; history, clock
    and trace are not touched. *)
Theorem syncMonitors_states (cfg : config.Config) (s : Scheduler) :
  histMgr (analyzer (syncMonitors cfg s)) = histMgr (analyzer s)
  /\ trace (analyzer (syncMonitors cfg s)) = trace (analyzer s)
  /\ ticks (analyzer (syncMonitors cfg s)) = ticks (analyzer s)
  /\ clock (analyzer (syncMonitors cfg s)) = clock (analyzer s)
  /\ forall id,
       states (analyzer (syncMonitors cfg s)) !! id =
       match running s !! id, desiredOf cfg !! id with
       | Some _, None => None
       | _, _ => states (analyzer s) !! id
       end.
Proof.
  destruct (sync_states cfg s) as [Hw Hst].
  rewrite Hw at 1 2 3 4. simpl.
  repeat split; try reflexivity. exact Hst.
Qed.

(** X23: Reconciling twice against the same configuration does nothing more. *)
Theorem syncMonitors_idempotent (cfg : config.Config) (s : Scheduler) :
  syncMonitors cfg (syncMonitors cfg s) = syncMonitors cfg s.
Proof.
  destruct (sync_states cfg (syncMonitors cfg s)) as [Hw Hst].
  assert (Hs : states (analyzer (syncMonitors cfg (syncMonitors cfg s)))
               = states (analyzer (syncMonitors cfg s))).
  { apply map_eq. intros id. rewrite Hst, sync_running.
    destruct (desiredOf cfg !! id); reflexivity. }
  assert (Ha : analyzer (syncMonitors cfg (syncMonitors cfg s)) = analyzer (syncMonitors cfg s)).
  { rewrite Hw, Hs. apply set_states_states. }
  assert (Hr : running (syncMonitors cfg (syncMonitors cfg s)) = running (syncMonitors cfg s)).
  { rewrite !sync_running. reflexivity. }
  destruct (syncMonitors cfg (syncMonitors cfg s)), (syncMonitors cfg s). simpl in *.
  congruence.
Qed.

(** The wait after a probe: the retry interval only while the target is
    failing and only when it is the shorter one. *)
Lemma nextInterval_min ar normal retry :
  nextInterval ar normal retry = if IsFailing ar then Z.min retry normal else normal.
Proof.
  unfold nextInterval. destruct (IsFailing ar); simpl; [| reflexivity].
  destruct (Z.ltb_spec retry normal); lia.
Qed.

Lemma seconds_small n : 0 <= n <= maxSeconds -> seconds n = n * 1000000000.
Proof.
  intros H. unfold seconds. apply Int64.wrap_small.
  unfold Int64.InRange, Int64.min64, Int64.max64, maxSeconds in *. lia.
Qed.

(** [Validate] sets no upper bound on an interval: one second above
    [maxSeconds] the timer duration has wrapped to a negative value. *)
Lemma seconds_wraps : seconds (maxSeconds + 1) < 0.
Proof. vm_compute. reflexivity. Qed.

(** X24: for a monitor that passes validation, with the intervals
    [startMonitor] derives: the time-out is positive and below the normal
    interval, and the interval chosen after a probe lies between 1 and the
    normal interval, as numbers of seconds.  When the normal interval is
    at most [maxSeconds], the durations computed from them have not
    wrapped: the timer is armed with exactly that many seconds, at least
    one second and at most the normal interval, and the time-out of the
    probe is positive and shorter than the normal interval. *)
Theorem validated_intervals urlScheme showInt quote (c : config.Config)
    (m : config.Monitor) (ar : AnalyzeResult) :
  config.Validate urlScheme showInt quote c = None ->
  m ∈ config.Monitors c ->
  let normal := normalInterval m (config.CheckInterval (config.System c)) in
  let retry := retryInterval m (config.CheckInterval (config.System c)) in
  0 < config.Timeout m < normal
  /\ 1 <= nextInterval ar normal retry <= normal
  /\ (normal <= maxSeconds ->
      waitAfter ar normal retry = nextInterval ar normal retry * 1000000000
      /\ seconds 1 <= waitAfter ar normal retry <= seconds normal
      /\ 0 < probeTimeout m < seconds normal).
Proof.
  intros Hv Hm.
  pose proof (config_more.Validate_monitors urlScheme showInt quote c Hv) as Hall.
  rewrite Forall_forall in Hall.
  destruct (Hall m Hm) as (_ & _ & _ & _ & _ & _ & Ht & _ & Hr & _). simpl.
  unfold config.effectiveInterval in Ht.
  assert (Hn : config.Timeout m < normalInterval m (config.CheckInterval (config.System c))).
  { unfold normalInterval. destruct (config.Interval m <=? 0); lia. }
  assert (Hw : 1 <= nextInterval ar
                      (normalInterval m (config.CheckInterval (config.System c)))
                      (retryInterval m (config.CheckInterval (config.System c)))
                <= normalInterval m (config.CheckInterval (config.System c))).
  { unfold retryInterval. rewrite nextInterval_min.
    destruct (Z.leb_spec (config.RetryInterval m) 0), (IsFailing ar); lia. }
  split; [lia |]. split; [exact Hw |].
  intros Hmax. unfold waitAfter, probeTimeout.
  rewrite !seconds_small by lia. lia.
Qed.


Lemma syncMonitors_runs_enabled_witness :
  running (syncMonitors (exampleConfig [exampleMonitor None]) (initScheduler exampleClock 1440))
    !! "a" = Some (exampleMonitor None) <->
  exampleMonitor None ∈ config.Monitors (exampleConfig [exampleMonitor None])
  /\ config.ID (exampleMonitor None) = "a"
  /\ config.IsEnabled (exampleMonitor None) = true.
Proof.
  apply (syncMonitors_runs_enabled (exampleConfig [exampleMonitor None])
           (initScheduler exampleClock 1440) "a" (exampleMonitor None)).
  apply NoDup_singleton.
Defined.

Lemma validated_intervals_witness :
  let normal := normalInterval config.fiveTen
                  (config.CheckInterval (config.System config.fiveTenConfig)) in
  let retry := retryInterval config.fiveTen
                 (config.CheckInterval (config.System config.fiveTenConfig)) in
  0 < config.Timeout config.fiveTen < normal
  /\ 1 <= nextInterval {| IsFailing := true |} normal retry <= normal
  /\ (normal <= maxSeconds ->
      waitAfter {| IsFailing := true |} normal retry
        = nextInterval {| IsFailing := true |} normal retry * 1000000000
      /\ seconds 1 <= waitAfter {| IsFailing := true |} normal retry <= seconds normal
      /\ 0 < probeTimeout config.fiveTen < seconds normal).
Proof.
  apply (validated_intervals config.exampleScheme pretty config.exampleQuote
           config.fiveTenConfig config.fiveTen {| IsFailing := true |}).
  - vm_compute. reflexivity.
  - apply list_elem_of_singleton. reflexivity.
Defined.

End scheduler_facts.

Module notify_facts.
Import notify.

Local Abbreviation register :=
  (fun (g : gmap string config.NotifierConfig) (nc : config.NotifierConfig) =>
     <[config.nID nc := nc]> g).

Lemma globalNotifiers_sound ns id nc :
  globalNotifiers ns !! id = Some nc -> nc ∈ ns /\ config.nID nc = id.
Proof.
  unfold globalNotifiers.
  induction ns as [| x ns IH] using rev_ind.
  - intros H. discriminate H.
  - rewrite foldl_app. simpl.
    destruct (decide (config.nID x = id)) as [<- | Hne].
    + rewrite lookup_insert_eq. intros H. injection H as <-.
      split; [apply elem_of_app; right; apply list_elem_of_singleton |]; reflexivity.
    + rewrite lookup_insert_ne by exact Hne. intros H.
      destruct (IH H) as [Hin Hid]. split; [apply elem_of_app; left |]; assumption.
Qed.

Lemma notifierIDsOf_unknown ms id :
  (forall m, m ∈ ms -> config.ID m <> id) -> notifierIDsOf ms id = [].
Proof.
  induction ms as [| m ms IH]; intros H; [reflexivity |]. simpl.
  destruct (String.eqb_spec (config.ID m) id) as [E | _].
  - exfalso. apply (H m); [left | exact E].
  - apply IH. intros m' Hin. apply H. right. exact Hin.
Qed.

Lemma notifierIDsOf_first ms id ids :
  notifierIDsOf ms id = ids -> ids <> [] ->
  exists m, m ∈ ms /\ config.ID m = id /\ config.NotifierIDs m = ids.
Proof.
  induction ms as [| m ms IH]; simpl; intros H Hne; [congruence |].
  destruct (String.eqb_spec (config.ID m) id) as [E | _].
  - exists m. split; [left | auto].
  - destruct (IH H Hne) as (m' & Hin & Hm'). exists m'. split; [right |]; assumption.
Qed.

Lemma omap_length_le {A B} (f : A -> option B) (l : list A) :
  (length (omap f l) <= length l)%nat.
Proof.
  induction l as [| x l IH]; [reflexivity |].
  change (omap f (x :: l))
    with (match f x with Some y => y :: omap f l | None => omap f l end).
  destruct (f x); simpl; lia.
Qed.

(** X25: An alert for a target the configuration no longer lists reaches nobody. *)
Theorem Notify_unknown_monitor (cfg : config.Config) (event : AlertEvent) :
  (forall m, m ∈ config.Monitors cfg -> config.ID m <> MonitorID event) ->
  Notify cfg event = [].
Proof.
  intros H. unfold Notify. rewrite (notifierIDsOf_unknown _ _ H). reflexivity.
Qed.

(** X26: Every call of [Send] that [Notify] makes: the event is the one handed
    in with the time zone of the configuration, and the notifier is built
    from a configured notifier whose identifier a monitor with the event's
    identifier lists; there are no more calls than listed identifiers. *)
Theorem Notify_sends (cfg : config.Config) (event : AlertEvent) :
  (length (Notify cfg event)
   <= length (notifierIDsOf (config.Monitors cfg) (MonitorID event)))%nat
  /\ forall n e,
       (n, e) ∈ Notify cfg event ->
       e = with_Timezone (config.Timezone (config.System cfg)) event
       /\ exists m nc,
            m ∈ config.Monitors cfg /\ config.ID m = MonitorID event
            /\ config.nID nc ∈ config.NotifierIDs m
            /\ nc ∈ config.Notifiers cfg
            /\ BuildNotifier nc = Some n.
Proof.
  unfold Notify.
  destruct (notifierIDsOf (config.Monitors cfg) (MonitorID event)) as [| i ids] eqn:E.
  - split; [reflexivity |]. intros n e H. simpl in H. inversion H.
  - change (Z.of_nat (length (i :: ids)) =? 0) with (Z.of_nat (S (length ids)) =? 0).
    destruct (Z.eqb_spec (Z.of_nat (S (length ids))) 0) as [H0 | _]; [lia |].
    split.
    + apply omap_length_le.
    + intros n e Hin. apply list_elem_of_omap in Hin as (id & Hid & Hsome).
      destruct (globalNotifiers (config.Notifiers cfg) !! id) as [nc |] eqn:Eg;
        [| discriminate].
      destruct (BuildNotifier nc) as [n' |] eqn:Eb; [| discriminate].
      injection Hsome as <- <-. split; [reflexivity |].
      destruct (notifierIDsOf_first _ _ _ E ltac:(discriminate)) as (m & Hm & Hmid & Hids).
      destruct (globalNotifiers_sound _ _ _ Eg) as [Hnc Hncid].
      exists m, nc. rewrite Hids, Hncid. auto.
Qed.

Lemma Notify_unknown_monitor_witness : Notify config.fiveTenConfig strayEvent = [].
Proof.
  apply (Notify_unknown_monitor config.fiveTenConfig strayEvent).
  intros m Hm. apply list_elem_of_singleton in Hm as ->. discriminate.
Defined.

End notify_facts.

